(** * Seismic-event core: ingestion, graph relationships, wave propagation

    A shallow embedding of the Java services of [sismo-deteccion]
    ([SismoService], [GrafoService], [PropagationService] and the two
    controllers that front them), with the properties the specification
    states about them.

    Conventions of the embedding.
    - A Java [int] is a [Z] kept in the 32-bit range by [wrap32]; [Long] is
      an unbounded [Z] (no arithmetic is done on it).
    - A Java [double] is an exact rational ([Q]).  For the wave radii this is
      exact: the time is a 32-bit integer and the velocities are 6, 7/2 and
      5/2, so every product is a dyadic rational below 2^53 and binary64
      represents it without rounding.  For magnitudes it abstracts from the
      rounding of [Double.parseDouble] and of the division by ten, and it
      does not tell the two zeros apart.  A text that [Double.parseDouble]
      turns into an infinity or into NaN has no rational: [parseMagnitud]
      and the ingestion that calls it give the code on the texts whose
      numbers are finite, [parseMagnitudDouble] follows the sanitizer on
      every text, and a statement that needs the numbers finite says so.
    - A text is the sequence of its UTF-8 bytes; its characters are
      counted by [caracteres].
    - A nullable reference ([Double], [Long], [String] identifiers) is an
      [option].
    - A method that can throw returns a [resultado]; a loop that may not
      terminate takes fuel and returns [None] when it runs out. *)

From Stdlib Require Import ZArith QArith Qabs Lia Lqa String Ascii List Bool.
From stdpp Require Import base gmap strings list.

Local Open Scope Z_scope.

(** ** Common data *)

(** Exceptions that the modelled code paths can raise. *)
Inductive excepcion : Type :=
  | NullPointerException
  | IllegalArgumentException
  | NumberFormatException
  | DataIntegrityViolationException.

Inductive resultado (A : Type) : Type :=
  | Normal (a : A)
  | Lanza (e : excepcion).
Arguments Normal {A} a.
Arguments Lanza {A} e.

Definition ligar {A B : Type} (r : resultado A) (k : A -> resultado B) : resultado B :=
  match r with
  | Normal a => k a
  | Lanza e => Lanza e
  end.

(** [java.time.LocalDate], as a calendar triple. *)
Record LocalDate : Type := mkLocalDate { anio : Z; mes : Z; dia : Z }.

(** [com.sismo.model.Sismo], the relational entity; the fields carry
    the names of its getters. *)
Module Sismo.
Record t : Type := mk {
  getId : option Z;
  getFecha : option LocalDate;
  getHora : string;
  getMagnitud : option Q;
  getLatitud : Q;
  getLongitud : Q;
  getProfundidad : Q;
  getReferenciaLocalizacion : string;
  getFechaUTC : option LocalDate;
  getHoraUTC : string;
  getEstatus : string
}.

(** [new Sismo()]: references are null, primitives are zero.  The text
    fields are read only after the ingestion has set them, so their null
    is rendered as the empty string. *)
Definition nuevo : t :=
  {| getId := None; getFecha := None; getHora := EmptyString;
     getMagnitud := None; getLatitud := 0; getLongitud := 0;
     getProfundidad := 0; getReferenciaLocalizacion := EmptyString;
     getFechaUTC := None; getHoraUTC := EmptyString;
     getEstatus := EmptyString |}.
End Sismo.

(** 32-bit two's complement arithmetic of Java's [int]. *)
Definition Integer_MIN_VALUE : Z := - 2 ^ 31.
Definition Integer_MAX_VALUE : Z := 2 ^ 31 - 1.

Definition wrap32 (z : Z) : Z := (z + 2 ^ 31) mod 2 ^ 32 - 2 ^ 31.

Definition int_add (a b : Z) : Z := wrap32 (a + b).

Definition es_int (z : Z) : Prop := Integer_MIN_VALUE <= z <= Integer_MAX_VALUE.

(** ** Wave propagation ([PropagationService], [PropagationController]) *)

Module PropagationService.

(** The three classes of [com.sismo.model.ondasSismicas]. *)
Record PropagationRequest : Type := mkRequest {
  getSismoId : option Z;
  getLatitud : Q;
  getLongitud : Q;
  getMagnitud : option Q;
  getProfundidad : Q;
  getDurationSeconds : Z;
  getIntervalSeconds : Z
}.

Record WavePropagation : Type := mkWave {
  getPWaveRadiusKm : Q;
  getSWaveRadiusKm : Q;
  getSurfaceWaveRadiusKm : Q;
  getTimeSeconds : Z
}.

Record PropagationResponse : Type := mkResponse {
  getSismo : Sismo.t;
  getTimeSteps : list WavePropagation
}.

Definition P_WAVE_VELOCITY : Q := 6 # 1.
Definition S_WAVE_VELOCITY : Q := 7 # 2.
Definition SURFACE_WAVE_VELOCITY : Q := 5 # 2.

(** The body of the [for] loop: one time step. *)
Definition paso (time : Z) : WavePropagation :=
  {| getPWaveRadiusKm := P_WAVE_VELOCITY * inject_Z time;
     getSWaveRadiusKm := S_WAVE_VELOCITY * inject_Z time;
     getSurfaceWaveRadiusKm := SURFACE_WAVE_VELOCITY * inject_Z time;
     getTimeSeconds := time |}.

(** [for (int time = ...; time <= duration; time += interval)], entered
    with the loop variable at [time].  [None]: the fuel ran out before the
    loop condition became false. *)
Fixpoint bucle (fuel : nat) (time duration interval : Z)
  : option (list WavePropagation) :=
  match fuel with
  | O => None
  | S fuel' =>
      if time <=? duration then
        match bucle fuel' (int_add time interval) duration interval with
        | Some resto => Some (paso time :: resto)
        | None => None
        end
      else Some []
  end.

(** The request's own values, used when no stored event is found. *)
Definition sismoDeSolicitud (request : PropagationRequest) : Sismo.t :=
  {| Sismo.getId := None; Sismo.getFecha := None;
     Sismo.getHora := EmptyString;
     Sismo.getMagnitud := getMagnitud request;
     Sismo.getLatitud := getLatitud request;
     Sismo.getLongitud := getLongitud request;
     Sismo.getProfundidad := getProfundidad request;
     Sismo.getReferenciaLocalizacion := EmptyString;
     Sismo.getFechaUTC := None;
     Sismo.getHoraUTC := EmptyString;
     Sismo.getEstatus := EmptyString |}.

(** [PropagationService.calculatePropagation].  [findById] is the lookup
    of the event store ([sismoRepository.findById]). *)
Definition calculatePropagation (fuel : nat) (findById : Z -> option Sismo.t)
    (request : PropagationRequest) : option PropagationResponse :=
  let encontrado :=
    match getSismoId request with
    | Some i => findById i
    | None => None
    end in
  let sismo :=
    match encontrado with
    | Some s => s
    | None => sismoDeSolicitud request
    end in
  match bucle fuel 0 (getDurationSeconds request) (getIntervalSeconds request) with
  | Some pasos => Some {| getSismo := sismo; getTimeSteps := pasos |}
  | None => None
  end.

(** The sequence the specification describes: the steps at 0, i, 2i, ...,
    [n] of them. *)
Definition serie (interval : Z) (n : nat) : list WavePropagation :=
  (fun k => paso (Z.of_nat k * interval)) <$> seq 0 n.

(** How many multiples of a positive interval, from 0 on, are at most the
    duration. *)
Definition cantidadPasos (duration interval : Z) : nat :=
  if duration <? 0 then O else S (Z.to_nat (duration / interval)).

End PropagationService.

Module PropagationController.
Import PropagationService.

(** What a caller of the HTTP entrypoint can observe: a failure raised at
    the boundary, or a response body. *)
Inductive respuesta : Type :=
  | Rechazada (e : excepcion)
  | Respondida (r : PropagationResponse).

(** [PropagationController.calculatePropagation]: the service call, then
    the controller's own default loop when the service produced no step. *)
Definition calculatePropagation (fuel : nat) (findById : Z -> option Sismo.t)
    (request : PropagationRequest) : option respuesta :=
  match PropagationService.calculatePropagation fuel findById request with
  | None => None
  | Some response =>
      match getTimeSteps response with
      | [] =>
          match bucle fuel 0 (getDurationSeconds request) (getIntervalSeconds request) with
          | Some pasos =>
              Some (Respondida {| getSismo := getSismo response; getTimeSteps := pasos |})
          | None => None
          end
      | _ :: _ => Some (Respondida response)
      end
  end.

End PropagationController.

(** ** Field sanitizer and CSV ingestion ([SismoService]) *)

Module SismoService.

(** *** Text helpers: the [java.lang.String] methods the service calls *)

Definition esBlanco (c : ascii) : bool := (nat_of_ascii c <=? 32)%nat.

Definition esDigito (c : ascii) : bool :=
  ((48 <=? nat_of_ascii c) && (nat_of_ascii c <=? 57))%nat.

Definition punto : ascii := "."%char.
Definition coma : ascii := ","%char.
Definition menos : ascii := "-"%char.

Fixpoint trimIzquierda (s : string) : string :=
  match s with
  | EmptyString => EmptyString
  | String c resto => if esBlanco c then trimIzquierda resto else s
  end.

Fixpoint trimDerecha (s : string) : string :=
  match s with
  | EmptyString => EmptyString
  | String c resto =>
      match trimDerecha resto with
      | EmptyString => if esBlanco c then EmptyString else String c EmptyString
      | r => String c r
      end
  end.

(** [String.trim]: drops the leading and trailing characters up to U+0020. *)
Definition trim (s : string) : string := trimDerecha (trimIzquierda s).

Definition isEmpty (s : string) : bool :=
  match s with EmptyString => true | String _ _ => false end.

(** [String.replace(char, char)]. *)
Fixpoint replace (viejo nuevo : ascii) (s : string) : string :=
  match s with
  | EmptyString => EmptyString
  | String c resto =>
      String (if Ascii.eqb c viejo then nuevo else c) (replace viejo nuevo resto)
  end.

(** [s.replaceAll("[^0-9.-]", "")] and [s.replace(".", "")] both delete
    the characters of a class. *)
Fixpoint conservar (f : ascii -> bool) (s : string) : string :=
  match s with
  | EmptyString => EmptyString
  | String c resto => if f c then String c (conservar f resto) else conservar f resto
  end.

Definition esNumerico (c : ascii) : bool :=
  esDigito c || Ascii.eqb c punto || Ascii.eqb c menos.

(** [String.indexOf(char)] and [String.lastIndexOf(char)]; -1 when absent. *)
Fixpoint indexOf (c : ascii) (s : string) : Z :=
  match s with
  | EmptyString => -1
  | String c' resto =>
      if Ascii.eqb c' c then 0
      else let i := indexOf c resto in if i =? -1 then -1 else i + 1
  end.

Fixpoint lastIndexOf (c : ascii) (s : string) : Z :=
  match s with
  | EmptyString => -1
  | String c' resto =>
      let i := lastIndexOf c resto in
      if i =? -1 then (if Ascii.eqb c' c then 0 else -1) else i + 1
  end.

(** [s.substring(0, fin)] and [s.substring(inicio)], for indices within
    the string (the only ones the service passes). *)
Definition substringHasta (fin : Z) (s : string) : string :=
  String.substring 0 (Z.to_nat fin) s.

Definition substringDesde (inicio : Z) (s : string) : string :=
  String.substring (Z.to_nat inicio) (String.length s - Z.to_nat inicio) s.

(** [String.toLowerCase] on the ASCII letters (bytes of other characters
    are left as they are). *)
Definition minuscula (c : ascii) : ascii :=
  let n := nat_of_ascii c in
  if ((65 <=? n) && (n <=? 90))%nat then ascii_of_nat (n + 32) else c.

Fixpoint toLowerCase (s : string) : string :=
  match s with
  | EmptyString => EmptyString
  | String c resto => String (minuscula c) (toLowerCase resto)
  end.

(** *** [Double.parseDouble] on cleaned text

    The text that reaches the call holds digits, dots and minus signs
    only; on such text the library accepts an optional sign followed by
    digits with at most one dot and at least one digit, and throws
    [NumberFormatException] on anything else. *)

(** Reads a run of digits: the number read so far, how many digits were
    read, and the text left. *)
Fixpoint leerDigitos (s : string) (acc : Z) (n : nat) : Z * nat * string :=
  match s with
  | String c resto =>
      if esDigito c
      then leerDigitos resto (10 * acc + Z.of_nat (nat_of_ascii c - 48)) (S n)
      else (acc, n, s)
  | EmptyString => (acc, n, s)
  end.

Definition parseSinSigno (s : string) : resultado Q :=
  let '(entero, n1, resto) := leerDigitos s 0 0 in
  match resto with
  | EmptyString =>
      if (n1 =? 0)%nat then Lanza NumberFormatException else Normal (inject_Z entero)
  | String c fraccion =>
      if Ascii.eqb c punto then
        let '(todo, n2, resto2) := leerDigitos fraccion entero 0 in
        match resto2 with
        | EmptyString =>
            if (n1 + n2 =? 0)%nat then Lanza NumberFormatException
            else Normal (todo # Z.to_pos (10 ^ Z.of_nat n2))
        | String _ _ => Lanza NumberFormatException
        end
      else Lanza NumberFormatException
  end.

Definition Double_parseDouble (s : string) : resultado Q :=
  match s with
  | String c resto =>
      if Ascii.eqb c menos
      then ligar (parseSinSigno resto) (fun v => Normal (- v)%Q)
      else parseSinSigno s
  | EmptyString => Lanza NumberFormatException
  end.

(** *** [parseMagnitud] *)

(** [while (valor > 10.0) valor /= 10;] *)
Fixpoint dividirMientrasExcede (fuel : nat) (valor : Q) : option Q :=
  match fuel with
  | O => None
  | S fuel' =>
      if negb (Qle_bool valor 10)
      then dividirMientrasExcede fuel' (valor / 10)%Q
      else Some valor
  end.

(** Step 5 of the method: when the first and the last dot differ, the text
    up to the first dot followed by the rest with its dots deleted. *)
Definition soloPrimerPunto (cleaned : string) : string :=
  let firstDot := indexOf punto cleaned in
  if negb (firstDot =? -1) then
    let lastDot := lastIndexOf punto cleaned in
    if negb (firstDot =? lastDot) then
      (substringHasta (firstDot + 1) cleaned
       ++ conservar (fun c => negb (Ascii.eqb c punto))
            (substringDesde (firstDot + 1) cleaned))%string
    else cleaned
  else cleaned.

(** [SismoService.parseMagnitud] on a text whose cleaned value
    [Double.parseDouble] rounds to a finite double, that is, of magnitude
    below [Double_desborde] ([parseMagnitudDouble] below is the method on
    every text, and [parseMagnitudDouble_finito] relates the two).  The
    method catches the [NumberFormatException] itself.  The fuel of the
    division loop is one more than the length of the cleaned text, which
    is enough for the loop to end on a rational (see [dividir_termina]). *)
Definition parseMagnitud (magnitudStr : option string) : Q :=
  match magnitudStr with
  | None => 0
  | Some magnitudStr =>
      if isEmpty (trim magnitudStr) then 0
      else
        let cleaned := trim magnitudStr in
        let cleaned := replace coma punto cleaned in
        let cleaned := conservar esNumerico cleaned in
        if isEmpty cleaned || String.eqb cleaned "-" || String.eqb cleaned "."
        then 0
        else
          let cleaned := soloPrimerPunto cleaned in
          match Double_parseDouble cleaned with
          | Lanza _ => 0
          | Normal valor =>
              if negb (Qle_bool 0 valor) then Qabs valor
              else if negb (Qle_bool valor 10) then
                match dividirMientrasExcede (S (String.length cleaned)) valor with
                | Some corregido => corregido
                | None => valor
                end
              else valor
          end
  end.

(** *** [parseMagnitud] on every text

    [Double.parseDouble] rounds the decimal value to the nearest double,
    ties to even: a value of magnitude [2^1024 - 2^970] or more, halfway
    between [Double.MAX_VALUE] and [2^1024], becomes an infinity.  The
    cleaned text holds digits, dots and minus signs only, so NaN does not
    arise.  A value that stays finite is kept exact, as everywhere else. *)

Inductive double : Type :=
  | Finito (v : Q)
  | Infinity (negativo : bool).

Definition Double_desborde : Q := inject_Z (2 ^ 1024 - 2 ^ 970).

Definition Double_redondear (v : Q) : double :=
  if Qle_bool Double_desborde (Qabs v) then Infinity (negb (Qle_bool 0 v))
  else Finito v.

(** [valor < 0], [Math.abs(valor)], [valor > 10.0] and [valor / 10] on a
    double. *)
Definition menorQueCero (d : double) : bool :=
  match d with
  | Finito v => negb (Qle_bool 0 v)
  | Infinity negativo => negativo
  end.

Definition Math_abs (d : double) : double :=
  match d with
  | Finito v => Finito (Qabs v)
  | Infinity _ => Infinity false
  end.

Definition mayorQueDiez (d : double) : bool :=
  match d with
  | Finito v => negb (Qle_bool v 10)
  | Infinity negativo => negb negativo
  end.

Definition entreDiez (d : double) : double :=
  match d with
  | Finito v => Finito (v / 10)
  | Infinity negativo => Infinity negativo
  end.

(** [while (valor > 10.0) valor /= 10;] on a double.  [None]: the fuel ran
    out before the loop ended. *)
Fixpoint dividirMientrasExcedeDouble (fuel : nat) (valor : double) : option double :=
  match fuel with
  | O => None
  | S fuel' =>
      if mayorQueDiez valor
      then dividirMientrasExcedeDouble fuel' (entreDiez valor)
      else Some valor
  end.

(** [SismoService.parseMagnitud] on every text.  [None]: the call has not
    returned within the fuel given to its loop. *)
Definition parseMagnitudDouble (fuel : nat) (magnitudStr : option string)
  : option double :=
  match magnitudStr with
  | None => Some (Finito 0)
  | Some magnitudStr =>
      if isEmpty (trim magnitudStr) then Some (Finito 0)
      else
        let cleaned := trim magnitudStr in
        let cleaned := replace coma punto cleaned in
        let cleaned := conservar esNumerico cleaned in
        if isEmpty cleaned || String.eqb cleaned "-" || String.eqb cleaned "."
        then Some (Finito 0)
        else
          let cleaned := soloPrimerPunto cleaned in
          match Double_parseDouble cleaned with
          | Lanza _ => Some (Finito 0)
          | Normal v =>
              let valor := Double_redondear v in
              if menorQueCero valor then Some (Math_abs valor)
              else if mayorQueDiez valor
                   then dividirMientrasExcedeDouble fuel valor
                   else Some valor
          end
  end.

(** *** The sanitizer as the specification words it

    Trim; replace every comma with a dot; delete every character that is
    not a digit, a dot or a minus sign; 0 if nothing is left; keep only
    the first dot; parse as a decimal value, 0 on failure; take the
    absolute value; divide by ten while the value exceeds ten. *)

Fixpoint quitarPuntos (s : string) : string :=
  match s with
  | EmptyString => EmptyString
  | String c resto => if Ascii.eqb c punto then quitarPuntos resto else String c (quitarPuntos resto)
  end.

Fixpoint conservarPrimerPunto (s : string) : string :=
  match s with
  | EmptyString => EmptyString
  | String c resto =>
      if Ascii.eqb c punto then String c (quitarPuntos resto)
      else String c (conservarPrimerPunto resto)
  end.

Definition textoLimpio (s : string) : string :=
  conservarPrimerPunto (conservar esNumerico (replace coma punto (trim s))).

Definition valorLimpio (s : string) : option Q :=
  if isEmpty (textoLimpio s) then None
  else match Double_parseDouble (textoLimpio s) with
       | Normal v => Some v
       | Lanza _ => None
       end.

Definition magnitudSegunSpec (s : string) : Q :=
  match valorLimpio s with
  | None => 0
  | Some v =>
      match dividirMientrasExcede (S (String.length (textoLimpio s))) (Qabs v) with
      | Some corregido => corregido
      | None => Qabs v
      end
  end.

(** *** The table [sismos] behind [SismoRepository]

    The repository is a generated JPA interface.  Its model keeps the rows
    of the table and refuses a row that breaks a column constraint of
    [dbschema/init.sql]: the two dates are NOT NULL and the four text
    columns are varchar(255), which in the utf8mb4 table is 255
    characters, whatever bytes they take.  A bulk save stores the whole
    batch or nothing; a batch and each single fallback save are separate
    units of work. *)

(** The characters of a text: in UTF-8 every character has one byte that
    is not a continuation byte (10xxxxxx, 128 to 191). *)
Definition esContinuacion (c : ascii) : bool :=
  let n := nat_of_ascii c in ((128 <=? n) && (n <=? 191))%nat.

Fixpoint caracteres (s : string) : nat :=
  match s with
  | EmptyString => O
  | String c resto =>
      if esContinuacion c then caracteres resto else S (caracteres resto)
  end.

Definition VARCHAR_255 (s : string) : bool := (caracteres s <=? 255)%nat.

Definition cumpleEsquema (s : Sismo.t) : bool :=
  match Sismo.getFecha s, Sismo.getFechaUTC s with
  | Some _, Some _ =>
      VARCHAR_255 (Sismo.getHora s)
      && VARCHAR_255 (Sismo.getReferenciaLocalizacion s)
      && VARCHAR_255 (Sismo.getHoraUTC s)
      && VARCHAR_255 (Sismo.getEstatus s)
  | _, _ => false
  end.

Definition saveAll (sismos tabla : list Sismo.t) : resultado (list Sismo.t) :=
  if forallb cumpleEsquema sismos then Normal (tabla ++ sismos)
  else Lanza DataIntegrityViolationException.

Definition save (sismo : Sismo.t) (tabla : list Sismo.t) : resultado (list Sismo.t) :=
  if cumpleEsquema sismo then Normal (tabla ++ [sismo])
  else Lanza DataIntegrityViolationException.

(** *** [cargarSismosDesdeCSV] *)

(** [obtenerValorSeguro]: the value of a column, trimmed; the empty text
    when the column is absent. *)
Definition obtenerValorSeguro (valores : gmap string string) (campo : string) : string :=
  trim (default EmptyString (valores !! toLowerCase campo)).

(** [contarError]. *)
Definition contarError (erroresPorTipo : gmap string Z) (tipoError : string)
  : gmap string Z :=
  <[tipoError := int_add (default 0 (erroresPorTipo !! tipoError)) 1]> erroresPorTipo.

(** [guardarRegistrosPorRegistro]: how many records were saved one by one,
    and the table afterwards. *)
Definition guardarRegistrosPorRegistro (sismos tabla : list Sismo.t)
  : Z * list Sismo.t :=
  foldl (fun '(guardados, tabla) sismo =>
           match save sismo tabla with
           | Normal tabla' => (int_add guardados 1, tabla')
           | Lanza _ => (guardados, tabla)
           end)
        (0, tabla) sismos.

(** The [try { saveAll ... } catch { guardarRegistrosPorRegistro ... }]
    block that both the loop and the final flush contain: the new
    [totalRegistros] and the table afterwards.  In the [catch] the count
    that [guardarRegistrosPorRegistro] returns is not used. *)
Definition guardarLote (sismosBatch : list Sismo.t) (totalRegistros : Z)
    (tabla : list Sismo.t) : Z * list Sismo.t :=
  match saveAll sismosBatch tabla with
  | Normal tabla' =>
      (int_add totalRegistros (Z.of_nat (length sismosBatch)), tabla')
  | Lanza _ =>
      let '(_, tabla') := guardarRegistrosPorRegistro sismosBatch tabla in
      (totalRegistros, tabla')
  end.

(** The local variables of the method and the table. *)
Record Carga : Type := mkCarga {
  totalRegistros : Z;
  registrosProcesados : Z;
  registrosErroneos : Z;
  erroresPorTipo : gmap string Z;
  sismosBatch : list Sismo.t;
  tabla : list Sismo.t
}.

Definition cargaInicial (tabla : list Sismo.t) : Carga :=
  {| totalRegistros := 0; registrosProcesados := 0; registrosErroneos := 0;
     erroresPorTipo := ∅; sismosBatch := []; tabla := tabla |}.

(** What [Double.parseDouble] does with a text: it returns a finite
    double, it returns NaN or an infinity (on NaN, Infinity, 1e999 and the
    like), or it throws [NumberFormatException]. *)
Inductive parseado : Type :=
  | ValorFinito (v : Q)
  | ValorNoFinito
  | NumberFormat.

(** The parser the model of the ingestion takes, read off the library
    call: right wherever the call does not return NaN or an infinity. *)
Definition parteFinita (parseDouble : string -> parseado) (s : string) : option Q :=
  match parseDouble s with
  | ValorFinito v => Some v
  | ValorNoFinito => None
  | NumberFormat => None
  end.

Section Ingestion.

(** The library calls whose behaviour the service takes as given:
    [LocalDate.parse] with the pattern yyyy-MM-dd ([None]: it throws),
    [LocalDate.now()], and [Double.parseDouble] on arbitrary text (with
    exponents, suffixes and the like): [Some v] when it returns the finite
    value [v], [None] when it throws.  On a text such as NaN, Infinity or
    1e999 the call returns a double that is not finite, without throwing;
    such a text has neither outcome here, and this section gives the
    method on the files that hold none ([parteFinita] gives the parser of
    this section from the three outcomes of the call, and a statement that
    needs the numbers finite says so). *)
Variable LocalDate_parse : string -> option LocalDate.
Variable LocalDate_now : LocalDate.
Variable Double_parseDouble_general : string -> option Q.

(** [columnas.forEach(c -> valores.put(c.toLowerCase(), record.get(c)))].
    [columnas] is the header map of the parser (name and index of each
    column); [record.get] throws when the record has no value at the
    index. *)
Definition leerValores (columnas : list (string * nat)) (record : list string)
  : resultado (gmap string string) :=
  foldl (fun acumulado '(columna, i) =>
           ligar acumulado (fun valores =>
             match record !! i with
             | Some valor => Normal (<[toLowerCase columna := valor]> valores)
             | None => Lanza IllegalArgumentException
             end))
        (Normal ∅) columnas.

(** The body of the magnitude [try] block: neither call in it throws. *)
Definition leerMagnitud (valores : gmap string string) : resultado Q :=
  let magnitudStr := obtenerValorSeguro valores "magnitud" in
  Normal (parseMagnitud (Some magnitudStr)).

(** A numeric field read with [Double.parseDouble]: the value and error
    tally after its [try]/[catch]. *)
Definition leerDouble (valores : gmap string string) (campo tipoError : string)
    (errores : gmap string Z) (errorEnRegistro : bool)
  : Q * gmap string Z * bool :=
  match Double_parseDouble_general (obtenerValorSeguro valores campo) with
  | Some v => (v, errores, errorEnRegistro)
  | None => (0%Q, contarError errores tipoError, true)
  end.

(** The field-by-field part of the loop body: the event built from one
    record, the error tally and the record's error flag. *)
Definition construirSismo (valores : gmap string string) (errores : gmap string Z)
  : Sismo.t * gmap string Z * bool :=
  let '(fecha, errores, errorEnRegistro) :=
    match LocalDate_parse (obtenerValorSeguro valores "fecha") with
    | Some f => (f, errores, false)
    | None => (LocalDate_now, contarError errores "fecha_invalida", true)
    end in
  let hora := obtenerValorSeguro valores "hora" in
  let '(magnitud, errores, errorEnRegistro) :=
    match leerMagnitud valores with
    | Normal magnitud => (magnitud, errores, errorEnRegistro)
    | Lanza _ => (0%Q, contarError errores "magnitud_invalida", true)
    end in
  let '(latitud, errores, errorEnRegistro) :=
    leerDouble valores "latitud" "latitud_invalida" errores errorEnRegistro in
  let '(longitud, errores, errorEnRegistro) :=
    leerDouble valores "longitud" "longitud_invalida" errores errorEnRegistro in
  let '(profundidad, errores, errorEnRegistro) :=
    leerDouble valores "profundidad" "profundidad_invalida" errores errorEnRegistro in
  let referencia := obtenerValorSeguro valores "referencia de localizacion" in
  let fechaUTC :=
    match LocalDate_parse (obtenerValorSeguro valores "fecha utc") with
    | Some f => f
    | None => fecha
    end in
  ({| Sismo.getId := None;
      Sismo.getFecha := Some fecha;
      Sismo.getHora := hora;
      Sismo.getMagnitud := Some magnitud;
      Sismo.getLatitud := latitud;
      Sismo.getLongitud := longitud;
      Sismo.getProfundidad := profundidad;
      Sismo.getReferenciaLocalizacion := referencia;
      Sismo.getFechaUTC := Some fechaUTC;
      Sismo.getHoraUTC := obtenerValorSeguro valores "hora utc";
      Sismo.getEstatus := obtenerValorSeguro valores "estatus" |},
   errores, errorEnRegistro).

(** One iteration of [for (CSVRecord record : parser)]. *)
Definition procesarRegistro (columnas : list (string * nat)) (st : Carga)
    (record : list string) : Carga :=
  let procesados := int_add (registrosProcesados st) 1 in
  match leerValores columnas record with
  | Lanza _ =>
      {| totalRegistros := totalRegistros st;
         registrosProcesados := procesados;
         registrosErroneos := int_add (registrosErroneos st) 1;
         erroresPorTipo := contarError (erroresPorTipo st) "error_general";
         sismosBatch := sismosBatch st;
         tabla := tabla st |}
  | Normal valores =>
      let '(sismo, errores, errorEnRegistro) :=
        construirSismo valores (erroresPorTipo st) in
      let erroneos :=
        if errorEnRegistro then int_add (registrosErroneos st) 1
        else registrosErroneos st in
      let lote := sismosBatch st ++ [sismo] in
      if 500 <=? Z.of_nat (length lote) then
        let '(total, tabla') := guardarLote lote (totalRegistros st) (tabla st) in
        {| totalRegistros := total; registrosProcesados := procesados;
           registrosErroneos := erroneos; erroresPorTipo := errores;
           sismosBatch := []; tabla := tabla' |}
      else
        {| totalRegistros := totalRegistros st; registrosProcesados := procesados;
           registrosErroneos := erroneos; erroresPorTipo := errores;
           sismosBatch := lote; tabla := tabla st |}
  end.

(** [cargarSismosDesdeCSV] on the records the CSV parser yields: the
    returned [totalRegistros], and the final values of the locals and of
    the table (what the closing log lines report). *)
Definition cargarSismosDesdeCSV (columnas : list (string * nat))
    (registros : list (list string)) (tabla0 : list Sismo.t) : Z * Carga :=
  let st := foldl (procesarRegistro columnas) (cargaInicial tabla0) registros in
  let st :=
    match sismosBatch st with
    | [] => st
    | _ :: _ =>
        let '(total, tabla') :=
          guardarLote (sismosBatch st) (totalRegistros st) (tabla st) in
        {| totalRegistros := total;
           registrosProcesados := registrosProcesados st;
           registrosErroneos := registrosErroneos st;
           erroresPorTipo := erroresPorTipo st;
           sismosBatch := sismosBatch st; tabla := tabla' |}
    end in
  (totalRegistros st, st).

End Ingestion.

End SismoService.

(** ** The event graph ([GrafoService], [GrafoController]) *)

(** [com.sismo.model.graph.UbicacionNode].  [getSismos] is the set of the
    TIENE_SISMO relationship, by the identifiers of its targets. *)
Module UbicacionNode.
Record t : Type := mk {
  getCodigo : option string;
  getNombre : string;
  getLatitud : option Q;
  getLongitud : option Q;
  getSismos : gset string
}.

Definition setCodigo (codigo : option string) (u : t) : t :=
  {| getCodigo := codigo; getNombre := getNombre u;
     getLatitud := getLatitud u; getLongitud := getLongitud u;
     getSismos := getSismos u |}.
End UbicacionNode.

(** [com.sismo.model.graph.SismoNode].  The two relationship sets hold
    the identifiers ([codigo], the [@Id]) of their target nodes: an edge
    of the graph store is identified by its end points. *)
Module SismoNode.
Record t : Type := mk {
  getCodigo : option string;
  getFecha : option LocalDate;
  getHora : string;
  getMagnitud : option Q;
  getLatitud : option Q;
  getLongitud : option Q;
  getProfundidad : option Q;
  getReferenciaLocalizacion : string;
  getFechaUTC : option LocalDate;
  getHoraUTC : string;
  getEstatus : string;
  getUbicacion : option UbicacionNode.t;
  getSismosCercanos : gset string;
  getSismosSimilares : gset string
}.

Definition setCodigo (codigo : option string) (n : t) : t :=
  {| getCodigo := codigo; getFecha := getFecha n; getHora := getHora n;
     getMagnitud := getMagnitud n; getLatitud := getLatitud n;
     getLongitud := getLongitud n; getProfundidad := getProfundidad n;
     getReferenciaLocalizacion := getReferenciaLocalizacion n;
     getFechaUTC := getFechaUTC n; getHoraUTC := getHoraUTC n;
     getEstatus := getEstatus n; getUbicacion := getUbicacion n;
     getSismosCercanos := getSismosCercanos n;
     getSismosSimilares := getSismosSimilares n |}.

Definition setUbicacion (ubicacion : option UbicacionNode.t) (n : t) : t :=
  {| getCodigo := getCodigo n; getFecha := getFecha n; getHora := getHora n;
     getMagnitud := getMagnitud n; getLatitud := getLatitud n;
     getLongitud := getLongitud n; getProfundidad := getProfundidad n;
     getReferenciaLocalizacion := getReferenciaLocalizacion n;
     getFechaUTC := getFechaUTC n; getHoraUTC := getHoraUTC n;
     getEstatus := getEstatus n; getUbicacion := ubicacion;
     getSismosCercanos := getSismosCercanos n;
     getSismosSimilares := getSismosSimilares n |}.

Definition setSismosCercanos (cercanos : gset string) (n : t) : t :=
  {| getCodigo := getCodigo n; getFecha := getFecha n; getHora := getHora n;
     getMagnitud := getMagnitud n; getLatitud := getLatitud n;
     getLongitud := getLongitud n; getProfundidad := getProfundidad n;
     getReferenciaLocalizacion := getReferenciaLocalizacion n;
     getFechaUTC := getFechaUTC n; getHoraUTC := getHoraUTC n;
     getEstatus := getEstatus n; getUbicacion := getUbicacion n;
     getSismosCercanos := cercanos;
     getSismosSimilares := getSismosSimilares n |}.

Definition setSismosSimilares (similares : gset string) (n : t) : t :=
  {| getCodigo := getCodigo n; getFecha := getFecha n; getHora := getHora n;
     getMagnitud := getMagnitud n; getLatitud := getLatitud n;
     getLongitud := getLongitud n; getProfundidad := getProfundidad n;
     getReferenciaLocalizacion := getReferenciaLocalizacion n;
     getFechaUTC := getFechaUTC n; getHoraUTC := getHoraUTC n;
     getEstatus := getEstatus n; getUbicacion := getUbicacion n;
     getSismosCercanos := getSismosCercanos n;
     getSismosSimilares := similares |}.
End SismoNode.

Module GrafoService.

(** The two graph repositories, in the order their queries return the
    nodes, and how many identifiers [UUID.randomUUID()] has handed out. *)
Record Estado : Type := mkEstado {
  sismoNodeRepository : list SismoNode.t;
  ubicacionNodeRepository : list UbicacionNode.t;
  uuidsGenerados : nat
}.

(** What the service prints on the standard streams. *)
Inductive linea : Type :=
  | IniciandoCarga (total : nat)
  | CargandoSismo (id : option Z)
  | CargaCompletada
  | ErrorAlCargar (e : excepcion).

Definition codigoIgual (a b : option string) : bool :=
  match a, b with
  | Some x, Some y => String.eqb x y
  | None, None => true
  | _, _ => false
  end.

(** [sismoNodeRepository.save]: the node replaces the stored node with
    its identifier, or is added when there is none. *)
Fixpoint guardarSismoNode (nodo : SismoNode.t) (almacen : list SismoNode.t)
  : list SismoNode.t :=
  match almacen with
  | [] => [nodo]
  | s :: resto =>
      if codigoIgual (SismoNode.getCodigo s) (SismoNode.getCodigo nodo)
      then nodo :: resto
      else s :: guardarSismoNode nodo resto
  end.

(** A stream [filter(f).limit(limite)] over a list: the elements are
    tested in order and the test is no longer run once [limite] elements
    have passed; an exception of the test ends the pipeline. *)
Fixpoint filtrarConLimite {A : Type} (f : A -> resultado bool) (limite : nat)
    (l : list A) : resultado (list A) :=
  match l with
  | [] => Normal []
  | x :: resto =>
      match limite with
      | O => Normal []
      | S limite' =>
          match f x with
          | Lanza e => Lanza e
          | Normal true =>
              ligar (filtrarConLimite f limite' resto) (fun r => Normal (x :: r))
          | Normal false => filtrarConLimite f limite resto
          end
      end
  end.

(** The first [n] elements, as the counting [for] loop with its [break]
    takes them. *)
Definition primeros {A : Type} (n : nat) (l : list A) : list A := take n l.

Section Servicio.

(** [UUID.randomUUID()], by the number of identifiers the service has
    drawn before, and the store's [point.distance], in metres, between two
    points given by latitude and longitude. *)
Variable randomUUID : nat -> string.
Variable pointDistance : Q -> Q -> Q -> Q -> Q.

Definition dentroDe (metros : Q) (latitud longitud : Q)
    (latitudNodo longitudNodo : option Q) : bool :=
  match latitudNodo, longitudNodo with
  | Some la, Some lo => Qle_bool (pointDistance la lo latitud longitud) metros
  | _, _ => false
  end.

(** [ubicacionNodeRepository.buscarUbicacionCercana]: the first location
    within 5000 m, with its position in the repository. *)
Fixpoint buscarUbicacionCercana (latitud longitud : Q) (i : nat)
    (ubicaciones : list UbicacionNode.t) : option (nat * UbicacionNode.t) :=
  match ubicaciones with
  | [] => None
  | u :: resto =>
      if dentroDe 5000 latitud longitud
           (UbicacionNode.getLatitud u) (UbicacionNode.getLongitud u)
      then Some (i, u)
      else buscarUbicacionCercana latitud longitud (S i) resto
  end.

(** [sismoNodeRepository.buscarSismosCercanos]: a query with a null
    coordinate matches nothing. *)
Definition buscarSismosCercanos (latitud longitud : option Q) (distanciaKm : Z)
    (almacen : list SismoNode.t) : list SismoNode.t :=
  match latitud, longitud with
  | Some la, Some lo =>
      List.filter (fun s => dentroDe (inject_Z distanciaKm * 1000) la lo
                              (SismoNode.getLatitud s) (SismoNode.getLongitud s))
        almacen
  | _, _ => []
  end.

(** [establecerRelacionesSismosCercanos]: the node with its new edges and
    the state after the saves. *)
Definition establecerRelacionesSismosCercanos (sismoNode : SismoNode.t)
    (st : Estado) : SismoNode.t * Estado :=
  let '(sismoNode, st) :=
    match SismoNode.getCodigo sismoNode with
    | None =>
        let nodo := SismoNode.setCodigo (Some (randomUUID (uuidsGenerados st))) sismoNode in
        (nodo,
         {| sismoNodeRepository := guardarSismoNode nodo (sismoNodeRepository st);
            ubicacionNodeRepository := ubicacionNodeRepository st;
            uuidsGenerados := S (uuidsGenerados st) |})
    | Some _ => (sismoNode, st)
    end in
  let sismosCercanos :=
    buscarSismosCercanos (SismoNode.getLatitud sismoNode)
      (SismoNode.getLongitud sismoNode) 25 (sismoNodeRepository st) in
  let sismosCercanos :=
    List.filter
      (fun s => match SismoNode.getCodigo s with
                | Some _ =>
                    negb (codigoIgual (SismoNode.getCodigo s)
                            (SismoNode.getCodigo sismoNode))
                | None => false
                end)
      sismosCercanos in
  let agregados := omap SismoNode.getCodigo (primeros 5 sismosCercanos) in
  let sismoNode :=
    SismoNode.setSismosCercanos
      (SismoNode.getSismosCercanos sismoNode ∪ list_to_set agregados) sismoNode in
  (sismoNode,
   {| sismoNodeRepository := guardarSismoNode sismoNode (sismoNodeRepository st);
      ubicacionNodeRepository := ubicacionNodeRepository st;
      uuidsGenerados := uuidsGenerados st |}).

(** The test inside [establecerRelacionesMagnitudSimilar]: the last
    conjunct dereferences the identifier of the stored node. *)
Definition esSimilar (sismoNode : SismoNode.t) (magnitudMin magnitudMax : Q)
    (s : SismoNode.t) : resultado bool :=
  match SismoNode.getMagnitud s with
  | None => Normal false
  | Some m =>
      if Qle_bool magnitudMin m && Qle_bool m magnitudMax then
        match SismoNode.getCodigo s with
        | None => Lanza NullPointerException
        | Some c =>
            Normal (negb (codigoIgual (Some c) (SismoNode.getCodigo sismoNode)))
        end
      else Normal false
  end.

(** [establecerRelacionesMagnitudSimilar]. *)
Definition establecerRelacionesMagnitudSimilar (sismoNode : SismoNode.t)
    (st : Estado) : resultado (SismoNode.t * Estado) :=
  match SismoNode.getMagnitud sismoNode with
  | None => Normal (sismoNode, st)
  | Some magnitud =>
      let magnitudMin := (magnitud - (1 # 2))%Q in
      let magnitudMax := (magnitud + (1 # 2))%Q in
      ligar (filtrarConLimite (esSimilar sismoNode magnitudMin magnitudMax) 5
               (sismoNodeRepository st))
        (fun sismosSimilares =>
           let agregados := omap SismoNode.getCodigo sismosSimilares in
           let sismoNode :=
             SismoNode.setSismosSimilares
               (SismoNode.getSismosSimilares sismoNode ∪ list_to_set agregados)
               sismoNode in
           Normal
             (sismoNode,
              {| sismoNodeRepository := guardarSismoNode sismoNode (sismoNodeRepository st);
                 ubicacionNodeRepository := ubicacionNodeRepository st;
                 uuidsGenerados := uuidsGenerados st |}))
  end.

(** [crearNodoSismo]. *)
Definition crearNodoSismo (sismo : Sismo.t) (st : Estado)
  : resultado (SismoNode.t * Estado) :=
  let sismoNode :=
    {| SismoNode.getCodigo := Some (randomUUID (uuidsGenerados st));
       SismoNode.getFecha := Sismo.getFecha sismo;
       SismoNode.getHora := Sismo.getHora sismo;
       SismoNode.getMagnitud := Sismo.getMagnitud sismo;
       SismoNode.getLatitud := Some (Sismo.getLatitud sismo);
       SismoNode.getLongitud := Some (Sismo.getLongitud sismo);
       SismoNode.getProfundidad := Some (Sismo.getProfundidad sismo);
       SismoNode.getReferenciaLocalizacion := Sismo.getReferenciaLocalizacion sismo;
       SismoNode.getFechaUTC := Sismo.getFechaUTC sismo;
       SismoNode.getHoraUTC := Sismo.getHoraUTC sismo;
       SismoNode.getEstatus := Sismo.getEstatus sismo;
       SismoNode.getUbicacion := None;
       SismoNode.getSismosCercanos := ∅;
       SismoNode.getSismosSimilares := ∅ |} in
  let uuids := S (uuidsGenerados st) in
  let '(ubicacion, ubicaciones, uuids) :=
    match buscarUbicacionCercana (Sismo.getLatitud sismo) (Sismo.getLongitud sismo)
            0 (ubicacionNodeRepository st) with
    | Some (i, existente) =>
        match UbicacionNode.getCodigo existente with
        | Some (String _ _) => (existente, ubicacionNodeRepository st, uuids)
        | _ =>
            let u := UbicacionNode.setCodigo (Some (randomUUID uuids)) existente in
            (u, <[i := u]> (ubicacionNodeRepository st), S uuids)
        end
    | None =>
        (* [new UbicacionNode()] draws an identifier in its constructor;
           [setCodigo] replaces it with a second one. *)
        let u :=
          {| UbicacionNode.getCodigo := Some (randomUUID (S uuids));
             UbicacionNode.getNombre := Sismo.getReferenciaLocalizacion sismo;
             UbicacionNode.getLatitud := Some (Sismo.getLatitud sismo);
             UbicacionNode.getLongitud := Some (Sismo.getLongitud sismo);
             UbicacionNode.getSismos := ∅ |} in
        (u, ubicacionNodeRepository st ++ [u], S (S uuids))
    end in
  let sismoNode := SismoNode.setUbicacion (Some ubicacion) sismoNode in
  let st :=
    {| sismoNodeRepository := guardarSismoNode sismoNode (sismoNodeRepository st);
       ubicacionNodeRepository := ubicaciones;
       uuidsGenerados := uuids |} in
  let '(sismoNode, st) := establecerRelacionesSismosCercanos sismoNode st in
  establecerRelacionesMagnitudSimilar sismoNode st.

(** The [for] loop of [cargarSismosAGrafo]: the lines printed and the
    outcome. *)
Fixpoint cargarUnoPorUno (sismos : list Sismo.t) (st : Estado)
  : list linea * resultado Estado :=
  match sismos with
  | [] => ([], Normal st)
  | sismo :: resto =>
      match crearNodoSismo sismo st with
      | Normal (_, st') =>
          let '(salida, r) := cargarUnoPorUno resto st' in
          (CargandoSismo (Sismo.getId sismo) :: salida, r)
      | Lanza e => ([CargandoSismo (Sismo.getId sismo)], Lanza e)
      end
  end.

(** [cargarSismosAGrafo]: the [try] around the loop, and the [catch] that
    prints the error and throws it again. *)
Definition cargarSismosAGrafo (sismos : list Sismo.t) (st : Estado)
  : list linea * resultado Estado :=
  let '(salida, r) := cargarUnoPorUno sismos st in
  match r with
  | Normal st' =>
      (IniciandoCarga (length sismos) :: salida ++ [CargaCompletada], Normal st')
  | Lanza e =>
      (IniciandoCarga (length sismos) :: salida ++ [ErrorAlCargar e], Lanza e)
  end.

(** [obtenerSismosFiltrados]; [Stream.limit] refuses a negative limit. *)
Definition obtenerSismosFiltrados (minMagnitud maxMagnitud : Q) (limit : Z)
    (st : Estado) : resultado (list SismoNode.t) :=
  if limit <? 0 then Lanza IllegalArgumentException
  else
    filtrarConLimite
      (fun s => match SismoNode.getMagnitud s with
                | Some m => Normal (Qle_bool minMagnitud m && Qle_bool m maxMagnitud)
                | None => Normal false
                end)
      (Z.to_nat limit) (sismoNodeRepository st).

(** [obtenerUbicacionesPorIds]: the stored locations whose identifier is
    one of [ids]. *)
Definition obtenerUbicacionesPorIds (ids : list (option string)) (st : Estado)
  : list UbicacionNode.t :=
  List.filter
    (fun u => existsb (codigoIgual (UbicacionNode.getCodigo u)) ids
              && match UbicacionNode.getCodigo u with Some _ => true | None => false end)
    (ubicacionNodeRepository st).

End Servicio.

End GrafoService.

Module GrafoController.
Import GrafoService.

(** The maps the endpoint returns for a node and for an edge. *)
Record Nodo : Type := mkNodo {
  nodo_id : string;
  nodo_label : string;
  nodo_group : string;
  nodo_title : option string
}.

Record Arista : Type := mkArista {
  arista_from : string;
  arista_to : string;
  arista_label : string
}.

Section Visualizacion.

(** How Java renders a magnitude and a date inside a text ("null" for a
    null reference). *)
Variable textoDeMagnitud : option Q -> string.
Variable textoDeFecha : option LocalDate -> string.

Definition textoDeCodigo (codigo : option string) : string :=
  default "null"%string codigo.

Definition nodoDeSismo (s : SismoNode.t) : Nodo :=
  {| nodo_id := ("sismo_" ++ textoDeCodigo (SismoNode.getCodigo s))%string;
     nodo_label := ("Sismo " ++ textoDeMagnitud (SismoNode.getMagnitud s))%string;
     nodo_group := "sismo"%string;
     nodo_title :=
       Some ("Fecha: " ++ textoDeFecha (SismoNode.getFecha s) ++ ", Magnitud: "
             ++ textoDeMagnitud (SismoNode.getMagnitud s))%string |}.

Definition nodoDeUbicacion (u : UbicacionNode.t) : Nodo :=
  {| nodo_id := ("ubicacion_" ++ textoDeCodigo (UbicacionNode.getCodigo u))%string;
     nodo_label := UbicacionNode.getNombre u;
     nodo_group := "ubicacion"%string;
     nodo_title := None |}.

(** The edges one selected event gives: its nearby events, its similar
    events, then its location. *)
Definition aristasDeSismo (s : SismoNode.t) : list Arista :=
  let origen := ("sismo_" ++ textoDeCodigo (SismoNode.getCodigo s))%string in
  ((fun cercano => {| arista_from := origen;
                      arista_to := ("sismo_" ++ cercano)%string;
                      arista_label := "CERCANO_A"%string |})
     <$> elements (SismoNode.getSismosCercanos s))
  ++ ((fun similar => {| arista_from := origen;
                         arista_to := ("sismo_" ++ similar)%string;
                         arista_label := "SIMILAR_MAGNITUD"%string |})
        <$> elements (SismoNode.getSismosSimilares s))
  ++ match SismoNode.getUbicacion s with
     | Some u =>
         [{| arista_from := origen;
             arista_to := ("ubicacion_" ++ textoDeCodigo (UbicacionNode.getCodigo u))%string;
             arista_label := "OCURRIDO_EN"%string |}]
     | None => []
     end.

(** [obtenerDatosParaVisualizacion]: the lists under "nodes" and "edges". *)
Definition obtenerDatosParaVisualizacion (minMagnitud maxMagnitud : Q) (limit : Z)
    (st : Estado) : resultado (list Nodo * list Arista) :=
  ligar (obtenerSismosFiltrados minMagnitud maxMagnitud limit st) (fun sismos =>
    let ubicacionIds :=
      omap (fun s => UbicacionNode.getCodigo <$> SismoNode.getUbicacion s) sismos in
    let ubicaciones := obtenerUbicacionesPorIds ubicacionIds st in
    let nodos := (nodoDeSismo <$> sismos) ++ (nodoDeUbicacion <$> ubicaciones) in
    let aristas := sismos ≫= aristasDeSismo in
    Normal (nodos, aristas)).

End Visualizacion.

End GrafoController.

(** ** Loading the stored events into the graph
    ([GrafoController.cargarDatosExistentesANeo4j]) *)

Module SismoConsultas.

(** [SismoRepository.findByMagnitudGreaterThan], a query derived from its
    name: the rows whose magnitude is above the bound, a row without
    magnitude matching nothing, as the table returns them. *)
Definition findByMagnitudGreaterThan (magnitud : Q) (tabla : list Sismo.t)
  : list Sismo.t :=
  List.filter (fun s => match Sismo.getMagnitud s with
                        | Some m => negb (Qle_bool m magnitud)
                        | None => false
                        end)
    tabla.

(** [SismoService.obtenerPorMagnitud]. *)
Definition obtenerPorMagnitud (magnitud : Q) (tabla : list Sismo.t) : list Sismo.t :=
  findByMagnitudGreaterThan magnitud tabla.

End SismoConsultas.

Module GrafoControllerCarga.
Import GrafoService.

(** The body of the response: the message and the success flag, under the
    status 200 or 500. *)
Inductive mensaje : Type :=
  | DatosCargados
  | ErrorAlCargarDatos (e : excepcion).

Record ResponseEntity : Type := mkResponseEntity {
  getStatusCode : Z;
  getMensaje : mensaje;
  getSuccess : bool
}.

(** What the endpoint prints: the lines of the service, its own line
    after a load, and the stack trace of a caught exception. *)
Inductive traza : Type :=
  | DelServicio (l : linea)
  | CargadosExistentes (n : nat)
  | PrintStackTrace (e : excepcion).

Section Carga.

Variable randomUUID : nat -> string.
Variable pointDistance : Q -> Q -> Q -> Q -> Q.

(** [cargarDatosExistentesANeo4j] on the table of events and the graph
    store: what is printed, the response, and the graph store after a
    load that went through ([None] after a load that threw: what the
    store keeps of it is the transaction manager's business). *)
Definition cargarDatosExistentesANeo4j (tabla : list Sismo.t) (st : Estado)
  : list traza * ResponseEntity * option Estado :=
  let sismos := SismoConsultas.obtenerPorMagnitud 7 tabla in
  let exito :=
    {| getStatusCode := 200; getMensaje := DatosCargados; getSuccess := true |} in
  match sismos with
  | [] => ([], exito, Some st)
  | _ :: _ =>
      match cargarSismosAGrafo randomUUID pointDistance sismos st with
      | (salida, Normal st') =>
          ((DelServicio <$> salida) ++ [CargadosExistentes (length sismos)],
           exito, Some st')
      | (salida, Lanza e) =>
          ((DelServicio <$> salida) ++ [PrintStackTrace e],
           {| getStatusCode := 500; getMensaje := ErrorAlCargarDatos e;
              getSuccess := false |},
           None)
      end
  end.

End Carga.

End GrafoControllerCarga.

(** ** Arrival times ([PropagationService.calculateArrivalTimes]) *)

Module PropagationLlegadas.
Import PropagationService.

Section Llegadas.

(** [calculateDistance], the great-circle distance in km between two
    points; its trigonometry is taken as given. *)
Variable calculateDistance : Q -> Q -> Q -> Q -> Q.

Definition calculateArrivalTimes (earthquakeLat earthquakeLon stationLat stationLon : Q)
  : gmap string Q :=
  let distance := calculateDistance earthquakeLat earthquakeLon stationLat stationLon in
  <["surfaceWave"%string := (distance / SURFACE_WAVE_VELOCITY)%Q]>
    (<["sWave"%string := (distance / S_WAVE_VELOCITY)%Q]>
       (<["pWave"%string := (distance / P_WAVE_VELOCITY)%Q]> ∅)).

End Llegadas.

End PropagationLlegadas.

(** * Properties *)

Module PropagationProps.
Import PropagationService.

Lemma wrap32_id (z : Z) : es_int z -> wrap32 z = z.
Proof.
  unfold es_int, Integer_MIN_VALUE, Integer_MAX_VALUE, wrap32. intros H.
  rewrite Z.mod_small; lia.
Qed.

Lemma wrap32_es_int (z : Z) : es_int (wrap32 z).
Proof.
  unfold es_int, Integer_MIN_VALUE, Integer_MAX_VALUE, wrap32.
  pose proof (Z.mod_pos_bound (z + 2 ^ 31) (2 ^ 32)). lia.
Qed.

(** More fuel never changes the outcome of a loop that has ended. *)
Lemma bucle_mas_combustible (fuel fuel' : nat) (time duration interval : Z)
    (pasos : list WavePropagation) :
  bucle fuel time duration interval = Some pasos ->
  (fuel <= fuel')%nat ->
  bucle fuel' time duration interval = Some pasos.
Proof.
  revert fuel' time pasos.
  induction fuel as [|fuel IH]; intros fuel' time pasos H Hle; [discriminate|].
  destruct fuel' as [|fuel']; [lia|].
  simpl in *. destruct (time <=? duration); [|assumption].
  destruct (bucle fuel (int_add time interval) duration interval) as [resto|] eqn:E;
    [|discriminate].
  rewrite (IH fuel' _ resto E); [assumption|lia].
Qed.

(** Every element the loop appends is [paso] of its own time. *)
Lemma bucle_pasos (fuel : nat) (time duration interval : Z)
    (pasos : list WavePropagation) :
  bucle fuel time duration interval = Some pasos ->
  Forall (fun w => w = paso (getTimeSeconds w) /\ getTimeSeconds w <= duration) pasos.
Proof.
  revert time pasos.
  induction fuel as [|fuel IH]; intros time pasos H; [discriminate|].
  simpl in H. destruct (time <=? duration) eqn:Hle.
  - destruct (bucle fuel (int_add time interval) duration interval) as [resto|] eqn:E;
      [|discriminate].
    injection H as <-. constructor.
    + split; [reflexivity|]. simpl. lia.
    + eapply IH; eassumption.
  - injection H as <-. constructor.
Qed.

(** The loop from the [k]-th multiple of the interval, when [n] more
    multiples fit below the duration and the first multiple beyond it
    still fits in an [int]. *)
Lemma bucle_desde (duration interval : Z) (n k : nat) :
  0 < interval ->
  Z.of_nat (k + n) * interval <= Integer_MAX_VALUE ->
  (n = O -> duration < Z.of_nat k * interval) ->
  (n <> O -> Z.of_nat (k + n - 1) * interval <= duration
             /\ duration < Z.of_nat (k + n) * interval) ->
  bucle (S n) (Z.of_nat k * interval) duration interval
  = Some ((fun j => paso (Z.of_nat j * interval)) <$> seq k n).
Proof.
  intros Hi. revert k.
  induction n as [|n IH]; intros k Hmax H0 Hn.
  - specialize (H0 eq_refl). simpl.
    destruct (Z.leb_spec (Z.of_nat k * interval) duration); [lia|reflexivity].
  - destruct Hn as [Hlo Hhi]; [lia|].
    change (bucle (S (S n)) (Z.of_nat k * interval) duration interval)
      with (if Z.of_nat k * interval <=? duration then
              match bucle (S n) (int_add (Z.of_nat k * interval) interval)
                      duration interval with
              | Some resto => Some (paso (Z.of_nat k * interval) :: resto)
              | None => None
              end
            else Some []).
    assert (Hk : Z.of_nat k * interval <= duration) by nia.
    destruct (Z.leb_spec (Z.of_nat k * interval) duration); [|lia].
    assert (Hs : int_add (Z.of_nat k * interval) interval = Z.of_nat (S k) * interval).
    { unfold int_add. rewrite wrap32_id.
      - lia.
      - unfold es_int, Integer_MIN_VALUE, Integer_MAX_VALUE in *. nia. }
    rewrite Hs, (IH (S k)).
    + reflexivity.
    + replace (S k + n)%nat with (k + S n)%nat by lia. exact Hmax.
    + intros ->. replace (k + 1)%nat with (S k) in Hhi by lia. lia.
    + intros Hne. split.
      * replace (S k + n - 1)%nat with (k + S n - 1)%nat by lia. exact Hlo.
      * replace (S k + n)%nat with (k + S n)%nat by lia. exact Hhi.
Qed.

(** No addition of the loop overflows: the first multiple of the interval
    beyond the duration is an [int]. *)
Definition sinDesborde (duration interval : Z) : Prop :=
  Z.of_nat (cantidadPasos duration interval) * interval <= Integer_MAX_VALUE.

(** In particular when the duration plus the interval is an [int]. *)
Lemma sinDesborde_suma (duration interval : Z) :
  0 < interval ->
  duration + interval <= Integer_MAX_VALUE ->
  sinDesborde duration interval.
Proof.
  intros Hi Hmax. unfold sinDesborde, cantidadPasos.
  destruct (Z.ltb_spec duration 0); [unfold Integer_MAX_VALUE; simpl; lia|].
  pose proof (Z.div_pos duration interval ltac:(lia) Hi).
  pose proof (Z.mul_div_le duration interval Hi).
  replace (Z.of_nat (S (Z.to_nat (duration / interval))))
    with (duration / interval + 1) by lia.
  lia.
Qed.

Lemma bucle_serie (duration interval : Z) :
  0 < interval ->
  sinDesborde duration interval ->
  bucle (S (cantidadPasos duration interval)) 0 duration interval
  = Some (serie interval (cantidadPasos duration interval)).
Proof.
  intros Hi Hmax. unfold serie.
  change 0 with (Z.of_nat 0 * interval).
  apply bucle_desde; try assumption.
  - unfold cantidadPasos. destruct (Z.ltb_spec duration 0); [lia|discriminate].
  - unfold cantidadPasos. destruct (Z.ltb_spec duration 0); [congruence|].
    intros _. simpl Nat.add.
    pose proof (Z.div_pos duration interval ltac:(lia) Hi) as Hq.
    pose proof (Z.mul_div_le duration interval Hi).
    pose proof (Z.mul_succ_div_gt duration interval Hi).
    split.
    + replace (Z.of_nat (S (Z.to_nat (duration / interval)) - 1))
        with (duration / interval) by lia. lia.
    + replace (Z.of_nat (S (Z.to_nat (duration / interval))))
        with (Z.succ (duration / interval)) by lia. lia.
Qed.

(** The listed times are the multiples of the interval, in order. *)
Lemma serie_lookup (interval : Z) (n k : nat) (w : WavePropagation) :
  serie interval n !! k = Some w ->
  w = paso (Z.of_nat k * interval) /\ (k < n)%nat.
Proof.
  unfold serie. rewrite list_lookup_fmap. intros H.
  destruct (seq 0 n !! k) as [j|] eqn:E; [|discriminate].
  apply lookup_seq in E as [-> Hk]. simpl in H. injection H as <-. auto.
Qed.

(** C6 (as amended): for a positive interval, when the first multiple of
    the interval beyond the duration is still an [int], every run with
    enough fuel returns the steps at t = 0, i, 2i, ... not beyond the
    duration, with the three radii 6t, 3.5t and 2.5t; the sequence is
    complete (the next multiple exceeds the duration) and strictly
    ascending in t. *)
Theorem calculatePropagation_serie
    (findById : Z -> option Sismo.t) (request : PropagationRequest) :
  0 < getIntervalSeconds request ->
  sinDesborde (getDurationSeconds request) (getIntervalSeconds request) ->
  (forall fuel,
      (cantidadPasos (getDurationSeconds request) (getIntervalSeconds request) < fuel)%nat ->
      getTimeSteps <$> calculatePropagation fuel findById request
      = Some (serie (getIntervalSeconds request)
                (cantidadPasos (getDurationSeconds request) (getIntervalSeconds request))))
  /\ (forall k w,
        serie (getIntervalSeconds request)
          (cantidadPasos (getDurationSeconds request) (getIntervalSeconds request)) !! k
        = Some w ->
        getTimeSeconds w = Z.of_nat k * getIntervalSeconds request
        /\ getTimeSeconds w <= getDurationSeconds request
        /\ (getPWaveRadiusKm w == (6 # 1) * inject_Z (getTimeSeconds w))%Q
        /\ (getSWaveRadiusKm w == (35 # 10) * inject_Z (getTimeSeconds w))%Q
        /\ (getSurfaceWaveRadiusKm w == (25 # 10) * inject_Z (getTimeSeconds w))%Q)
  /\ getDurationSeconds request
      < Z.of_nat (cantidadPasos (getDurationSeconds request) (getIntervalSeconds request))
        * getIntervalSeconds request
  /\ (forall j k w1 w2,
        serie (getIntervalSeconds request)
          (cantidadPasos (getDurationSeconds request) (getIntervalSeconds request)) !! j
        = Some w1 ->
        serie (getIntervalSeconds request)
          (cantidadPasos (getDurationSeconds request) (getIntervalSeconds request)) !! k
        = Some w2 ->
        (j < k)%nat -> getTimeSeconds w1 < getTimeSeconds w2).
Proof.
  set (d := getDurationSeconds request). set (i := getIntervalSeconds request).
  intros Hi Hmax.
  assert (Hn : cantidadPasos d i <> O ->
               Z.of_nat (cantidadPasos d i - 1) * i <= d).
  { unfold cantidadPasos. destruct (Z.ltb_spec d 0); [congruence|]. intros _.
    pose proof (Z.div_pos d i ltac:(lia) Hi).
    pose proof (Z.mul_div_le d i Hi).
    replace (Z.of_nat (S (Z.to_nat (d / i)) - 1)) with (d / i) by lia. lia. }
  assert (Hsig : d < Z.of_nat (cantidadPasos d i) * i).
  { unfold cantidadPasos. destruct (Z.ltb_spec d 0); [simpl; lia|].
    pose proof (Z.div_pos d i ltac:(lia) Hi).
    pose proof (Z.mul_succ_div_gt d i Hi).
    replace (Z.of_nat (S (Z.to_nat (d / i)))) with (Z.succ (d / i)) by lia. lia. }
  repeat split.
  - intros fuel Hfuel. unfold calculatePropagation. fold d i.
    rewrite (bucle_mas_combustible _ fuel _ _ _ _ (bucle_serie d i Hi Hmax));
      [reflexivity|lia].
  - apply serie_lookup in H as [-> _]. reflexivity.
  - apply serie_lookup in H as [-> Hk]. simpl.
    assert (Z.of_nat k <= Z.of_nat (cantidadPasos d i - 1)) by lia.
    specialize (Hn ltac:(lia)). nia.
  - apply serie_lookup in H as [-> _]. reflexivity.
  - apply serie_lookup in H as [-> _]. unfold Qeq. simpl. lia.
  - apply serie_lookup in H as [-> _]. unfold Qeq. simpl. lia.
  - exact Hsig.
  - intros j k w1 w2 H1 H2 Hjk.
    apply serie_lookup in H1 as [-> _]. apply serie_lookup in H2 as [-> _].
    simpl. nia.
Qed.

Definition solicitud_10_3 : PropagationRequest :=
  {| getSismoId := None; getLatitud := 19 # 1; getLongitud := -99 # 1;
     getMagnitud := Some (7 # 1); getProfundidad := 10 # 1;
     getDurationSeconds := 10; getIntervalSeconds := 3 |}.

Lemma calculatePropagation_serie_witness :
  getTimeSteps <$> calculatePropagation 5 (fun _ => None) solicitud_10_3
  = Some [paso 0; paso 3; paso 6; paso 9].
Proof.
  apply (proj1 (calculatePropagation_serie (fun _ => None) solicitud_10_3
                  ltac:(reflexivity) ltac:(vm_compute; discriminate)) 5%nat).
  vm_compute. lia.
Defined.

Definition solicitud_0_0 : PropagationRequest :=
  {| getSismoId := None; getLatitud := 0; getLongitud := 0;
     getMagnitud := None; getProfundidad := 0;
     getDurationSeconds := 0; getIntervalSeconds := 0 |}.

Lemma bucle_intervalo_cero (fuel : nat) : bucle fuel 0 0 0 = None.
Proof.
  induction fuel as [|fuel IH]; [reflexivity|].
  simpl. change (int_add 0 0) with 0. rewrite IH. reflexivity.
Qed.

(** C6 (as stated) fails: with duration 0 and interval 0 the loop variable
    never moves, and no amount of fuel makes the call return. *)
Lemma calculatePropagation_intervalo_cero_no_retorna :
  ~ exists fuel response,
      calculatePropagation fuel (fun _ => None) solicitud_0_0 = Some response.
Proof.
  intros (fuel & response & H). unfold calculatePropagation in H. simpl in H.
  rewrite bucle_intervalo_cero in H. discriminate.
Qed.

(** Without overflow the loop's result is the series, whatever the fuel it
    was given. *)
Lemma bucle_es_serie (fuel : nat) (duration interval : Z)
    (pasos : list WavePropagation) :
  0 < interval ->
  sinDesborde duration interval ->
  bucle fuel 0 duration interval = Some pasos ->
  pasos = serie interval (cantidadPasos duration interval).
Proof.
  intros Hi Hmax H.
  pose proof (bucle_serie duration interval Hi Hmax) as Hs.
  apply (bucle_mas_combustible _ (fuel + S (cantidadPasos duration interval))) in H;
    [|lia].
  apply (bucle_mas_combustible _ (fuel + S (cantidadPasos duration interval))) in Hs;
    [|lia].
  congruence.
Qed.

(** C7 (as amended): within one returned simulation the P-wave radius
    grows strictly with t; at every step whose t is not negative the P
    radius is at least the S radius, which is at least the surface radius;
    and no step has a negative t when the interval is positive and no
    addition of the loop overflows. *)
Theorem radios_monotonos_y_ordenados
    (fuel : nat) (findById : Z -> option Sismo.t)
    (request : PropagationRequest) (response : PropagationResponse) :
  calculatePropagation fuel findById request = Some response ->
  (forall w1 w2,
      w1 ∈ getTimeSteps response -> w2 ∈ getTimeSteps response ->
      getTimeSeconds w1 < getTimeSeconds w2 ->
      (getPWaveRadiusKm w1 < getPWaveRadiusKm w2)%Q)
  /\ (forall w,
        w ∈ getTimeSteps response -> 0 <= getTimeSeconds w ->
        (getSWaveRadiusKm w <= getPWaveRadiusKm w)%Q
        /\ (getSurfaceWaveRadiusKm w <= getSWaveRadiusKm w)%Q)
  /\ (0 < getIntervalSeconds request ->
      sinDesborde (getDurationSeconds request) (getIntervalSeconds request) ->
      forall w, w ∈ getTimeSteps response -> 0 <= getTimeSeconds w).
Proof.
  unfold calculatePropagation. intros H.
  destruct (bucle fuel 0 (getDurationSeconds request) (getIntervalSeconds request))
    as [pasos|] eqn:E; [|discriminate].
  injection H as <-. simpl.
  pose proof (bucle_pasos _ _ _ _ _ E) as Hp. rewrite Forall_forall in Hp.
  repeat split.
  - intros w1 w2 H1 H2 Hlt.
    destruct (Hp w1 H1) as [-> _]. destruct (Hp w2 H2) as [-> _].
    simpl in *. unfold Qlt. simpl. lia.
  - destruct (Hp w H) as [-> _]. simpl in *. unfold Qle. simpl. lia.
  - destruct (Hp w H) as [-> _]. simpl in *. unfold Qle. simpl. lia.
  - intros Hi Hmax w Hw.
    rewrite (bucle_es_serie _ _ _ _ Hi Hmax E) in Hw.
    apply list_elem_of_lookup in Hw as [k Hk].
    apply serie_lookup in Hk as [-> _]. simpl. nia.
Qed.

Lemma radios_monotonos_y_ordenados_witness :
  (forall w1 w2,
      w1 ∈ [paso 0; paso 3; paso 6; paso 9] -> w2 ∈ [paso 0; paso 3; paso 6; paso 9] ->
      getTimeSeconds w1 < getTimeSeconds w2 ->
      (getPWaveRadiusKm w1 < getPWaveRadiusKm w2)%Q)
  /\ (forall w,
        w ∈ [paso 0; paso 3; paso 6; paso 9] -> 0 <= getTimeSeconds w ->
        (getSWaveRadiusKm w <= getPWaveRadiusKm w)%Q
        /\ (getSurfaceWaveRadiusKm w <= getSWaveRadiusKm w)%Q)
  /\ (0 < 3 -> sinDesborde 10 3 ->
      forall w, w ∈ [paso 0; paso 3; paso 6; paso 9] -> 0 <= getTimeSeconds w).
Proof.
  exact (radios_monotonos_y_ordenados 5 (fun _ => None) solicitud_10_3
           {| getSismo := sismoDeSolicitud solicitud_10_3;
              getTimeSteps := [paso 0; paso 3; paso 6; paso 9] |} eq_refl).
Defined.

(** A request the JSON body can carry: duration 0 and interval -2^30.  The
    loop variable goes 0, -2^30, -2^31 and then wraps to 2^30, which ends
    the loop. *)
Definition solicitud_intervalo_negativo : PropagationRequest :=
  {| getSismoId := None; getLatitud := 0; getLongitud := 0;
     getMagnitud := None; getProfundidad := 0;
     getDurationSeconds := 0; getIntervalSeconds := -1073741824 |}.

(** C7 (as stated) fails: the simulation above returns a step at
    t = -2^30, where the P radius (6t) is below the S radius (3.5t). *)
Lemma radios_desordenados_en_tiempo_negativo :
  exists response w,
    calculatePropagation 4 (fun _ => None) solicitud_intervalo_negativo = Some response
    /\ w ∈ getTimeSteps response
    /\ (getPWaveRadiusKm w < getSWaveRadiusKm w)%Q.
Proof.
  eexists. exists (paso (-1073741824)). split; [vm_compute; reflexivity|].
  split.
  - simpl. apply list_elem_of_In. simpl. right. left. reflexivity.
  - vm_compute. reflexivity.
Qed.

(** Why the positive interval alone is not enough: with duration and
    interval both 5 * 2^28 the second addition wraps, and the simulation
    returns eleven steps, the third of them at t = -6 * 2^28. *)
Example desborde_con_intervalo_positivo :
  exists pasos,
    bucle 12 0 1342177280 1342177280 = Some pasos
    /\ length pasos = 11%nat
    /\ paso (-1610612736) ∈ pasos.
Proof.
  eexists. split; [vm_compute; reflexivity|]. split; [reflexivity|].
  apply list_elem_of_In. simpl. right. right. left. reflexivity.
Qed.

(** C9: the time steps are a function of the duration and the interval
    alone.  Two requests that agree on both get the same outcome of the
    loop (the same steps, or no return for either), whatever their
    coordinates, magnitude, depth and event id, and whatever the store
    answers for the id. *)
Theorem timeSteps_solo_dependen_de_duracion_e_intervalo
    (fuel : nat) (findById1 findById2 : Z -> option Sismo.t)
    (request1 request2 : PropagationRequest) :
  getDurationSeconds request1 = getDurationSeconds request2 ->
  getIntervalSeconds request1 = getIntervalSeconds request2 ->
  getTimeSteps <$> calculatePropagation fuel findById1 request1
  = getTimeSteps <$> calculatePropagation fuel findById2 request2.
Proof.
  intros Hd Hi. unfold calculatePropagation. rewrite Hd, Hi.
  destruct (bucle fuel 0 (getDurationSeconds request2) (getIntervalSeconds request2));
    reflexivity.
Qed.

Definition solicitud_10_3_otra : PropagationRequest :=
  {| getSismoId := Some 42; getLatitud := -33 # 1; getLongitud := 151 # 1;
     getMagnitud := Some (21 # 10); getProfundidad := 600 # 1;
     getDurationSeconds := 10; getIntervalSeconds := 3 |}.

Definition almacen_con_42 (i : Z) : option Sismo.t :=
  if i =? 42 then Some Sismo.nuevo else None.

Lemma timeSteps_solo_dependen_de_duracion_e_intervalo_witness :
  getTimeSteps <$> calculatePropagation 5 (fun _ => None) solicitud_10_3
  = getTimeSteps <$> calculatePropagation 5 almacen_con_42 solicitud_10_3_otra.
Proof.
  exact (timeSteps_solo_dependen_de_duracion_e_intervalo 5 (fun _ => None)
           almacen_con_42 solicitud_10_3 solicitud_10_3_otra eq_refl eq_refl).
Defined.

End PropagationProps.

Module PropagationControllerProps.
Import PropagationService PropagationController.

(** The controller has no path that raises: whatever it returns is a
    response body. *)
Lemma calculatePropagation_nunca_rechaza
    (fuel : nat) (findById : Z -> option Sismo.t)
    (request : PropagationRequest) (e : excepcion) :
  PropagationController.calculatePropagation fuel findById request
  <> Some (Rechazada e).
Proof.
  unfold PropagationController.calculatePropagation.
  destruct (PropagationService.calculatePropagation fuel findById request)
    as [response|]; [|discriminate].
  destruct (getTimeSteps response); [|discriminate].
  destruct (bucle fuel 0 _ _); discriminate.
Qed.

(** C5 (as amended): a negative duration is not rejected.  For every
    interval and every store the entrypoint answers normally, with an
    empty list of time steps: the service loop and the controller's
    default loop both run zero iterations. *)
Theorem duracion_negativa_no_se_rechaza
    (fuel : nat) (findById : Z -> option Sismo.t)
    (request : PropagationRequest) :
  getDurationSeconds request < 0 ->
  exists response,
    PropagationController.calculatePropagation (S fuel) findById request
    = Some (Respondida response)
    /\ getTimeSteps response = [].
Proof.
  intros Hd.
  unfold PropagationController.calculatePropagation,
    PropagationService.calculatePropagation. simpl.
  destruct (Z.leb_spec 0 (getDurationSeconds request)); [lia|].
  simpl. eexists. split; reflexivity.
Qed.

Definition solicitud_duracion_negativa : PropagationRequest :=
  {| getSismoId := None; getLatitud := 19 # 1; getLongitud := -99 # 1;
     getMagnitud := Some (7 # 1); getProfundidad := 10 # 1;
     getDurationSeconds := -1; getIntervalSeconds := 1 |}.

Lemma duracion_negativa_no_se_rechaza_witness :
  exists response,
    PropagationController.calculatePropagation 1 (fun _ => None)
      solicitud_duracion_negativa
    = Some (Respondida response)
    /\ getTimeSteps response = [].
Proof.
  exact (duracion_negativa_no_se_rechaza 0 (fun _ => None)
           solicitud_duracion_negativa eq_refl).
Defined.

(** C5 (as stated) fails: the request with duration -1 gets a normal
    response, not a failure. *)
Lemma duracion_negativa_respondida :
  PropagationController.calculatePropagation 1 (fun _ => None)
    solicitud_duracion_negativa
  = Some (Respondida {| getSismo := sismoDeSolicitud solicitud_duracion_negativa;
                        getTimeSteps := [] |})
  /\ ~ exists e,
        PropagationController.calculatePropagation 1 (fun _ => None)
          solicitud_duracion_negativa
        = Some (Rechazada e).
Proof.
  split; [reflexivity|]. intros [e H]. discriminate.
Qed.

End PropagationControllerProps.

Module SanitizerProps.
Import SismoService.

(** *** The two formulations of "keep only the first dot" agree *)

Lemma indexOf_cota (c : ascii) (s : string) : -1 <= indexOf c s.
Proof.
  induction s as [|c' s IH]; simpl; [lia|].
  destruct (Ascii.eqb c' c); [lia|].
  destruct (Z.eqb_spec (indexOf c s) (-1)); lia.
Qed.

Lemma lastIndexOf_cota (c : ascii) (s : string) : -1 <= lastIndexOf c s.
Proof.
  induction s as [|c' s IH]; simpl; [lia|].
  destruct (Z.eqb_spec (lastIndexOf c s) (-1)); [|lia].
  destruct (Ascii.eqb c' c); lia.
Qed.

Lemma quitarPuntos_conservar (s : string) :
  conservar (fun c => negb (Ascii.eqb c punto)) s = quitarPuntos s.
Proof.
  induction s as [|c s IH]; simpl; [reflexivity|].
  destruct (Ascii.eqb c punto); simpl; congruence.
Qed.

Lemma sin_punto_quitarPuntos (s : string) :
  lastIndexOf punto s = -1 -> quitarPuntos s = s.
Proof.
  induction s as [|c s IH]; simpl; [reflexivity|].
  pose proof (lastIndexOf_cota punto s).
  destruct (Z.eqb_spec (lastIndexOf punto s) (-1)) as [E|E]; [|lia].
  destruct (Ascii.eqb c punto); [discriminate|].
  intros _. rewrite IH by assumption. reflexivity.
Qed.

Lemma sin_punto_conservarPrimerPunto (s : string) :
  indexOf punto s = -1 -> conservarPrimerPunto s = s.
Proof.
  induction s as [|c s IH]; simpl; [reflexivity|].
  pose proof (indexOf_cota punto s).
  destruct (Ascii.eqb c punto); [discriminate|].
  destruct (Z.eqb_spec (indexOf punto s) (-1)) as [E|E]; [|lia].
  intros _. rewrite IH by assumption. reflexivity.
Qed.

Lemma un_punto_conservarPrimerPunto (s : string) :
  indexOf punto s = lastIndexOf punto s -> conservarPrimerPunto s = s.
Proof.
  induction s as [|c s IH]; simpl; [reflexivity|].
  pose proof (indexOf_cota punto s). pose proof (lastIndexOf_cota punto s).
  destruct (Ascii.eqb c punto).
  - destruct (Z.eqb_spec (lastIndexOf punto s) (-1)) as [E|E]; [|lia].
    intros _. rewrite sin_punto_quitarPuntos by assumption. reflexivity.
  - destruct (Z.eqb_spec (indexOf punto s) (-1)) as [E1|E1];
      destruct (Z.eqb_spec (lastIndexOf punto s) (-1)) as [E2|E2];
      intros E; try lia; rewrite IH by lia; reflexivity.
Qed.

Lemma substring_todo (s : string) : String.substring 0 (String.length s) s = s.
Proof. induction s as [|c s IH]; simpl; congruence. Qed.

Lemma primer_punto_partes (s : string) :
  indexOf punto s <> -1 ->
  conservarPrimerPunto s
  = (substringHasta (indexOf punto s + 1) s
     ++ quitarPuntos (substringDesde (indexOf punto s + 1) s))%string.
Proof.
  unfold substringHasta, substringDesde.
  induction s as [|c s IH]; simpl; [congruence|].
  pose proof (indexOf_cota punto s).
  destruct (Ascii.eqb c punto).
  - intros _. simpl. rewrite Nat.sub_0_r, substring_todo.
    destruct s; reflexivity.
  - destruct (Z.eqb_spec (indexOf punto s) (-1)) as [E|E]; [congruence|].
    intros _. rewrite IH by assumption.
    replace (Z.to_nat (indexOf punto s + 1 + 1))
      with (S (Z.to_nat (indexOf punto s + 1))) by lia.
    simpl. reflexivity.
Qed.

Lemma soloPrimerPunto_conservarPrimerPunto (s : string) :
  soloPrimerPunto s = conservarPrimerPunto s.
Proof.
  unfold soloPrimerPunto.
  destruct (Z.eqb_spec (indexOf punto s) (-1)) as [E|E]; simpl.
  - symmetry. apply sin_punto_conservarPrimerPunto. assumption.
  - destruct (Z.eqb_spec (indexOf punto s) (lastIndexOf punto s)) as [E'|E']; simpl.
    + symmetry. apply un_punto_conservarPrimerPunto. assumption.
    + rewrite quitarPuntos_conservar. symmetry. apply primer_punto_partes. assumption.
Qed.

Lemma conservarPrimerPunto_vacio (s : string) :
  isEmpty (conservarPrimerPunto s) = isEmpty s.
Proof. destruct s as [|c s]; simpl; [reflexivity|]. destruct (Ascii.eqb c punto); reflexivity. Qed.

(** *** The division loop ends within its fuel *)

Lemma esDigito_valor (c : ascii) :
  esDigito c = true -> 0 <= Z.of_nat (nat_of_ascii c - 48) <= 9.
Proof.
  unfold esDigito. intros H. apply andb_prop in H as [H1 H2].
  apply Nat.leb_le in H1, H2. lia.
Qed.

Lemma leerDigitos_cota (s : string) :
  forall acc n acc' n' resto,
    leerDigitos s acc n = (acc', n', resto) ->
    0 <= acc ->
    0 <= acc'
    /\ (n <= n')%nat
    /\ acc' + 1 <= 10 ^ Z.of_nat (n' - n) * (acc + 1)
    /\ (n' - n + String.length resto = String.length s)%nat.
Proof.
  induction s as [|c s IH]; intros acc n acc' n' resto H Hacc; simpl in H.
  - injection H as <- <- <-. rewrite Nat.sub_diag. simpl. lia.
  - destruct (esDigito c) eqn:Hd.
    + pose proof (esDigito_valor c Hd) as Hv.
      apply IH in H as (H1 & H2 & H3 & H4); [|lia].
      repeat split; try lia.
      * replace (n' - n)%nat with (S (n' - S n)) by lia.
        rewrite Nat2Z.inj_succ, Z.pow_succ_r by lia.
        assert (0 < 10 ^ Z.of_nat (n' - S n)) by (apply Z.pow_pos_nonneg; lia).
        nia.
      * simpl. lia.
    + injection H as <- <- <-. rewrite Nat.sub_diag. simpl. lia.
Qed.

Lemma parseSinSigno_cota (s : string) (v : Q) :
  parseSinSigno s = Normal v ->
  (0 <= v)%Q /\ (v <= inject_Z (10 ^ Z.of_nat (String.length s)))%Q.
Proof.
  unfold parseSinSigno.
  destruct (leerDigitos s 0 0) as [[entero n1] resto] eqn:E1.
  apply leerDigitos_cota in E1 as (H1 & _ & H3 & H4); [|lia].
  rewrite Nat.sub_0_r in H3, H4.
  assert (Hpow : forall a b : nat, (a <= b)%nat -> 10 ^ Z.of_nat a <= 10 ^ Z.of_nat b)
    by (intros a b Hab; apply Z.pow_le_mono_r; lia).
  destruct resto as [|c fraccion].
  - destruct (n1 =? 0)%nat; [discriminate|]. intros H. injection H as <-.
    specialize (Hpow n1 (String.length s) ltac:(lia)).
    unfold Qle. simpl. split; lia.
  - destruct (Ascii.eqb c punto); [|discriminate].
    destruct (leerDigitos fraccion entero 0) as [[todo n2] resto2] eqn:E2.
    apply leerDigitos_cota in E2 as (G1 & _ & G3 & G4); [|lia].
    rewrite Nat.sub_0_r in G3, G4.
    destruct resto2; [|discriminate].
    destruct (n1 + n2 =? 0)%nat; [discriminate|]. intros H. injection H as <-.
    assert (Hp2 : 0 < 10 ^ Z.of_nat n2) by (apply Z.pow_pos_nonneg; lia).
    assert (Hp1 : 0 < 10 ^ Z.of_nat n1) by (apply Z.pow_pos_nonneg; lia).
    specialize (Hpow n1 (String.length s) ltac:(lia)).
    unfold Qle. simpl. rewrite Z2Pos.id by assumption. split; nia.
Qed.

Lemma Double_parseDouble_cota (s : string) (v : Q) :
  Double_parseDouble s = Normal v ->
  (Qabs v <= inject_Z (10 ^ Z.of_nat (String.length s)))%Q.
Proof.
  destruct s as [|c s]; [discriminate|].
  unfold Double_parseDouble. destruct (Ascii.eqb c menos).
  - destruct (parseSinSigno s) as [w|] eqn:E; [|discriminate].
    simpl. intros H. injection H as <-.
    apply parseSinSigno_cota in E as [E1 E2].
    rewrite Qabs_opp, Qabs_pos by assumption.
    eapply Qle_trans; [eassumption|].
    rewrite <- Zle_Qle. apply Z.pow_le_mono_r; simpl String.length; lia.
  - intros E. apply parseSinSigno_cota in E as [E1 E2].
    rewrite Qabs_pos by assumption. assumption.
Qed.

Lemma dividir_termina (n : nat) :
  forall valor,
    (valor <= inject_Z (10 ^ Z.of_nat (S n)))%Q ->
    exists corregido,
      dividirMientrasExcede (S n) valor = Some corregido
      /\ (corregido <= 10)%Q.
Proof.
  induction n as [|n IH]; intros valor H.
  - simpl. change (inject_Z (10 ^ Z.of_nat 1)) with 10%Q in H.
    destruct (Qle_bool valor 10) eqn:E; simpl.
    + exists valor. split; [reflexivity|]. apply Qle_bool_iff. assumption.
    + exfalso. apply Qle_bool_iff in H. congruence.
  - change (dividirMientrasExcede (S (S n)) valor)
      with (if negb (Qle_bool valor 10)
            then dividirMientrasExcede (S n) (valor / 10)%Q
            else Some valor).
    destruct (Qle_bool valor 10) eqn:E; simpl negb; cbv iota.
    + exists valor. split; [reflexivity|]. apply Qle_bool_iff. assumption.
    + apply IH.
      rewrite (Nat2Z.inj_succ (S n)), Z.pow_succ_r, inject_Z_mult in H by lia.
      change (inject_Z 10) with 10%Q in H.
      apply Qle_shift_div_r; [reflexivity|]. lra.
Qed.

(** With a value that is already at most ten the loop returns at once. *)
Lemma dividir_sin_exceso (fuel : nat) (valor : Q) :
  (valor <= 10)%Q -> dividirMientrasExcede (S fuel) valor = Some valor.
Proof.
  intros H. simpl. apply Qle_bool_iff in H. rewrite H. reflexivity.
Qed.

Lemma Qabs_no_negativo (v : Q) : Qle_bool 0 v = true -> Qabs v = v.
Proof.
  destruct v as [a b]. unfold Qle_bool. simpl. intros H.
  apply Z.leb_le in H. rewrite Z.abs_eq by lia. reflexivity.
Qed.

(** The value [parseMagnitud] returns is never negative, and it is at
    most ten unless the cleaned text parses to a value below -10. *)
Lemma parseMagnitud_rango (s : string) :
  (0 <= parseMagnitud (Some s))%Q
  /\ ((forall v, valorLimpio s = Some v -> (-10 <= v)%Q) ->
      (parseMagnitud (Some s) <= 10)%Q).
Proof.
  unfold parseMagnitud, valorLimpio, textoLimpio.
  destruct (isEmpty (trim s)); [split; intros; discriminate|].
  set (c0 := conservar esNumerico (replace coma punto (trim s))).
  destruct (isEmpty c0 || String.eqb c0 "-" || String.eqb c0 ".") eqn:E0;
    [split; intros; discriminate|].
  apply orb_false_elim in E0 as [E0 _]. apply orb_false_elim in E0 as [E0 _].
  rewrite soloPrimerPunto_conservarPrimerPunto, conservarPrimerPunto_vacio, E0.
  destruct (Double_parseDouble (conservarPrimerPunto c0)) as [v|] eqn:Ep;
    [|split; intros; discriminate].
  pose proof (Double_parseDouble_cota _ _ Ep) as Hc.
  destruct (Qle_bool 0 v) eqn:E1; simpl negb; cbv iota.
  - pose proof E1 as Hpos. apply Qle_bool_iff in Hpos.
    destruct (Qle_bool v 10) eqn:E2; simpl negb; cbv iota.
    + split; [assumption|]. intros _. apply Qle_bool_iff. assumption.
    + destruct (dividir_termina (String.length (conservarPrimerPunto c0)) v)
        as (w & Hw & Hw10).
      { rewrite Qabs_no_negativo in Hc by assumption.
        eapply Qle_trans; [exact Hc|]. rewrite <- Zle_Qle.
        apply Z.pow_le_mono_r; lia. }
      rewrite Hw. split; [|intros _; assumption].
      clear - Hw Hpos. revert v Hw Hpos.
      generalize (S (String.length (conservarPrimerPunto c0))) as fuel.
      induction fuel as [|fuel IH]; intros v Hw Hpos; [discriminate|].
      simpl in Hw. destruct (Qle_bool v 10); simpl in Hw.
      * injection Hw as <-. assumption.
      * apply IH in Hw; [assumption|].
        apply Qle_shift_div_l; [reflexivity|]. lra.
  - split; [apply Qabs_nonneg|]. intros H. specialize (H v eq_refl).
    apply Qabs_Qle_condition. split; [assumption|].
    assert (~ (0 <= v)%Q) by (intros G; apply Qle_bool_iff in G; congruence).
    lra.
Qed.

(** On every text whose cleaned value is not below -10, [parseMagnitud]
    is the procedure the specification words. *)
Lemma parseMagnitud_es_magnitudSegunSpec (s : string) :
  (forall v, valorLimpio s = Some v -> (-10 <= v)%Q) ->
  parseMagnitud (Some s) = magnitudSegunSpec s.
Proof.
  intros Hs. unfold parseMagnitud, magnitudSegunSpec.
  unfold valorLimpio, textoLimpio in *.
  destruct (trim s) as [|t0 ts] eqn:Et; [reflexivity|].
  simpl isEmpty at 1. cbv iota.
  set (c0 := conservar esNumerico (replace coma punto (String t0 ts))) in *.
  rewrite soloPrimerPunto_conservarPrimerPunto.
  rewrite conservarPrimerPunto_vacio in *.
  destruct (isEmpty c0) eqn:E0; [reflexivity|]. simpl orb.
  destruct (String.eqb_spec c0 "-") as [E1|E1]; [rewrite E1; reflexivity|].
  destruct (String.eqb_spec c0 ".") as [E2|E2]; [rewrite E2; reflexivity|].
  simpl orb. cbv iota.
  destruct (Double_parseDouble (conservarPrimerPunto c0)) as [v|]; [|reflexivity].
  specialize (Hs v eq_refl).
  destruct (Qle_bool 0 v) eqn:Ev; simpl negb; cbv iota.
  - rewrite (Qabs_no_negativo v Ev).
    destruct (Qle_bool v 10) eqn:Ed; simpl negb; cbv iota; [|reflexivity].
    rewrite dividir_sin_exceso; [reflexivity|]. apply Qle_bool_iff. assumption.
  - rewrite dividir_sin_exceso; [reflexivity|].
    apply Qabs_Qle_condition. split; [assumption|].
    assert (~ (0 <= v)%Q) by (intros G; apply Qle_bool_iff in G; congruence).
    lra.
Qed.

(** *** The method on doubles *)

Lemma dividir_mas_combustible (fuel : nat) :
  forall (fuel' : nat) (valor corregido : Q),
    dividirMientrasExcede fuel valor = Some corregido ->
    (fuel <= fuel')%nat ->
    dividirMientrasExcede fuel' valor = Some corregido.
Proof.
  induction fuel as [|fuel IH]; intros fuel' valor corregido H Hle; [discriminate|].
  destruct fuel' as [|fuel']; [lia|]. simpl in *.
  destruct (negb (Qle_bool valor 10)); [|assumption].
  apply IH; [assumption|lia].
Qed.

(** On a finite value the loop on doubles is the loop on rationals. *)
Lemma dividirMientrasExcedeDouble_finito (fuel : nat) :
  forall valor : Q,
    dividirMientrasExcedeDouble fuel (Finito valor)
    = Finito <$> dividirMientrasExcede fuel valor.
Proof.
  induction fuel as [|fuel IH]; intros valor; [reflexivity|].
  simpl. destruct (negb (Qle_bool valor 10)); [apply IH|reflexivity].
Qed.

(** On the positive infinity the loop never ends: no fuel is enough. *)
Lemma dividirMientrasExcedeDouble_infinito (fuel : nat) :
  dividirMientrasExcedeDouble fuel (Infinity false) = None.
Proof. induction fuel as [|fuel IH]; [reflexivity|]. simpl. exact IH. Qed.

Lemma Double_redondear_finito (v : Q) :
  (Qabs v < Double_desborde)%Q -> Double_redondear v = Finito v.
Proof.
  intros H. unfold Double_redondear.
  destruct (Qle_bool Double_desborde (Qabs v)) eqn:E; [|reflexivity].
  apply Qle_bool_iff in E. exfalso. apply (Qlt_not_le _ _ H). exact E.
Qed.

(** What the cleaned value of a text says about the path the method
    takes: the method reaches [Double.parseDouble], on the text that the
    specification's wording arrives at, and the call returns the value. *)
Lemma valorLimpio_camino (s : string) (v : Q) :
  valorLimpio s = Some v ->
  isEmpty (trim s) = false
  /\ (let c0 := conservar esNumerico (replace coma punto (trim s)) in
      isEmpty c0 || String.eqb c0 "-" || String.eqb c0 "." = false
      /\ soloPrimerPunto c0 = textoLimpio s)
  /\ Double_parseDouble (textoLimpio s) = Normal v.
Proof.
  unfold valorLimpio. destruct (isEmpty (textoLimpio s)) eqn:E0; [discriminate|].
  destruct (Double_parseDouble (textoLimpio s)) as [w|] eqn:Ep; [|discriminate].
  intros H. injection H as ->. unfold textoLimpio in *.
  rewrite conservarPrimerPunto_vacio in E0.
  repeat split.
  - destruct (trim s); [discriminate|reflexivity].
  - rewrite E0. simpl orb.
    destruct (String.eqb_spec
                (conservar esNumerico (replace coma punto (trim s))) "-") as [E|_];
      [rewrite E in Ep; discriminate|].
    destruct (String.eqb_spec
                (conservar esNumerico (replace coma punto (trim s))) ".") as [E|_];
      [rewrite E in Ep; discriminate|].
    reflexivity.
  - apply soloPrimerPunto_conservarPrimerPunto.
Qed.

(** A text without cleaned value gives 0, whatever the fuel. *)
Lemma parseMagnitudDouble_sin_valor (s : string) (fuel : nat) :
  valorLimpio s = None ->
  parseMagnitudDouble fuel (Some s) = Some (Finito 0)
  /\ parseMagnitud (Some s) = 0%Q.
Proof.
  unfold valorLimpio, textoLimpio, parseMagnitudDouble, parseMagnitud.
  rewrite conservarPrimerPunto_vacio.
  destruct (isEmpty (trim s)); [split; reflexivity|].
  destruct (isEmpty (conservar esNumerico (replace coma punto (trim s)))) eqn:E0;
    [split; reflexivity|].
  simpl orb.
  destruct (String.eqb _ "-" || String.eqb _ "."); [split; reflexivity|].
  rewrite soloPrimerPunto_conservarPrimerPunto.
  destruct (Double_parseDouble _); [discriminate|split; reflexivity].
Qed.

(** Where [Double.parseDouble] gives a finite double, the method on
    doubles returns, with enough fuel, the value of [parseMagnitud]. *)
Lemma parseMagnitudDouble_finito (s : string) (fuel : nat) :
  (forall v, valorLimpio s = Some v -> (Qabs v < Double_desborde)%Q) ->
  (String.length (textoLimpio s) < fuel)%nat ->
  parseMagnitudDouble fuel (Some s) = Some (Finito (parseMagnitud (Some s))).
Proof.
  intros Hfin Hfuel.
  destruct (valorLimpio s) as [v|] eqn:Ev.
  - specialize (Hfin v eq_refl).
    destruct (valorLimpio_camino s v Ev) as (Ht & (Hc & Hsolo) & Hp).
    unfold parseMagnitudDouble, parseMagnitud. rewrite Ht, Hc, Hsolo, Hp.
    rewrite (Double_redondear_finito v Hfin). cbn [menorQueCero mayorQueDiez Math_abs].
    destruct (negb (Qle_bool 0 v)); [reflexivity|].
    destruct (negb (Qle_bool v 10)) eqn:E10; [|reflexivity].
    rewrite dividirMientrasExcedeDouble_finito.
    destruct (dividir_termina (String.length (textoLimpio s)) v) as (w & Hw & _).
    { pose proof (Double_parseDouble_cota _ _ Hp) as Hcota.
      eapply Qle_trans; [apply Qle_Qabs|].
      eapply Qle_trans; [exact Hcota|]. rewrite <- Zle_Qle.
      apply Z.pow_le_mono_r; lia. }
    rewrite Hw.
    rewrite (dividir_mas_combustible _ fuel _ _ Hw) by lia. reflexivity.
  - destruct (parseMagnitudDouble_sin_valor s fuel Ev) as [-> ->]. reflexivity.
Qed.

(** Where it gives the positive infinity the method does not return: the
    loop [while (valor > 10.0) valor /= 10] never ends. *)
Lemma parseMagnitudDouble_no_retorna (s : string) (v : Q) (fuel : nat) :
  valorLimpio s = Some v ->
  (Double_desborde <= v)%Q ->
  parseMagnitudDouble fuel (Some s) = None.
Proof.
  intros Ev Hv. destruct (valorLimpio_camino s v Ev) as (Ht & (Hc & Hsolo) & Hp).
  unfold parseMagnitudDouble. rewrite Ht, Hc, Hsolo, Hp.
  assert (Hpos : (0 <= v)%Q)
    by (eapply Qle_trans; [|exact Hv]; vm_compute; discriminate).
  apply Qle_bool_iff in Hv, Hpos.
  unfold Double_redondear. rewrite (Qabs_no_negativo v Hpos), Hv, Hpos.
  cbn [negb menorQueCero mayorQueDiez].
  apply dividirMientrasExcedeDouble_infinito.
Qed.

(** And where it gives the negative infinity the method returns the
    positive one. *)
Lemma parseMagnitudDouble_infinito (s : string) (v : Q) (fuel : nat) :
  valorLimpio s = Some v ->
  (v <= - Double_desborde)%Q ->
  parseMagnitudDouble fuel (Some s) = Some (Infinity false).
Proof.
  intros Ev Hv. destruct (valorLimpio_camino s v Ev) as (Ht & (Hc & Hsolo) & Hp).
  unfold parseMagnitudDouble. rewrite Ht, Hc, Hsolo, Hp.
  assert (Hneg : (v < 0)%Q)
    by (eapply Qle_lt_trans; [exact Hv|]; vm_compute; reflexivity).
  unfold Double_redondear.
  assert (H1 : Qle_bool Double_desborde (Qabs v) = true).
  { apply Qle_bool_iff. rewrite Qabs_neg by (apply Qlt_le_weak; assumption).
    apply Qopp_le_compat in Hv. rewrite Qopp_involutive in Hv. exact Hv. }
  assert (H2 : Qle_bool 0 v = false).
  { destruct (Qle_bool 0 v) eqn:E; [|reflexivity].
    apply Qle_bool_iff in E. exfalso. apply (Qlt_not_le _ _ Hneg). exact E. }
  rewrite H1, H2. reflexivity.
Qed.

(** Four hundred nines: the call never returns. *)
Example parseMagnitudDouble_cuatrocientos_nueves (fuel : nat) :
  parseMagnitudDouble fuel
    (Some (String.concat EmptyString (repeat "9"%string 400))) = None.
Proof.
  apply (parseMagnitudDouble_no_retorna _ (inject_Z (10 ^ 400 - 1))).
  - vm_compute. reflexivity.
  - vm_compute. discriminate.
Qed.




(** The case the amended statement leaves out: a negative value returns
    from the method before the division loop, so "-75" yields 75 where
    the worded procedure yields 7.5. *)
Example parseMagnitud_negativo_mayor_que_diez :
  (parseMagnitud (Some "-75"%string) == 75)%Q
  /\ (magnitudSegunSpec "-75"%string == 75 # 10)%Q.
Proof. split; vm_compute; reflexivity. Qed.

End SanitizerProps.

Module IngestionProps.
Import SismoService.

(** *** An instance of the library calls, to run the pipeline on examples *)

Definition dosDigitos (a b : ascii) : option Z :=
  if esDigito a && esDigito b
  then Some (10 * Z.of_nat (nat_of_ascii a - 48) + Z.of_nat (nat_of_ascii b - 48))
  else None.

(** Dates written dddd-dd-dd with a month in 1..12 and a day in 1..31. *)
Definition parseFechaISO (s : string) : option LocalDate :=
  match s with
  | String y1 (String y2 (String y3 (String y4 (String g1
      (String m1 (String m2 (String g2 (String d1 (String d2 EmptyString))))))))) =>
      match dosDigitos y1 y2, dosDigitos y3 y4, dosDigitos m1 m2, dosDigitos d1 d2 with
      | Some a, Some b, Some m, Some d =>
          if Ascii.eqb g1 menos && Ascii.eqb g2 menos
             && (1 <=? m) && (m <=? 12) && (1 <=? d) && (d <=? 31)
          then Some {| anio := 100 * a + b; mes := m; dia := d |}
          else None
      | _, _, _, _ => None
      end
  | _ => None
  end.

Definition hoy : LocalDate := {| anio := 2025; mes := 4; dia := 27 |}.

Definition parseDoubleDecimal (s : string) : option Q :=
  match Double_parseDouble s with
  | Normal v => Some v
  | Lanza _ => None
  end.

Definition cargarCSV := cargarSismosDesdeCSV parseFechaISO hoy parseDoubleDecimal.

(** The header of the files the front end uploads. *)
Definition encabezado : list (string * nat) :=
  [("Fecha"%string, 0%nat); ("Hora"%string, 1%nat); ("Magnitud"%string, 2%nat);
   ("Latitud"%string, 3%nat); ("Longitud"%string, 4%nat);
   ("Profundidad"%string, 5%nat);
   ("Referencia de localizacion"%string, 6%nat);
   ("Fecha UTC"%string, 7%nat); ("Hora UTC"%string, 8%nat);
   ("Estatus"%string, 9%nat)].

Definition fila (hora magnitud : string) : list string :=
  ["2024-01-15"; hora; magnitud; "16.5"; "-98.2"; "10";
   "10 km al SUR de PINOTEPA"; "2024-01-15"; "18:00:00"; "revisado"]%string.

(** *** The magnitude error kind *)

Section Tally.

Variable LocalDate_parse : string -> option LocalDate.
Variable LocalDate_now : LocalDate.
Variable Double_parseDouble_general : string -> option Q.

Lemma contarError_otro (errores : gmap string Z) (tipoError k : string) :
  tipoError <> k -> contarError errores tipoError !! k = errores !! k.
Proof. intros H. unfold contarError. apply lookup_insert_ne. assumption. Qed.

Lemma leerDouble_otro (valores : gmap string string) (campo tipoError k : string)
    (errores : gmap string Z) (b : bool) :
  tipoError <> k ->
  (leerDouble Double_parseDouble_general valores campo tipoError errores b).1.2 !! k
  = errores !! k.
Proof.
  intros H. unfold leerDouble.
  destruct (Double_parseDouble_general _); simpl; [reflexivity|].
  apply contarError_otro. assumption.
Qed.

Lemma construirSismo_magnitud_invalida
    (valores : gmap string string) (errores : gmap string Z) :
  (construirSismo LocalDate_parse LocalDate_now Double_parseDouble_general
     valores errores).1.2 !! "magnitud_invalida"%string
  = errores !! "magnitud_invalida"%string.
Proof.
  unfold construirSismo, leerMagnitud.
  destruct (LocalDate_parse (obtenerValorSeguro valores "fecha")) as [f|];
    repeat match goal with
           | |- context [leerDouble ?p ?v ?c ?t ?e ?b] =>
               let H := fresh "H" in
               pose proof (leerDouble_otro v c t "magnitud_invalida"%string e b
                             ltac:(discriminate)) as H;
               destruct (leerDouble p v c t e b) as [[? ?] ?]; simpl in H
           end;
    simpl; rewrite ?contarError_otro in * by discriminate; congruence.
Qed.

Lemma procesarRegistro_magnitud_invalida
    (columnas : list (string * nat)) (st : Carga) (record : list string) :
  erroresPorTipo
    (procesarRegistro LocalDate_parse LocalDate_now Double_parseDouble_general
       columnas st record) !! "magnitud_invalida"%string
  = erroresPorTipo st !! "magnitud_invalida"%string.
Proof.
  unfold procesarRegistro.
  destruct (leerValores columnas record) as [valores|e]; simpl.
  - pose proof (construirSismo_magnitud_invalida valores (erroresPorTipo st)) as H.
    destruct (construirSismo _ _ _ valores (erroresPorTipo st)) as [[sismo errores] b].
    simpl in H.
    destruct (500 <=? Z.of_nat (length (sismosBatch st ++ [sismo]))); simpl.
    + destruct (guardarLote _ _ _). simpl. assumption.
    + assumption.
  - apply contarError_otro. discriminate.
Qed.

(** Whatever the file holds, the run ends with no count for the kind
    [magnitud_invalida]: the [catch] that would count it is never
    entered. *)
Lemma magnitud_invalida_nunca_se_cuenta
    (columnas : list (string * nat)) (registros : list (list string))
    (tabla0 : list Sismo.t) :
  erroresPorTipo
    (cargarSismosDesdeCSV LocalDate_parse LocalDate_now Double_parseDouble_general
       columnas registros tabla0).2 !! "magnitud_invalida"%string
  = None.
Proof.
  unfold cargarSismosDesdeCSV. simpl.
  assert (H : erroresPorTipo
                (foldl (procesarRegistro LocalDate_parse LocalDate_now
                          Double_parseDouble_general columnas)
                   (cargaInicial tabla0) registros) !! "magnitud_invalida"%string
              = None).
  { generalize (cargaInicial tabla0), (eq_refl : erroresPorTipo (cargaInicial tabla0)
                                         !! "magnitud_invalida"%string = None).
    induction registros as [|r registros IH]; intros st Hst; simpl; [assumption|].
    apply IH. rewrite procesarRegistro_magnitud_invalida. assumption. }
  destruct (sismosBatch _); [assumption|].
  destruct (guardarLote _ _ _). simpl. assumption.
Qed.

End Tally.

(** *** The count of saved records *)

Lemma guardarRegistrosPorRegistro_desde (sismos : list Sismo.t) :
  forall (guardados : Z) (tabla : list Sismo.t),
    0 <= guardados ->
    guardados + Z.of_nat (length sismos) <= Integer_MAX_VALUE ->
    foldl (fun '(guardados, tabla) sismo =>
             match save sismo tabla with
             | Normal tabla' => (int_add guardados 1, tabla')
             | Lanza _ => (guardados, tabla)
             end)
          (guardados, tabla) sismos
    = (guardados + Z.of_nat (length (List.filter cumpleEsquema sismos)),
       tabla ++ List.filter cumpleEsquema sismos).
Proof.
  induction sismos as [|s sismos IH]; intros guardados tabla H0 Hmax; simpl.
  - rewrite Z.add_0_r, app_nil_r. reflexivity.
  - simpl length in Hmax. unfold save at 2. destruct (cumpleEsquema s) eqn:E.
    + unfold int_add. rewrite PropagationProps.wrap32_id
        by (unfold es_int, Integer_MIN_VALUE, Integer_MAX_VALUE in *; lia).
      rewrite IH by lia. simpl length. rewrite <- app_assoc. simpl.
      f_equal. lia.
    + rewrite IH by lia. reflexivity.
Qed.

(** The fallback saves exactly the records of the batch that the table
    accepts, and returns how many they are. *)
Lemma guardarRegistrosPorRegistro_cuenta (sismos tabla : list Sismo.t) :
  Z.of_nat (length sismos) <= Integer_MAX_VALUE ->
  guardarRegistrosPorRegistro sismos tabla
  = (Z.of_nat (length (List.filter cumpleEsquema sismos)),
     tabla ++ List.filter cumpleEsquema sismos).
Proof.
  intros H. unfold guardarRegistrosPorRegistro.
  rewrite guardarRegistrosPorRegistro_desde by lia. reflexivity.
Qed.

(** After a failed bulk save the individually saved records are in the
    table and [totalRegistros] is what it was. *)
Lemma guardarLote_respaldo (lote tabla : list Sismo.t) (total : Z) :
  Z.of_nat (length lote) <= Integer_MAX_VALUE ->
  forallb cumpleEsquema lote = false ->
  guardarLote lote total tabla
  = (total, tabla ++ List.filter cumpleEsquema lote).
Proof.
  intros Hlen H. unfold guardarLote, saveAll. rewrite H.
  rewrite guardarRegistrosPorRegistro_cuenta by assumption. reflexivity.
Qed.

Definition horaLarga : string := String.concat EmptyString (repeat "0123456789"%string 30).

(** A file of 500 rows whose first row carries a time-of-day text of 300
    characters, more than the column [hora] holds. *)
Definition csvLoteFallido : list (list string) :=
  fila horaLarga "5.0" :: repeat (fila "12:00:01" "6.1") 499.

(** C3 on the file above: the bulk save of the batch of 500 fails, the
    fallback stores the 499 other rows, and the method still returns 0. *)
Lemma cargarSismosDesdeCSV_no_cuenta_el_respaldo :
  (cargarCSV encabezado csvLoteFallido []).1 = 0
  /\ length (tabla (cargarCSV encabezado csvLoteFallido []).2) = 499%nat
  /\ registrosProcesados (cargarCSV encabezado csvLoteFallido []).2 = 500.
Proof. vm_compute. repeat split; reflexivity. Qed.

(** Two rows whose magnitude column does not hold a number. *)
Definition csvMagnitudIlegible : list (list string) :=
  [fila "12:00:00" "abc";
   fila "12:00:01" ("M:5.2" ++ String (ascii_of_nat 194) (String (ascii_of_nat 176) EmptyString))].

(** C2 on the file above: both rows are stored, the first with the
    default 0 and the second with the 5.2 that cleaning recovers, no row
    counts as erroneous and the tally has no [magnitud_invalida] entry. *)
Lemma cargarSismosDesdeCSV_magnitud_ilegible :
  (cargarCSV encabezado csvMagnitudIlegible []).1 = 2
  /\ Sismo.getMagnitud <$> tabla (cargarCSV encabezado csvMagnitudIlegible []).2
     = [Some 0%Q; Some (52 # 10)]
  /\ registrosErroneos (cargarCSV encabezado csvMagnitudIlegible []).2 = 0
  /\ erroresPorTipo (cargarCSV encabezado csvMagnitudIlegible []).2
     !! "magnitud_invalida"%string = None.
Proof. vm_compute. repeat split; reflexivity. Qed.

End IngestionProps.

Module GrafoProps.
Import GrafoService.
Local Open Scope nat_scope.

(** *** Sets and bounded streams *)

Lemma size_union_cota (X Y : gset string) : size (X ∪ Y) <= size X + size Y.
Proof.
  rewrite size_union_alt.
  assert (size (Y ∖ X) <= size Y); [|lia].
  apply subseteq_size. intros x Hx.
  apply elem_of_difference in Hx as [Hx _]. exact Hx.
Qed.

Lemma size_list_to_set_cota (l : list string) :
  size (list_to_set l : gset string) <= length l.
Proof.
  induction l as [|x l IH].
  - rewrite list_to_set_nil, size_empty. simpl. lia.
  - rewrite list_to_set_cons. simpl.
    pose proof (size_union_cota {[x]} (list_to_set l)) as H.
    rewrite size_singleton in H. lia.
Qed.

Lemma length_omap_cota {A B : Type} (f : A -> option B) (l : list A) :
  length (omap f l) <= length l.
Proof.
  induction l as [|x l IH]; [simpl; lia|].
  cbn. destruct (f x); simpl; lia.
Qed.

Lemma filtrarConLimite_cota {A : Type} (f : A -> resultado bool) (l : list A) :
  forall (limite : nat) (r : list A),
    filtrarConLimite f limite l = Normal r ->
    length r <= limite /\ (forall x, x ∈ r -> x ∈ l /\ f x = Normal true).
Proof.
  induction l as [|x l IH]; intros limite r H; simpl in H.
  - injection H as <-. split; [simpl; lia|]. intros y Hy. inversion Hy.
  - destruct limite as [|limite].
    + injection H as <-. split; [simpl; lia|]. intros y Hy. inversion Hy.
    + destruct (f x) as [[|]|e] eqn:Efx; [| |discriminate].
      * destruct (filtrarConLimite f limite l) as [r'|e] eqn:E; [|discriminate].
        simpl in H. injection H as <-.
        destruct (IH _ _ E) as [Hlen Hin]. split; [simpl; lia|].
        intros y Hy. apply elem_of_cons in Hy as [->|Hy].
        -- split; [left|assumption].
        -- destruct (Hin y Hy). split; [right|]; assumption.
      * destruct (IH _ _ H) as [Hlen Hin]. split; [lia|].
        intros y Hy. destruct (Hin y Hy). split; [right|]; assumption.
Qed.

Lemma length_primeros {A : Type} (n : nat) (l : list A) :
  length (primeros n l) <= n.
Proof. unfold primeros. rewrite length_take. lia. Qed.

Lemma elem_of_primeros {A : Type} (n : nat) (l : list A) (x : A) :
  x ∈ primeros n l -> x ∈ l.
Proof.
  unfold primeros. intros H. apply elem_of_take in H as (i & Hi & _).
  eapply list_elem_of_lookup_2. eassumption.
Qed.

Lemma codigoIgual_Some (a b : string) :
  codigoIgual (Some a) (Some b) = true <-> a = b.
Proof. simpl. apply String.eqb_eq. Qed.

(** *** The repository after a save *)

Lemma guardarSismoNode_contiene (nodo : SismoNode.t) (almacen : list SismoNode.t) :
  nodo ∈ guardarSismoNode nodo almacen.
Proof.
  induction almacen as [|s almacen IH]; simpl; [left|].
  destruct (codigoIgual _ _); [left|right; assumption].
Qed.

Lemma guardarSismoNode_origen (nodo x : SismoNode.t) (almacen : list SismoNode.t) :
  x ∈ guardarSismoNode nodo almacen -> x = nodo \/ x ∈ almacen.
Proof.
  induction almacen as [|s almacen IH]; simpl; intros H.
  - apply list_elem_of_singleton in H. auto.
  - destruct (codigoIgual _ _).
    + apply elem_of_cons in H as [->|H]; [auto|]. right. right. assumption.
    + apply elem_of_cons in H as [->|H]; [right; left|].
      destruct (IH H); [auto|]. right. right. assumption.
Qed.

(** *** Relationship building for one event *)

Section Relaciones.

Variable randomUUID : nat -> string.
Variable pointDistance : Q -> Q -> Q -> Q -> Q.

(** What the specification asks of a built event: at most five edges of
    each kind, no edge to itself, no similar-magnitude edge without a
    magnitude. *)
Definition bienFormado (n : SismoNode.t) : Prop :=
  size (SismoNode.getSismosCercanos n) <= 5
  /\ size (SismoNode.getSismosSimilares n) <= 5
  /\ (forall c, SismoNode.getCodigo n = Some c ->
        (c ∉ SismoNode.getSismosCercanos n) /\ (c ∉ SismoNode.getSismosSimilares n))
  /\ (SismoNode.getMagnitud n = None -> SismoNode.getSismosSimilares n = ∅).

Lemma establecerRelacionesSismosCercanos_efecto
    (sismoNode nodo : SismoNode.t) (st st' : Estado) (codigo : string) :
  SismoNode.getCodigo sismoNode = Some codigo ->
  establecerRelacionesSismosCercanos randomUUID pointDistance sismoNode st
  = (nodo, st') ->
  nodo
  = SismoNode.setSismosCercanos (SismoNode.getSismosCercanos nodo) sismoNode
  /\ size (SismoNode.getSismosCercanos nodo)
     <= size (SismoNode.getSismosCercanos sismoNode) + 5
  /\ (forall c, c ∈ SismoNode.getSismosCercanos nodo ->
        c ∈ SismoNode.getSismosCercanos sismoNode \/ c <> codigo)
  /\ st' = {| sismoNodeRepository := guardarSismoNode nodo (sismoNodeRepository st);
              ubicacionNodeRepository := ubicacionNodeRepository st;
              uuidsGenerados := uuidsGenerados st |}.
Proof.
  unfold establecerRelacionesSismosCercanos. intros Hcod. rewrite Hcod.
  intros H. injection H as <- <-.
  set (candidatos := List.filter _ (buscarSismosCercanos _ _ _ _ _)).
  split; [reflexivity|]. split; [|split; [|reflexivity]].
  - cbn [SismoNode.getSismosCercanos SismoNode.setSismosCercanos].
    etransitivity; [apply size_union_cota|].
    apply Nat.add_le_mono_l.
    etransitivity; [apply size_list_to_set_cota|].
    etransitivity; [apply length_omap_cota|].
    exact (length_primeros 5 candidatos).
  - cbn [SismoNode.getSismosCercanos SismoNode.setSismosCercanos].
    intros c Hin. apply elem_of_union in Hin as [Hin|Hin]; [left; assumption|].
    right. apply elem_of_list_to_set, list_elem_of_omap in Hin as (x & Hx & Hxc).
    apply (elem_of_primeros 5 candidatos), list_elem_of_In in Hx. rename Hx into Hi.
    subst candidatos. apply filter_In in Hi as [_ Hi].
    rewrite Hxc, Hcod in Hi. intros ->.
    simpl in Hi. rewrite String.eqb_refl in Hi. discriminate.
Qed.

Lemma establecerRelacionesMagnitudSimilar_efecto
    (sismoNode nodo : SismoNode.t) (st st' : Estado) (codigo : string) :
  SismoNode.getCodigo sismoNode = Some codigo ->
  establecerRelacionesMagnitudSimilar sismoNode st = Normal (nodo, st') ->
  nodo
  = SismoNode.setSismosSimilares (SismoNode.getSismosSimilares nodo) sismoNode
  /\ size (SismoNode.getSismosSimilares nodo)
     <= size (SismoNode.getSismosSimilares sismoNode) + 5
  /\ (forall c, c ∈ SismoNode.getSismosSimilares nodo ->
        c ∈ SismoNode.getSismosSimilares sismoNode \/ c <> codigo)
  /\ (SismoNode.getMagnitud sismoNode = None ->
      SismoNode.getSismosSimilares nodo = SismoNode.getSismosSimilares sismoNode)
  /\ (forall x, x ∈ sismoNodeRepository st' ->
        x = nodo \/ x ∈ sismoNodeRepository st)
  /\ (sismoNode ∈ sismoNodeRepository st -> nodo ∈ sismoNodeRepository st').
Proof.
  unfold establecerRelacionesMagnitudSimilar. intros Hcod.
  destruct (SismoNode.getMagnitud sismoNode) as [magnitud|] eqn:Hm.
  - destruct (filtrarConLimite _ 5 (sismoNodeRepository st)) as [similares|e] eqn:E;
      [|discriminate].
    apply filtrarConLimite_cota in E as [Hlen Hin].
    cbn [ligar]. intros H. injection H as <- <-.
    cbn [SismoNode.getSismosSimilares SismoNode.setSismosSimilares sismoNodeRepository].
    split; [reflexivity|]. repeat split.
    + etransitivity; [apply size_union_cota|].
      apply Nat.add_le_mono_l.
      etransitivity; [apply size_list_to_set_cota|].
      etransitivity; [apply length_omap_cota|]. assumption.
    + intros c Hc. apply elem_of_union in Hc as [Hc|Hc]; [left; assumption|].
      right. apply elem_of_list_to_set, list_elem_of_omap in Hc as (x & Hx & Hxc).
      destruct (Hin x Hx) as [_ Hf]. unfold esSimilar in Hf.
      destruct (SismoNode.getMagnitud x); [|discriminate].
      destruct (_ && _); [|discriminate].
      rewrite Hxc, Hcod in Hf. injection Hf as Hf. intros ->.
      simpl in Hf. rewrite String.eqb_refl in Hf. discriminate.
    + discriminate.
    + intros x Hx. apply guardarSismoNode_origen in Hx. exact Hx.
    + intros _. apply guardarSismoNode_contiene.
  - intros H. injection H as <- <-. destruct sismoNode. simpl.
    split; [reflexivity|]. repeat split; auto; lia.
Qed.

Lemma filtrarConLimite_normal {A : Type} (f : A -> resultado bool) (l : list A) :
  forall limite : nat,
    (forall x, x ∈ l -> exists b, f x = Normal b) ->
    exists r, filtrarConLimite f limite l = Normal r.
Proof.
  induction l as [|x l IH]; intros limite H; simpl; [eauto|].
  destruct limite as [|limite]; [eauto|].
  destruct (H x ltac:(left)) as [b ->].
  assert (Hl : forall y, y ∈ l -> exists b, f y = Normal b)
    by (intros y Hy; apply H; right; assumption).
  destruct b.
  - destruct (IH limite Hl) as [r ->]. simpl. eauto.
  - apply IH. assumption.
Qed.

(** What [crearNodoSismo] leaves behind for an event: a node that meets
    [bienFormado], under the identifier drawn for it, stored in the
    repository; and a repository of well-formed nodes stays one. *)
Lemma crearNodoSismo_efecto (sismo : Sismo.t) (st st' : Estado) (nodo : SismoNode.t) :
  crearNodoSismo randomUUID pointDistance sismo st = Normal (nodo, st') ->
  bienFormado nodo
  /\ SismoNode.getCodigo nodo = Some (randomUUID (uuidsGenerados st))
  /\ SismoNode.getMagnitud nodo = Sismo.getMagnitud sismo
  /\ nodo ∈ sismoNodeRepository st'
  /\ (Forall bienFormado (sismoNodeRepository st) ->
      Forall bienFormado (sismoNodeRepository st')).
Proof.
  unfold crearNodoSismo.
  set (inicial := SismoNode.mk _ _ _ _ _ _ _ _ _ _ _ None _ _).
  set (partes := match buscarUbicacionCercana _ _ _ _ _ with
                 | Some _ => _ | None => _ end).
  destruct partes as [[ubicacion ubicaciones] uuids].
  set (conUbicacion := SismoNode.setUbicacion (Some ubicacion) inicial).
  set (st1 := mkEstado (guardarSismoNode conUbicacion _) _ _).
  destruct (establecerRelacionesSismosCercanos _ _ conUbicacion st1)
    as [conCercanos st2] eqn:E1.
  intros E2.
  assert (Hcod : SismoNode.getCodigo conUbicacion
                 = Some (randomUUID (uuidsGenerados st))) by reflexivity.
  destruct (establecerRelacionesSismosCercanos_efecto _ _ _ _ _ Hcod E1)
    as (Hn1 & Hsize1 & Hself1 & Hst2).
  assert (Hcod1 : SismoNode.getCodigo conCercanos
                  = Some (randomUUID (uuidsGenerados st)))
    by (rewrite Hn1; reflexivity).
  destruct (establecerRelacionesMagnitudSimilar_efecto _ _ _ _ _ Hcod1 E2)
    as (Hn2 & Hsize2 & Hself2 & Hnull & Hrep & Hesta).
  assert (Hs0 : SismoNode.getSismosSimilares conCercanos = ∅)
    by (rewrite Hn1; reflexivity).
  assert (Hbien1 : bienFormado conCercanos).
  { unfold bienFormado. rewrite Hs0, Hcod1, size_empty. repeat split.
    - etransitivity; [exact Hsize1|].
      change (SismoNode.getSismosCercanos conUbicacion) with (∅ : gset string).
      rewrite size_empty. lia.
    - lia.
    - injection H as <-. intros Hc.
      destruct (Hself1 _ Hc) as [G|G]; [|congruence].
      change (SismoNode.getSismosCercanos conUbicacion) with (∅ : gset string) in G.
      set_solver.
    - set_solver. }
  assert (Hbien2 : bienFormado nodo).
  { destruct Hbien1 as (B1 & B2 & B3 & B4).
    assert (Hc2 : SismoNode.getSismosCercanos nodo
                  = SismoNode.getSismosCercanos conCercanos)
      by (rewrite Hn2; reflexivity).
    assert (Hcod2 : SismoNode.getCodigo nodo
                    = Some (randomUUID (uuidsGenerados st)))
      by (rewrite Hn2; assumption).
    assert (Hm2 : SismoNode.getMagnitud nodo = SismoNode.getMagnitud conCercanos)
      by (rewrite Hn2; reflexivity).
    rewrite Hs0, size_empty in Hsize2.
    unfold bienFormado. rewrite Hc2, Hcod2, Hm2. repeat split.
    - assumption.
    - lia.
    - injection H as <-. apply (B3 _ Hcod1).
    - injection H as <-. intros Hc.
      destruct (Hself2 _ Hc) as [G|G]; [rewrite Hs0 in G; set_solver|congruence].
    - intros Hm. rewrite Hnull, Hs0 by assumption. reflexivity. }
  split; [assumption|]. split; [rewrite Hn2; assumption|].
  split; [rewrite Hn2, Hn1; reflexivity|]. split.
  - apply Hesta. rewrite Hst2. apply guardarSismoNode_contiene.
  - intros Hinv. rewrite Forall_forall in *. intros x Hx.
    destruct (Hrep x Hx) as [->|Hx2]; [assumption|].
    rewrite Hst2 in Hx2. cbn [sismoNodeRepository] in Hx2.
    apply guardarSismoNode_origen in Hx2 as [->|Hx1]; [assumption|].
    subst st1. cbn [sismoNodeRepository] in Hx1.
    apply guardarSismoNode_origen in Hx1 as [->|Hx0]; [|apply Hinv; assumption].
    unfold bienFormado.
    change (SismoNode.getSismosCercanos conUbicacion) with (∅ : gset string).
    change (SismoNode.getSismosSimilares conUbicacion) with (∅ : gset string).
    rewrite size_empty. repeat split; try lia; set_solver.
Qed.

(** The procedure returns normally on every event when each stored node
    has an identifier (the null dereference of the similar-magnitude test
    is its only way to throw). *)
Lemma crearNodoSismo_retorna (sismo : Sismo.t) (st : Estado) :
  Forall (fun s => SismoNode.getCodigo s <> None) (sismoNodeRepository st) ->
  exists nodo st',
    crearNodoSismo randomUUID pointDistance sismo st = Normal (nodo, st').
Proof.
  intros Hcods. unfold crearNodoSismo.
  set (inicial := SismoNode.mk _ _ _ _ _ _ _ _ _ _ _ None _ _).
  set (partes := match buscarUbicacionCercana _ _ _ _ _ with
                 | Some _ => _ | None => _ end).
  destruct partes as [[ubicacion ubicaciones] uuids].
  set (conUbicacion := SismoNode.setUbicacion (Some ubicacion) inicial).
  set (st1 := mkEstado (guardarSismoNode conUbicacion _) _ _).
  destruct (establecerRelacionesSismosCercanos _ _ conUbicacion st1)
    as [conCercanos st2] eqn:E1.
  assert (Hcod : SismoNode.getCodigo conUbicacion
                 = Some (randomUUID (uuidsGenerados st))) by reflexivity.
  destruct (establecerRelacionesSismosCercanos_efecto _ _ _ _ _ Hcod E1)
    as (Hn1 & _ & _ & Hst2).
  unfold establecerRelacionesMagnitudSimilar.
  destruct (SismoNode.getMagnitud conCercanos) as [magnitud|]; [|eauto].
  destruct (filtrarConLimite_normal
              (esSimilar conCercanos (magnitud - (1 # 2))%Q (magnitud + (1 # 2))%Q)
              (sismoNodeRepository st2) 5) as [r Hr].
  - intros x Hx. rewrite Hst2 in Hx. cbn [sismoNodeRepository] in Hx.
    assert (Hxc : SismoNode.getCodigo x <> None).
    { apply guardarSismoNode_origen in Hx as [->|Hx]; [rewrite Hn1; discriminate|].
      subst st1. cbn [sismoNodeRepository] in Hx.
      apply guardarSismoNode_origen in Hx as [->|Hx]; [discriminate|].
      rewrite Forall_forall in Hcods. apply Hcods. assumption. }
    unfold esSimilar. destruct (SismoNode.getMagnitud x); [|eauto].
    destruct (_ && _); [|eauto].
    destruct (SismoNode.getCodigo x); [eauto|congruence].
  - rewrite Hr. cbn [ligar]. eauto.
Qed.

End Relaciones.

(** *** An instance of the environment, to run the service on examples *)

Definition uuidDePrueba (n : nat) : string :=
  String (ascii_of_nat (97 + n)) EmptyString.

(** 111 km per degree along each axis. *)
Definition distanciaDePrueba (la1 lo1 la2 lo2 : Q) : Q :=
  (111000 * (Qabs (la1 - la2) + Qabs (lo1 - lo2)))%Q.

Definition estadoVacio : Estado :=
  {| sismoNodeRepository := []; ubicacionNodeRepository := []; uuidsGenerados := 0 |}.

Definition sismoDePrueba (id : Z) (magnitud : option Q) (latitud : Q) : Sismo.t :=
  {| Sismo.getId := Some id;
     Sismo.getFecha := Some {| anio := 2024; mes := 1; dia := 15 |};
     Sismo.getHora := "12:00:00"%string;
     Sismo.getMagnitud := magnitud;
     Sismo.getLatitud := latitud;
     Sismo.getLongitud := (-982 # 10)%Q;
     Sismo.getProfundidad := 10%Q;
     Sismo.getReferenciaLocalizacion := "PINOTEPA"%string;
     Sismo.getFechaUTC := Some {| anio := 2024; mes := 1; dia := 15 |};
     Sismo.getHoraUTC := "18:00:00"%string;
     Sismo.getEstatus := "revisado"%string |}.

Definition estadoTras (sismos : list Sismo.t) (st : Estado) : Estado :=
  match (cargarUnoPorUno uuidDePrueba distanciaDePrueba sismos st).2 with
  | Normal st' => st'
  | Lanza _ => st
  end.

(** Seven events of magnitude 7.1 to 7.7 around the same place. *)
Definition sieteSismos : list Sismo.t :=
  (fun k => sismoDePrueba (Z.of_nat k) (Some (7 + inject_Z (Z.of_nat k) / 10)%Q)
              (165 # 10)%Q) <$> seq 1 7.

(** C8: after [crearNodoSismo] returns, the event's node has at most five
    nearby edges and at most five similar-magnitude edges, none of them to
    the node itself, and no similar-magnitude edge at all when the event
    has no magnitude; the node is stored with these edges. *)
Theorem crearNodoSismo_relaciones_acotadas
    (randomUUID : nat -> string) (pointDistance : Q -> Q -> Q -> Q -> Q)
    (sismo : Sismo.t) (st st' : Estado) (nodo : SismoNode.t) :
  crearNodoSismo randomUUID pointDistance sismo st = Normal (nodo, st') ->
  size (SismoNode.getSismosCercanos nodo) <= 5
  /\ size (SismoNode.getSismosSimilares nodo) <= 5
  /\ (forall c, SismoNode.getCodigo nodo = Some c ->
        (c ∉ SismoNode.getSismosCercanos nodo)
        /\ (c ∉ SismoNode.getSismosSimilares nodo))
  /\ (Sismo.getMagnitud sismo = None -> SismoNode.getSismosSimilares nodo = ∅)
  /\ nodo ∈ sismoNodeRepository st'.
Proof.
  intros H.
  destruct (crearNodoSismo_efecto _ _ _ _ _ _ H)
    as ((B1 & B2 & B3 & B4) & _ & Hm & Hin & _).
  rewrite Hm in B4. auto.
Qed.

Lemma crearNodoSismo_relaciones_acotadas_witness :
  match crearNodoSismo uuidDePrueba distanciaDePrueba
          (sismoDePrueba 8 (Some (74 # 10)%Q) (165 # 10)%Q)
          (estadoTras sieteSismos estadoVacio) with
  | Normal (nodo, st') =>
      size (SismoNode.getSismosCercanos nodo) = 5
      /\ size (SismoNode.getSismosSimilares nodo) = 5
      /\ size (SismoNode.getSismosCercanos nodo) <= 5
      /\ size (SismoNode.getSismosSimilares nodo) <= 5
      /\ (forall c, SismoNode.getCodigo nodo = Some c ->
            (c ∉ SismoNode.getSismosCercanos nodo)
            /\ (c ∉ SismoNode.getSismosSimilares nodo))
      /\ (Sismo.getMagnitud (sismoDePrueba 8 (Some (74 # 10)%Q) (165 # 10)%Q) = None ->
          SismoNode.getSismosSimilares nodo = ∅)
      /\ nodo ∈ sismoNodeRepository st'
  | Lanza _ => False
  end.
Proof.
  destruct (crearNodoSismo uuidDePrueba distanciaDePrueba
              (sismoDePrueba 8 (Some (74 # 10)%Q) (165 # 10)%Q)
              (estadoTras sieteSismos estadoVacio)) as [[nodo st']|e] eqn:E.
  - split; [|split].
    + apply (f_equal (fun r => match r with
                               | Normal (n, _) => size (SismoNode.getSismosCercanos n)
                               | Lanza _ => 0
                               end)) in E.
      vm_compute in E. symmetry. exact E.
    + apply (f_equal (fun r => match r with
                               | Normal (n, _) => size (SismoNode.getSismosSimilares n)
                               | Lanza _ => 0
                               end)) in E.
      vm_compute in E. symmetry. exact E.
    + exact (crearNodoSismo_relaciones_acotadas _ _ _ _ _ _ E).
  - vm_compute in E. discriminate.
Defined.

(** *** The bulk entrypoint *)

Section Carga.

Variable randomUUID : nat -> string.
Variable pointDistance : Q -> Q -> Q -> Q -> Q.

(** [encadena sismos st st']: the per-event procedure returns normally on
    each event of [sismos], in order, and takes the state from [st] to
    [st']. *)
Inductive encadena : list Sismo.t -> Estado -> Estado -> Prop :=
  | encadena_nil (st : Estado) : encadena [] st st
  | encadena_cons (sismo : Sismo.t) (resto : list Sismo.t)
      (st st1 st' : Estado) (nodo : SismoNode.t) :
      crearNodoSismo randomUUID pointDistance sismo st = Normal (nodo, st1) ->
      encadena resto st1 st' ->
      encadena (sismo :: resto) st st'.

Definition lineasDe (sismos : list Sismo.t) : list linea :=
  (fun s => CargandoSismo (Sismo.getId s)) <$> sismos.

Lemma cargarUnoPorUno_normal (sismos : list Sismo.t) :
  forall (st st' : Estado) (salida : list linea),
    cargarUnoPorUno randomUUID pointDistance sismos st = (salida, Normal st') ->
    salida = lineasDe sismos /\ encadena sismos st st'.
Proof.
  induction sismos as [|sismo resto IH]; intros st st' salida H; simpl in H.
  - injection H as <- <-. split; [reflexivity|constructor].
  - destruct (crearNodoSismo randomUUID pointDistance sismo st) as [[nodo st1]|e] eqn:E;
      [|discriminate].
    destruct (cargarUnoPorUno randomUUID pointDistance resto st1) as [salida' r] eqn:E'.
    injection H as <- ->. destruct (IH _ _ _ E') as [-> Hen].
    split; [reflexivity|]. econstructor; eassumption.
Qed.

Lemma cargarUnoPorUno_fallo (antes : list Sismo.t) :
  forall (sismo : Sismo.t) (despues : list Sismo.t) (st st_k : Estado) (e : excepcion),
    encadena antes st st_k ->
    crearNodoSismo randomUUID pointDistance sismo st_k = Lanza e ->
    cargarUnoPorUno randomUUID pointDistance (antes ++ sismo :: despues) st
    = (lineasDe (antes ++ [sismo]), Lanza e).
Proof.
  induction antes as [|a antes IH]; intros sismo despues st st_k e Hen Hf.
  - inversion Hen; subst. simpl. rewrite Hf. reflexivity.
  - inversion Hen as [|? ? ? st1 ? nodo Hc Hresto]; subst.
    simpl. rewrite Hc. rewrite (IH _ _ _ _ _ Hresto Hf). reflexivity.
Qed.

(** C4 (as amended): the events are processed in list order.  When the
    per-event procedure throws on an event, the loop ends there: the
    events after it are not processed, the error line is printed and the
    same exception reaches the caller.  When the call returns normally,
    every event of the list has been processed, in order. *)
Theorem cargarSismosAGrafo_hasta_el_primer_fallo :
  (forall (antes : list Sismo.t) (sismo : Sismo.t) (despues : list Sismo.t)
          (st st_k : Estado) (e : excepcion),
      encadena antes st st_k ->
      crearNodoSismo randomUUID pointDistance sismo st_k = Lanza e ->
      cargarSismosAGrafo randomUUID pointDistance (antes ++ sismo :: despues) st
      = (IniciandoCarga (length (antes ++ sismo :: despues))
           :: lineasDe (antes ++ [sismo]) ++ [ErrorAlCargar e],
         Lanza e))
  /\ (forall (sismos : list Sismo.t) (st st' : Estado) (salida : list linea),
        cargarSismosAGrafo randomUUID pointDistance sismos st = (salida, Normal st') ->
        salida = IniciandoCarga (length sismos) :: lineasDe sismos ++ [CargaCompletada]
        /\ encadena sismos st st').
Proof.
  split.
  - intros antes sismo despues st st_k e Hen Hf. unfold cargarSismosAGrafo.
    rewrite (cargarUnoPorUno_fallo _ _ _ _ _ _ Hen Hf). reflexivity.
  - intros sismos st st' salida H. unfold cargarSismosAGrafo in H.
    destruct (cargarUnoPorUno randomUUID pointDistance sismos st) as [salida' r] eqn:E.
    destruct r as [st''|e]; [|discriminate].
    injection H as <- <-.
    destruct (cargarUnoPorUno_normal _ _ _ _ E) as [-> Hen].
    split; [reflexivity|assumption].
Qed.

(** Built events keep the fan-out invariant across a whole bulk load. *)
Lemma encadena_bienFormado (sismos : list Sismo.t) (st st' : Estado) :
  encadena sismos st st' ->
  Forall bienFormado (sismoNodeRepository st) ->
  Forall bienFormado (sismoNodeRepository st').
Proof.
  induction 1 as [|sismo resto st st1 st' nodo Hc _ IH]; intros Hinv; [assumption|].
  apply IH. eapply crearNodoSismo_efecto; eassumption.
Qed.

End Carga.

(** A store that holds a node without identifier, of magnitude 7.2, far
    from the events loaded below. *)
Definition estadoConNodoSinCodigo : Estado :=
  {| sismoNodeRepository :=
       [{| SismoNode.getCodigo := None;
           SismoNode.getFecha := None;
           SismoNode.getHora := EmptyString;
           SismoNode.getMagnitud := Some (72 # 10)%Q;
           SismoNode.getLatitud := Some 0%Q;
           SismoNode.getLongitud := Some 0%Q;
           SismoNode.getProfundidad := None;
           SismoNode.getReferenciaLocalizacion := EmptyString;
           SismoNode.getFechaUTC := None;
           SismoNode.getHoraUTC := EmptyString;
           SismoNode.getEstatus := EmptyString;
           SismoNode.getUbicacion := None;
           SismoNode.getSismosCercanos := ∅;
           SismoNode.getSismosSimilares := ∅ |}];
     ubicacionNodeRepository := [];
     uuidsGenerados := 0 |}.

Definition sismoQueFalla : Sismo.t := sismoDePrueba 1 (Some 7%Q) (165 # 10)%Q.
Definition sismoPosterior : Sismo.t := sismoDePrueba 2 (Some 9%Q) (165 # 10)%Q.

Definition sismoPrevio : Sismo.t := sismoDePrueba 0 (Some 9%Q) (165 # 10)%Q.

Lemma cargarSismosAGrafo_hasta_el_primer_fallo_witness :
  cargarSismosAGrafo uuidDePrueba distanciaDePrueba
    ([sismoPrevio] ++ sismoQueFalla :: [sismoPosterior]) estadoConNodoSinCodigo
  = (IniciandoCarga 3 :: lineasDe ([sismoPrevio] ++ [sismoQueFalla])
       ++ [ErrorAlCargar NullPointerException],
     Lanza NullPointerException).
Proof.
  apply (proj1 (cargarSismosAGrafo_hasta_el_primer_fallo uuidDePrueba distanciaDePrueba)
           [sismoPrevio] sismoQueFalla [sismoPosterior] estadoConNodoSinCodigo
           (estadoTras [sismoPrevio] estadoConNodoSinCodigo) NullPointerException).
  - econstructor; [|constructor]. vm_compute. reflexivity.
  - vm_compute. reflexivity.
Defined.

(** C4 (as stated) fails: the first event of the list below throws, the
    second one (which the procedure handles without failure when it is
    loaded on its own) is never reached, and the call ends with the
    exception. *)
Lemma cargarSismosAGrafo_no_continua :
  cargarSismosAGrafo uuidDePrueba distanciaDePrueba
    [sismoQueFalla; sismoPosterior] estadoConNodoSinCodigo
  = ([IniciandoCarga 2; CargandoSismo (Some 1%Z); ErrorAlCargar NullPointerException],
     Lanza NullPointerException)
  /\ (exists nodo st',
        crearNodoSismo uuidDePrueba distanciaDePrueba sismoPosterior
          estadoConNodoSinCodigo
        = Normal (nodo, st')).
Proof.
  split; [vm_compute; reflexivity|].
  eexists. eexists. vm_compute. reflexivity.
Qed.

End GrafoProps.

Module GrafoControllerProps.
Import GrafoService GrafoController GrafoProps.

(** What [obtenerSismosFiltrados] selects: stored events whose magnitude
    is present and lies in the range, no more than [limit] of them. *)
Lemma obtenerSismosFiltrados_seleccion
    (minMagnitud maxMagnitud : Q) (limit : Z) (st : Estado)
    (sismos : list SismoNode.t) :
  obtenerSismosFiltrados minMagnitud maxMagnitud limit st = Normal sismos ->
  (Z.of_nat (length sismos) <= limit)%Z
  /\ (forall s, s ∈ sismos ->
        s ∈ sismoNodeRepository st
        /\ exists m, SismoNode.getMagnitud s = Some m
                     /\ (minMagnitud <= m)%Q /\ (m <= maxMagnitud)%Q).
Proof.
  unfold obtenerSismosFiltrados.
  destruct (Z.ltb_spec limit 0) as [Hneg|Hpos]; [discriminate|].
  intros H. apply filtrarConLimite_cota in H as [Hlen Hin].
  split; [lia|]. intros s Hs. destruct (Hin s Hs) as [Hrep Hf].
  split; [assumption|].
  destruct (SismoNode.getMagnitud s) as [m|]; [|discriminate].
  exists m. injection Hf as Hf. apply andb_prop in Hf as [H1 H2].
  split; [reflexivity|]. split; apply Qle_bool_iff; assumption.
Qed.

Section Exportacion.

Variable textoDeMagnitud : option Q -> string.
Variable textoDeFecha : option LocalDate -> string.

(** C10 (as amended): whatever the range and the limit, the events that
    the export selects have a magnitude; every node of group "sismo" is
    the node of a selected event and every edge starts at a selected
    event.  So an event without magnitude gives no node and is the source
    of no edge. *)
Theorem visualizacion_sin_magnitud_nula
    (minMagnitud maxMagnitud : Q) (limit : Z) (st : Estado)
    (nodos : list Nodo) (aristas : list Arista) :
  obtenerDatosParaVisualizacion textoDeMagnitud textoDeFecha
    minMagnitud maxMagnitud limit st = Normal (nodos, aristas) ->
  exists sismos,
    obtenerSismosFiltrados minMagnitud maxMagnitud limit st = Normal sismos
    /\ (forall s, s ∈ sismos ->
          s ∈ sismoNodeRepository st /\ SismoNode.getMagnitud s <> None)
    /\ (forall n, n ∈ nodos -> nodo_group n = "sismo"%string ->
          exists s, s ∈ sismos /\ n = nodoDeSismo textoDeMagnitud textoDeFecha s)
    /\ (forall a, a ∈ aristas ->
          exists s, s ∈ sismos /\ a ∈ aristasDeSismo s
                    /\ arista_from a
                       = ("sismo_" ++ textoDeCodigo (SismoNode.getCodigo s))%string).
Proof.
  unfold obtenerDatosParaVisualizacion.
  destruct (obtenerSismosFiltrados minMagnitud maxMagnitud limit st)
    as [sismos|e] eqn:E; [|discriminate].
  cbn [ligar]. intros H. injection H as <- <-.
  exists sismos. split; [reflexivity|].
  apply obtenerSismosFiltrados_seleccion in E as [_ Hsel].
  split; [|split].
  - intros s Hs. destruct (Hsel s Hs) as (Hrep & m & Hm & _).
    split; [assumption|congruence].
  - intros n Hn Hg. apply elem_of_app in Hn as [Hn|Hn].
    + apply list_elem_of_fmap in Hn as (s & -> & Hs). eauto.
    + apply list_elem_of_fmap in Hn as (u & -> & _). discriminate.
  - intros a Ha. apply list_elem_of_bind in Ha as (s & Ha & Hs).
    exists s. split; [assumption|]. split; [assumption|].
    unfold aristasDeSismo in Ha.
    repeat (apply elem_of_app in Ha as [Ha|Ha]).
    + apply list_elem_of_fmap in Ha as (c & -> & _). reflexivity.
    + apply list_elem_of_fmap in Ha as (c & -> & _). reflexivity.
    + destruct (SismoNode.getUbicacion s); [|inversion Ha].
      apply list_elem_of_singleton in Ha as ->. reflexivity.
Qed.

(** The export returns for every limit that is not negative. *)
Lemma obtenerDatosParaVisualizacion_retorna
    (minMagnitud maxMagnitud : Q) (limit : Z) (st : Estado) :
  (0 <= limit)%Z ->
  exists nodos aristas,
    obtenerDatosParaVisualizacion textoDeMagnitud textoDeFecha
      minMagnitud maxMagnitud limit st = Normal (nodos, aristas).
Proof.
  intros Hl. unfold obtenerDatosParaVisualizacion, obtenerSismosFiltrados.
  destruct (Z.ltb_spec limit 0) as [Hneg|_]; [lia|].
  destruct (filtrarConLimite_normal
              (fun s => match SismoNode.getMagnitud s with
                        | Some m => Normal (Qle_bool minMagnitud m && Qle_bool m maxMagnitud)
                        | None => Normal false
                        end)
              (sismoNodeRepository st) (Z.to_nat limit)) as [r Hr].
  - intros x _. destruct (SismoNode.getMagnitud x); eauto.
  - rewrite Hr. cbn [ligar]. eauto.
Qed.

End Exportacion.

(** An event without magnitude, then an event of magnitude 5 at the same
    place: building the second one relates it to the first. *)
Definition sismoSinMagnitud : Sismo.t := sismoDePrueba 1 None (165 # 10)%Q.
Definition sismoDeCinco : Sismo.t := sismoDePrueba 2 (Some 5%Q) (165 # 10)%Q.

Definition estadoConSinMagnitud : Estado :=
  estadoTras [sismoSinMagnitud; sismoDeCinco] estadoVacio.

Definition textoFijo {A : Type} (_ : A) : string := "?"%string.

Lemma visualizacion_sin_magnitud_nula_witness :
  match obtenerDatosParaVisualizacion textoFijo textoFijo 0 10 100
          estadoConSinMagnitud with
  | Normal (nodos, aristas) =>
      exists sismos,
        obtenerSismosFiltrados 0 10 100 estadoConSinMagnitud = Normal sismos
        /\ (forall s, s ∈ sismos ->
              s ∈ sismoNodeRepository estadoConSinMagnitud
              /\ SismoNode.getMagnitud s <> None)
        /\ (forall n, n ∈ nodos -> nodo_group n = "sismo"%string ->
              exists s, s ∈ sismos /\ n = nodoDeSismo textoFijo textoFijo s)
        /\ (forall a, a ∈ aristas ->
              exists s, s ∈ sismos /\ a ∈ aristasDeSismo s
                        /\ arista_from a
                           = ("sismo_" ++ textoDeCodigo (SismoNode.getCodigo s))%string)
  | Lanza _ => False
  end.
Proof.
  destruct (obtenerDatosParaVisualizacion textoFijo textoFijo 0 10 100
              estadoConSinMagnitud) as [[nodos aristas]|e] eqn:E.
  - exact (visualizacion_sin_magnitud_nula textoFijo textoFijo _ _ _ _ _ _ E).
  - vm_compute in E. discriminate.
Defined.

(** C10 (as stated) fails: in the export of the store above the event
    without magnitude (identifier "a") is named by an edge, as the target
    of the nearby relationship of the selected event "d". *)
Lemma visualizacion_nombra_sismo_sin_magnitud :
  exists nodos aristas x,
    obtenerDatosParaVisualizacion textoFijo textoFijo 0 10 100 estadoConSinMagnitud
    = Normal (nodos, aristas)
    /\ x ∈ sismoNodeRepository estadoConSinMagnitud
    /\ SismoNode.getMagnitud x = None
    /\ SismoNode.getCodigo x = Some "a"%string
    /\ {| arista_from := "sismo_d"; arista_to := "sismo_a";
          arista_label := "CERCANO_A" |} ∈ aristas.
Proof.
  eexists. eexists. eexists. split; [vm_compute; reflexivity|].
  split; [vm_compute; left|]. split; [reflexivity|]. split; [reflexivity|].
  left.
Qed.

End GrafoControllerProps.

(** * Further properties of the sanitizer *)

Module SanitizerMas.
Import SismoService SanitizerProps.

(** [contiene c s]: the character occurs in the text. *)
Fixpoint contiene (c : ascii) (s : string) : bool :=
  match s with
  | EmptyString => false
  | String c' resto => Ascii.eqb c' c || contiene c resto
  end.

Lemma indexOf_contiene (c : ascii) (s : string) :
  indexOf c s = -1 <-> contiene c s = false.
Proof.
  induction s as [|c' s IH]; simpl; [tauto|].
  pose proof (indexOf_cota c s).
  destruct (Ascii.eqb c' c); simpl; [split; [lia|discriminate]|].
  destruct (Z.eqb_spec (indexOf c s) (-1)); split; intros; try tauto; try lia.
Qed.

Lemma contiene_conservar (c : ascii) (f : ascii -> bool) (s : string) :
  contiene c s = false -> contiene c (conservar f s) = false.
Proof.
  induction s as [|c' s IH]; simpl; [reflexivity|].
  intros H. apply orb_false_elim in H as [H1 H2].
  destruct (f c'); simpl; [rewrite H1|]; auto.
Qed.

Lemma contiene_trimIzquierda (c : ascii) (s : string) :
  contiene c s = false -> contiene c (trimIzquierda s) = false.
Proof.
  induction s as [|c' s IH]; simpl; [reflexivity|].
  intros H. pose proof H as H'. apply orb_false_elim in H as [H1 H2].
  destruct (esBlanco c'); [auto|exact H'].
Qed.

Lemma contiene_trimDerecha (c : ascii) (s : string) :
  contiene c s = false -> contiene c (trimDerecha s) = false.
Proof.
  induction s as [|c' s IH]; simpl; [reflexivity|].
  intros H. apply orb_false_elim in H as [H1 H2]. specialize (IH H2).
  destruct (trimDerecha s) as [|c'' r].
  - destruct (esBlanco c'); simpl; [reflexivity|rewrite H1; reflexivity].
  - simpl in *. rewrite H1. exact IH.
Qed.

Lemma contiene_replace (c viejo nuevo : ascii) (s : string) :
  nuevo <> c -> contiene c s = false -> contiene c (replace viejo nuevo s) = false.
Proof.
  intros Hn. induction s as [|c' s IH]; simpl; [reflexivity|].
  intros H. apply orb_false_elim in H as [H1 H2]. rewrite (IH H2).
  destruct (Ascii.eqb c' viejo); [|rewrite H1; reflexivity].
  apply Ascii.eqb_neq in Hn. rewrite Hn. reflexivity.
Qed.

Lemma contiene_quitarPuntos (c : ascii) (s : string) :
  contiene c s = false -> contiene c (quitarPuntos s) = false.
Proof.
  rewrite <- quitarPuntos_conservar. apply contiene_conservar.
Qed.

Lemma contiene_conservarPrimerPunto (c : ascii) (s : string) :
  contiene c s = false -> contiene c (conservarPrimerPunto s) = false.
Proof.
  induction s as [|c' s IH]; simpl; [reflexivity|].
  intros H. apply orb_false_elim in H as [H1 H2].
  destruct (Ascii.eqb c' punto); simpl; rewrite H1; simpl;
    [apply contiene_quitarPuntos|apply IH]; assumption.
Qed.

(** X1: a field without any minus sign is stored as a magnitude between
    0 and 10, whatever else it holds. *)
Theorem parseMagnitud_sin_menos_entre_0_y_10 (s : string) :
  indexOf menos s = -1 ->
  (0 <= parseMagnitud (Some s))%Q /\ (parseMagnitud (Some s) <= 10)%Q.
Proof.
  intros H. apply indexOf_contiene in H.
  destruct (parseMagnitud_rango s) as [H0 H10]. split; [assumption|].
  apply H10. intros v Hv. unfold valorLimpio in Hv.
  assert (Hc : contiene menos (textoLimpio s) = false).
  { unfold textoLimpio, trim.
    apply contiene_conservarPrimerPunto, contiene_conservar, contiene_replace;
      [discriminate|].
    apply contiene_trimDerecha, contiene_trimIzquierda. assumption. }
  destruct (isEmpty (textoLimpio s)); [discriminate|].
  destruct (Double_parseDouble (textoLimpio s)) as [w|] eqn:E; [|discriminate].
  injection Hv as <-. unfold Double_parseDouble in E.
  destruct (textoLimpio s) as [|c r]; [discriminate|].
  simpl in Hc. apply orb_false_elim in Hc as [Hc _]. rewrite Hc in E.
  apply parseSinSigno_cota in E as [E _]. lra.
Qed.

Lemma parseMagnitud_sin_menos_entre_0_y_10_witness :
  (0 <= parseMagnitud (Some "M 68,4 aprox"%string))%Q
  /\ (parseMagnitud (Some "M 68,4 aprox"%string) <= 10)%Q.
Proof.
  exact (parseMagnitud_sin_menos_entre_0_y_10 "M 68,4 aprox"%string eq_refl).
Defined.

(** The cleaning that precedes the parse: commas to dots, then only
    digits, dots and minus signs. *)
Definition soloNumerico (s : string) : string :=
  conservar esNumerico (replace coma punto s).

Lemma blanco_no_numerico (c : ascii) :
  esBlanco c = true ->
  esNumerico (if Ascii.eqb c coma then punto else c) = false.
Proof.
  destruct c as [[] [] [] [] [] [] [] []]; vm_compute; congruence.
Qed.

Lemma soloNumerico_cons (c : ascii) (s : string) :
  soloNumerico (String c s)
  = if esNumerico (if Ascii.eqb c coma then punto else c)
    then String (if Ascii.eqb c coma then punto else c) (soloNumerico s)
    else soloNumerico s.
Proof. reflexivity. Qed.

Lemma soloNumerico_trimIzquierda (s : string) :
  soloNumerico (trimIzquierda s) = soloNumerico s.
Proof.
  induction s as [|c s IH]; [reflexivity|].
  simpl trimIzquierda. destruct (esBlanco c) eqn:E; [|reflexivity].
  rewrite IH, (soloNumerico_cons c s), (blanco_no_numerico c E). reflexivity.
Qed.

Lemma soloNumerico_trimDerecha (s : string) :
  soloNumerico (trimDerecha s) = soloNumerico s.
Proof.
  induction s as [|c s IH]; [reflexivity|].
  simpl trimDerecha. rewrite (soloNumerico_cons c s), <- IH.
  destruct (trimDerecha s) as [|c' r].
  - destruct (esBlanco c) eqn:E.
    + rewrite (blanco_no_numerico c E). reflexivity.
    + rewrite soloNumerico_cons. reflexivity.
  - rewrite soloNumerico_cons. reflexivity.
Qed.

Lemma soloNumerico_trim (s : string) : soloNumerico (trim s) = soloNumerico s.
Proof.
  unfold trim. rewrite soloNumerico_trimDerecha. apply soloNumerico_trimIzquierda.
Qed.

(** What [parseMagnitud] does with the cleaned text (its steps 4 to 7). *)
Definition magnitudDeLimpio (cleaned : string) : Q :=
  if isEmpty cleaned || String.eqb cleaned "-" || String.eqb cleaned "."
  then 0
  else
    let cleaned := soloPrimerPunto cleaned in
    match Double_parseDouble cleaned with
    | Lanza _ => 0
    | Normal valor =>
        if negb (Qle_bool 0 valor) then Qabs valor
        else if negb (Qle_bool valor 10) then
          match dividirMientrasExcede (S (String.length cleaned)) valor with
          | Some corregido => corregido
          | None => valor
          end
        else valor
    end.

Lemma parseMagnitud_de_limpio (s : string) :
  parseMagnitud (Some s) = magnitudDeLimpio (soloNumerico s).
Proof.
  unfold parseMagnitud. destruct (isEmpty (trim s)) eqn:E.
  - destruct (trim s) as [|a r] eqn:Et; [|discriminate].
    rewrite <- (soloNumerico_trim s), Et. reflexivity.
  - rewrite <- (soloNumerico_trim s). reflexivity.
Qed.

(** X2: the magnitude read from a field depends only on its digits, dots,
    commas and minus signs: two fields that are equal once commas are
    turned into dots and every other character is deleted give the same
    magnitude. *)
Theorem parseMagnitud_ignora_el_ruido (s1 s2 : string) :
  soloNumerico s1 = soloNumerico s2 ->
  parseMagnitud (Some s1) = parseMagnitud (Some s2).
Proof.
  intros E. rewrite !parseMagnitud_de_limpio, E. reflexivity.
Qed.

Lemma parseMagnitud_ignora_el_ruido_witness :
  parseMagnitud (Some "  Mw: 5,2 (rev) "%string) = parseMagnitud (Some "5.2"%string).
Proof.
  exact (parseMagnitud_ignora_el_ruido "  Mw: 5,2 (rev) "%string "5.2"%string eq_refl).
Defined.

(** X3: the division loop moves the decimal point and nothing else: from
    a value above ten it returns that value divided by a power of ten,
    and the result is above one and at most ten. *)
Theorem dividirMientrasExcede_desplaza (fuel : nat) (valor corregido : Q) :
  dividirMientrasExcede fuel valor = Some corregido ->
  (10 < valor)%Q ->
  (1 < corregido)%Q /\ (corregido <= 10)%Q
  /\ exists k : nat, (corregido * inject_Z (10 ^ Z.of_nat k) == valor)%Q.
Proof.
  revert valor. induction fuel as [|fuel IH]; intros valor H Hv; [discriminate|].
  simpl in H. destruct (Qle_bool valor 10) eqn:E; simpl in H.
  - apply Qle_bool_iff in E. lra.
  - destruct (Qle_bool (valor / 10) 10) eqn:E'.
    + destruct fuel as [|fuel]; [discriminate|]. simpl in H. rewrite E' in H.
      simpl in H. injection H as <-. apply Qle_bool_iff in E'.
      assert (Hd : (1 < valor / 10)%Q)
        by (apply Qlt_shift_div_l; [reflexivity|lra]).
      repeat split; try assumption.
      exists 1%nat. change (inject_Z (10 ^ Z.of_nat 1)) with 10%Q. field.
    + assert (Hd : (10 < valor / 10)%Q).
      { destruct (Qlt_le_dec 10 (valor / 10)) as [G|G]; [assumption|].
        apply Qle_bool_iff in G. congruence. }
      destruct (IH _ H Hd) as (H1 & H2 & k & Hk).
      repeat split; try assumption.
      exists (S k). rewrite Nat2Z.inj_succ, Z.pow_succ_r, inject_Z_mult by lia.
      change (inject_Z 10) with 10%Q.
      transitivity (10 * (corregido * inject_Z (10 ^ Z.of_nat k)))%Q; [ring|].
      rewrite Hk. field.
Qed.

Lemma dividirMientrasExcede_desplaza_witness :
  (1 < 12345 # 10000)%Q /\ (12345 # 10000 <= 10)%Q
  /\ exists k : nat, ((12345 # 10000) * inject_Z (10 ^ Z.of_nat k) == 12345 # 1)%Q.
Proof.
  refine (dividirMientrasExcede_desplaza 6 (12345 # 1) (12345 # 10000) _ _).
  - vm_compute. reflexivity.
  - reflexivity.
Defined.

End SanitizerMas.

(** * Further properties of the CSV ingestion *)

Module IngestionMas.
Import SismoService IngestionProps.

(** *** Reading the columns of a record *)

(** One step of [columnas.forEach]. *)
Definition ponerValor (record : list string)
    (acumulado : resultado (gmap string string)) (columna : string * nat)
  : resultado (gmap string string) :=
  let '(columna, i) := columna in
  ligar acumulado (fun valores =>
    match record !! i with
    | Some valor => Normal (<[toLowerCase columna := valor]> valores)
    | None => Lanza IllegalArgumentException
    end).

Lemma leerValores_foldl (columnas : list (string * nat)) (record : list string) :
  leerValores columnas record = foldl (ponerValor record) (Normal ∅) columnas.
Proof. reflexivity. Qed.

Lemma ponerValor_Lanza (record : list string) (columnas : list (string * nat))
    (e : excepcion) :
  foldl (ponerValor record) (Lanza e) columnas = Lanza e.
Proof.
  induction columnas as [|[c i] columnas IH]; [reflexivity|]. simpl. exact IH.
Qed.

(** The fold ends normally exactly when the record has a value at every
    index of the header; the map it builds holds, under each lower-cased
    name, the value of the last column with that name, and nothing
    else. *)
Lemma ponerValor_Normal (record : list string) (columnas : list (string * nat)) :
  forall valores valores',
    foldl (ponerValor record) (Normal valores) columnas = Normal valores' ->
    (forall c i, (c, i) ∈ columnas -> is_Some (record !! i))
    /\ (forall k, (forall c i, (c, i) ∈ columnas -> toLowerCase c <> k) ->
          valores' !! k = valores !! k)
    /\ (forall k v, valores' !! k = Some v ->
          valores !! k = Some v \/ v ∈ record).
Proof.
  induction columnas as [|[c i] columnas IH]; intros valores valores' H.
  - simpl in H. injection H as <-. split; [|split].
    + intros c i Hin. inversion Hin.
    + reflexivity.
    + auto.
  - simpl in H. destruct (record !! i) as [v|] eqn:Ei.
    + destruct (IH _ _ H) as (H1 & H2 & H3). split; [|split].
      * intros c' i' Hin. apply elem_of_cons in Hin as [Heq|Hin].
        -- injection Heq as -> ->. rewrite Ei. eauto.
        -- eapply H1. eassumption.
      * intros k Hk. rewrite H2.
        -- apply lookup_insert_ne. apply (Hk c i). left.
        -- intros c' i' Hin. apply (Hk c' i'). right. assumption.
      * intros k w Hw. destruct (H3 _ _ Hw) as [Hw'|Hw']; [|auto].
        destruct (decide (toLowerCase c = k)) as [<-|Hne].
        -- rewrite lookup_insert_eq in Hw'. injection Hw' as <-.
           right. eapply list_elem_of_lookup_2. eassumption.
        -- rewrite lookup_insert_ne in Hw' by assumption. auto.
    + rewrite ponerValor_Lanza in H. discriminate.
Qed.

Lemma ponerValor_completo (record : list string) (columnas : list (string * nat)) :
  forall valores,
    (forall c i, (c, i) ∈ columnas -> is_Some (record !! i)) ->
    exists valores', foldl (ponerValor record) (Normal valores) columnas = Normal valores'.
Proof.
  induction columnas as [|[c i] columnas IH]; intros valores H; simpl; [eauto|].
  destruct (H c i ltac:(left)) as [v ->].
  apply IH. intros c' i' Hin. apply (H c' i'). right. assumption.
Qed.

Lemma ponerValor_incompleto (record : list string) (columnas : list (string * nat)) :
  forall acumulado c i,
    (c, i) ∈ columnas -> record !! i = None ->
    exists e, foldl (ponerValor record) acumulado columnas = Lanza e.
Proof.
  induction columnas as [|[c' i'] columnas IH]; intros acumulado c i Hin Hi.
  - inversion Hin.
  - apply elem_of_cons in Hin as [Heq|Hin].
    + injection Heq as <- <-. simpl. destruct acumulado as [valores|e]; simpl.
      * rewrite Hi. rewrite ponerValor_Lanza. eauto.
      * rewrite ponerValor_Lanza. eauto.
    + simpl. eapply IH; eassumption.
Qed.

(** X4: the columns are found whatever the case of the header.  When the
    header names a column at index [i] (and no later column has the same
    name up to case), a record that is read normally gives, for the field
    asked under any spelling of that name, the trimmed value it has at
    [i]. *)
Theorem obtenerValorSeguro_sin_distinguir_mayusculas
    (antes despues : list (string * nat)) (columna campo : string) (i : nat)
    (record : list string) (valores : gmap string string) :
  leerValores (antes ++ (columna, i) :: despues) record = Normal valores ->
  (forall c j, (c, j) ∈ despues -> toLowerCase c <> toLowerCase columna) ->
  toLowerCase campo = toLowerCase columna ->
  exists valor,
    record !! i = Some valor /\ obtenerValorSeguro valores campo = trim valor.
Proof.
  rewrite leerValores_foldl, foldl_app. intros H Hdesp Hcampo.
  destruct (foldl (ponerValor record) (Normal ∅) antes) as [previos|e] eqn:Ea.
  - simpl in H. destruct (record !! i) as [valor|] eqn:Ei.
    + exists valor. split; [reflexivity|].
      apply ponerValor_Normal in H as (_ & H2 & _).
      unfold obtenerValorSeguro. rewrite Hcampo, H2, lookup_insert_eq by assumption.
      reflexivity.
    + rewrite ponerValor_Lanza in H. discriminate.
  - rewrite ponerValor_Lanza in H. discriminate.
Qed.

Lemma obtenerValorSeguro_sin_distinguir_mayusculas_witness :
  match leerValores encabezado (fila "12:00" " 7,5 ") with
  | Normal valores =>
      exists valor,
        fila "12:00" " 7,5 " !! 2%nat = Some valor
        /\ obtenerValorSeguro valores "MAGNITUD" = trim valor
  | Lanza _ => False
  end.
Proof.
  destruct (leerValores encabezado (fila "12:00" " 7,5 ")) as [valores|e] eqn:E.
  - apply (obtenerValorSeguro_sin_distinguir_mayusculas
             (take 2 encabezado) (drop 3 encabezado) "Magnitud" "MAGNITUD" 2
             (fila "12:00" " 7,5 ") valores).
    + exact E.
    + intros c j Hin Heq.
      repeat (apply elem_of_cons in Hin as [Hin|Hin];
              [injection Hin as -> ->; vm_compute in Heq; discriminate|]).
      inversion Hin.
    + reflexivity.
  - apply (f_equal (fun r => match r with Normal _ => true | Lanza _ => false end)) in E.
    vm_compute in E. discriminate E.
Defined.

(** X5: a field whose column the header does not have, under any case,
    reads as the empty text. *)
Theorem obtenerValorSeguro_columna_ausente
    (columnas : list (string * nat)) (campo : string)
    (record : list string) (valores : gmap string string) :
  leerValores columnas record = Normal valores ->
  (forall c j, (c, j) ∈ columnas -> toLowerCase c <> toLowerCase campo) ->
  obtenerValorSeguro valores campo = EmptyString.
Proof.
  rewrite leerValores_foldl. intros H Habs.
  apply ponerValor_Normal in H as (_ & H2 & _).
  unfold obtenerValorSeguro. rewrite H2, lookup_empty by assumption. reflexivity.
Qed.

Lemma obtenerValorSeguro_columna_ausente_witness :
  match leerValores encabezado (fila "12:00" "7.5") with
  | Normal valores => obtenerValorSeguro valores "region" = EmptyString
  | Lanza _ => False
  end.
Proof.
  destruct (leerValores encabezado (fila "12:00" "7.5")) as [valores|e] eqn:E.
  - apply (obtenerValorSeguro_columna_ausente encabezado "region" (fila "12:00" "7.5")
             valores).
    + exact E.
    + intros c j Hin Heq.
      repeat (apply elem_of_cons in Hin as [Hin|Hin];
              [injection Hin as -> ->; vm_compute in Heq; discriminate|]).
      inversion Hin.
  - apply (f_equal (fun r => match r with Normal _ => true | Lanza _ => false end)) in E.
    vm_compute in E. discriminate E.
Defined.

(** *** The run as a whole *)

Lemma length_trimIzquierda (s : string) :
  (String.length (trimIzquierda s) <= String.length s)%nat.
Proof.
  induction s as [|c s IH]; simpl; [lia|]. destruct (esBlanco c); simpl; lia.
Qed.

Lemma length_trimDerecha (s : string) :
  (String.length (trimDerecha s) <= String.length s)%nat.
Proof.
  induction s as [|c s IH]; simpl; [lia|].
  destruct (trimDerecha s); [destruct (esBlanco c)|]; simpl in *; lia.
Qed.

Lemma length_trim (s : string) : (String.length (trim s) <= String.length s)%nat.
Proof.
  unfold trim. pose proof (length_trimDerecha (trimIzquierda s)).
  pose proof (length_trimIzquierda s). lia.
Qed.

(** The table after the fallback, whatever the count. *)
Lemma respaldo_tabla (sismos : list Sismo.t) :
  forall (guardados : Z) (tabla : list Sismo.t),
    (foldl (fun '(guardados, tabla) sismo =>
              match save sismo tabla with
              | Normal tabla' => (int_add guardados 1, tabla')
              | Lanza _ => (guardados, tabla)
              end)
           (guardados, tabla) sismos).2
    = tabla ++ List.filter cumpleEsquema sismos.
Proof.
  induction sismos as [|s sismos IH]; intros guardados tabla; simpl.
  - rewrite app_nil_r. reflexivity.
  - unfold save at 2. destruct (cumpleEsquema s).
    + rewrite IH, <- app_assoc. reflexivity.
    + apply IH.
Qed.

(** What one flush does: it appends to the table either the whole batch,
    adding its size to the count, or the accepted records of the batch,
    leaving the count as it was. *)
Lemma guardarLote_casos (lote tabla : list Sismo.t) (total : Z) :
  (forallb cumpleEsquema lote = true
   /\ guardarLote lote total tabla
      = (int_add total (Z.of_nat (length lote)), tabla ++ lote))
  \/ (forallb cumpleEsquema lote = false
      /\ guardarLote lote total tabla
         = (total, tabla ++ List.filter cumpleEsquema lote)).
Proof.
  unfold guardarLote, saveAll. destruct (forallb cumpleEsquema lote); [left|right].
  - split; reflexivity.
  - split; [reflexivity|].
    unfold guardarRegistrosPorRegistro.
    pose proof (respaldo_tabla lote 0 tabla) as H.
    destruct (foldl _ (0, tabla) lote) as [g t']. simpl in H. rewrite H. reflexivity.
Qed.

Lemma length_filter_cota {A : Type} (f : A -> bool) (l : list A) :
  (length (List.filter f l) <= length l)%nat.
Proof. induction l as [|x l IH]; simpl; [lia|]. destruct (f x); simpl; lia. Qed.

(** An event as the ingestion stores it: both dates and the magnitude are
    present and the magnitude is not negative. *)
Definition poblado (s : Sismo.t) : Prop :=
  is_Some (Sismo.getFecha s) /\ is_Some (Sismo.getFechaUTC s)
  /\ exists m, Sismo.getMagnitud s = Some m /\ (0 <= m)%Q.

Lemma filter_todos {A : Type} (f : A -> bool) (l : list A) :
  forallb f l = true -> List.filter f l = l.
Proof.
  induction l as [|x l IH]; simpl; [reflexivity|].
  destruct (f x); simpl; [|discriminate]. intros H. rewrite IH by assumption.
  reflexivity.
Qed.

Lemma filter_concat {A : Type} (f : A -> bool) (l1 l2 : list A) :
  List.filter f (l1 ++ l2) = List.filter f l1 ++ List.filter f l2.
Proof.
  induction l1 as [|x l1 IH]; simpl; [reflexivity|].
  destruct (f x); simpl; rewrite IH; reflexivity.
Qed.

Lemma forallb_concat {A : Type} (f : A -> bool) (l1 l2 : list A) :
  forallb f (l1 ++ l2) = forallb f l1 && forallb f l2.
Proof.
  induction l1 as [|x l1 IH]; simpl; [reflexivity|].
  rewrite IH, andb_assoc. reflexivity.
Qed.

Lemma omap_concat {A B : Type} (f : A -> option B) (l1 l2 : list A) :
  omap f (l1 ++ l2) = omap f l1 ++ omap f l2.
Proof.
  induction l1 as [|x l1 IH]; [reflexivity|].
  cbn. destruct (f x); cbn; rewrite IH; reflexivity.
Qed.

Lemma length_omap {A B : Type} (f : A -> option B) (l : list A) :
  (length (omap f l) <= length l)%nat.
Proof.
  induction l as [|x l IH]; [simpl; lia|].
  cbn. destruct (f x); simpl; lia.
Qed.

Section Corrida.

Variable LocalDate_parse : string -> option LocalDate.
Variable LocalDate_now : LocalDate.
Variable Double_parseDouble_general : string -> option Q.
Variable columnas : list (string * nat).

#[local] Abbreviation construir :=
  (construirSismo LocalDate_parse LocalDate_now Double_parseDouble_general).
#[local] Abbreviation procesar :=
  (procesarRegistro LocalDate_parse LocalDate_now Double_parseDouble_general columnas).
#[local] Abbreviation cargar :=
  (cargarSismosDesdeCSV LocalDate_parse LocalDate_now Double_parseDouble_general columnas).

Lemma construirSismo_campos (valores : gmap string string) (errores : gmap string Z) :
  poblado (construir valores errores).1.1
  /\ Sismo.getHora (construir valores errores).1.1 = obtenerValorSeguro valores "hora"
  /\ Sismo.getReferenciaLocalizacion (construir valores errores).1.1
     = obtenerValorSeguro valores "referencia de localizacion"
  /\ Sismo.getHoraUTC (construir valores errores).1.1
     = obtenerValorSeguro valores "hora utc"
  /\ Sismo.getEstatus (construir valores errores).1.1
     = obtenerValorSeguro valores "estatus".
Proof.
  unfold construirSismo, leerMagnitud, leerDouble, poblado.
  destruct (LocalDate_parse (obtenerValorSeguro valores "fecha"));
    destruct (Double_parseDouble_general (obtenerValorSeguro valores "latitud"));
    destruct (Double_parseDouble_general (obtenerValorSeguro valores "longitud"));
    destruct (Double_parseDouble_general (obtenerValorSeguro valores "profundidad"));
    simpl; (repeat split; eauto);
    (eexists; split; [reflexivity|apply SanitizerProps.parseMagnitud_rango]).
Qed.

(** The event built from a record does not depend on the error tally. *)
Lemma construirSismo_sin_errores (valores : gmap string string)
    (errores errores' : gmap string Z) :
  (construir valores errores).1.1 = (construir valores errores').1.1.
Proof.
  unfold construirSismo, leerMagnitud, leerDouble.
  destruct (LocalDate_parse (obtenerValorSeguro valores "fecha"));
    destruct (Double_parseDouble_general (obtenerValorSeguro valores "latitud"));
    destruct (Double_parseDouble_general (obtenerValorSeguro valores "longitud"));
    destruct (Double_parseDouble_general (obtenerValorSeguro valores "profundidad"));
    reflexivity.
Qed.

(** The event the loop body builds from a record; none when reading the
    record's columns throws. *)
Definition sismoDeRegistro (record : list string) : option Sismo.t :=
  match leerValores columnas record with
  | Normal valores => Some (construir valores ∅).1.1
  | Lanza _ => None
  end.

(** What holds of the locals and the table after the loop has consumed
    the records [leidos]: the events built so far are the flushed ones
    followed by the pending batch; the table has received the flushed
    events that it accepts; and, as long as the counters cannot wrap, the
    counters are what they are meant to be. *)
Definition invariante (tabla0 : list Sismo.t) (leidos : list (list string))
    (st : Carga) : Prop :=
  exists volcados : list Sismo.t,
    omap sismoDeRegistro leidos = volcados ++ sismosBatch st
    /\ tabla st = tabla0 ++ List.filter cumpleEsquema volcados
    /\ (length (sismosBatch st) < 500)%nat
    /\ (Z.of_nat (length leidos) <= Integer_MAX_VALUE ->
        registrosProcesados st = Z.of_nat (length leidos)
        /\ 0 <= registrosErroneos st <= Z.of_nat (length leidos)
        /\ 0 <= totalRegistros st <= Z.of_nat (length (List.filter cumpleEsquema volcados))
        /\ (forallb cumpleEsquema volcados = true ->
            totalRegistros st = Z.of_nat (length volcados))).

Lemma invariante_inicial (tabla0 : list Sismo.t) :
  invariante tabla0 [] (cargaInicial tabla0).
Proof.
  exists []. simpl. rewrite app_nil_r. repeat split; try lia; reflexivity.
Qed.

Ltac sin_desborde :=
  unfold int_add; rewrite PropagationProps.wrap32_id
    by (unfold es_int, Integer_MIN_VALUE, Integer_MAX_VALUE in *; lia).

Lemma invariante_paso (tabla0 : list Sismo.t) (leidos : list (list string))
    (st : Carga) (record : list string) :
  invariante tabla0 leidos st ->
  invariante tabla0 (leidos ++ [record]) (procesar st record).
Proof.
  intros (volcados & Hev & Htab & Hlote & Hcnt).
  pose proof (length_omap sismoDeRegistro leidos) as Hlen.
  rewrite Hev, length_app in Hlen.
  pose proof (length_filter_cota cumpleEsquema volcados) as Hfil.
  unfold invariante. rewrite omap_concat, length_app. simpl length.
  unfold procesarRegistro. cbn [omap list_omap]. unfold sismoDeRegistro at 2.
  destruct (leerValores columnas record) as [valores|e].
  - rewrite (construirSismo_sin_errores valores ∅ (erroresPorTipo st)).
    destruct (construir valores (erroresPorTipo st)) as [[sismo errores] b].
    cbn [fst snd].
    destruct (500 <=? Z.of_nat (length (sismosBatch st ++ [sismo]))) eqn:E500.
    + apply Z.leb_le in E500.
      destruct (guardarLote_casos (sismosBatch st ++ [sismo]) (tabla st)
                  (totalRegistros st)) as [[Hok ->]|[Hok ->]].
      * exists (volcados ++ sismosBatch st ++ [sismo]). cbn.
        rewrite Hev, Htab, !filter_concat, <- !app_assoc, app_nil_r.
        rewrite <- (filter_concat cumpleEsquema (sismosBatch st) [sismo]).
        rewrite (filter_todos _ _ Hok).
        split; [reflexivity|]. split; [reflexivity|]. split; [lia|].
        intros Hmax. destruct Hcnt as (Hp & He & Ht & Hall); [lia|].
        rewrite Hp. rewrite !length_app in *. simpl length in *.
        split; [sin_desborde; lia|].
        split; [destruct b; [sin_desborde|]; lia|].
        split; [sin_desborde; lia|].
        rewrite forallb_concat. intros Hv. apply andb_prop in Hv as [Hv _].
        rewrite (Hall Hv). sin_desborde. lia.
      * exists (volcados ++ sismosBatch st ++ [sismo]). cbn.
        rewrite Hev, Htab, !filter_concat, <- !app_assoc, app_nil_r.
        rewrite <- (filter_concat cumpleEsquema (sismosBatch st) [sismo]).
        split; [reflexivity|]. split; [reflexivity|]. split; [lia|].
        intros Hmax. destruct Hcnt as (Hp & He & Ht & Hall); [lia|].
        rewrite Hp. rewrite !length_app in *.
        split; [sin_desborde; lia|].
        split; [destruct b; [sin_desborde|]; lia|].
        split; [lia|].
        rewrite forallb_concat, Hok, andb_false_r. discriminate.
    + apply Z.leb_gt in E500.
      exists volcados. cbn.
      rewrite Hev, <- app_assoc.
      split; [reflexivity|]. split; [assumption|]. split; [lia|].
      intros Hmax. destruct Hcnt as (Hp & He & Ht & Hall); [lia|].
      rewrite Hp.
      split; [sin_desborde; lia|].
      split; [destruct b; [sin_desborde|]; lia|].
      split; assumption.
  - exists volcados. cbn. rewrite app_nil_r.
    split; [assumption|]. split; [assumption|]. split; [assumption|].
    intros Hmax. destruct Hcnt as (Hp & He & Ht & Hall); [lia|].
    rewrite Hp.
    split; [sin_desborde; lia|].
    split; [sin_desborde; lia|].
    split; assumption.
Qed.

Lemma invariante_bucle (tabla0 : list Sismo.t) (registros : list (list string)) :
  forall (leidos : list (list string)) (st : Carga),
    invariante tabla0 leidos st ->
    invariante tabla0 (leidos ++ registros) (foldl procesar st registros).
Proof.
  induction registros as [|record registros IH]; intros leidos st H.
  - rewrite app_nil_r. exact H.
  - simpl. replace (leidos ++ record :: registros)
      with ((leidos ++ [record]) ++ registros) by (rewrite <- app_assoc; reflexivity).
    apply IH, invariante_paso, H.
Qed.

(** The whole method: after the final flush every built event has been
    offered to the table. *)
Lemma corrida (registros : list (list string)) (tabla0 : list Sismo.t) :
  let st := (cargar registros tabla0).2 in
  let construidos := omap sismoDeRegistro registros in
  (cargar registros tabla0).1 = totalRegistros st
  /\ tabla st = tabla0 ++ List.filter cumpleEsquema construidos
  /\ (Z.of_nat (length registros) <= Integer_MAX_VALUE ->
      registrosProcesados st = Z.of_nat (length registros)
      /\ 0 <= registrosErroneos st <= Z.of_nat (length registros)
      /\ 0 <= totalRegistros st
         <= Z.of_nat (length (List.filter cumpleEsquema construidos))
      /\ (forallb cumpleEsquema construidos = true ->
          totalRegistros st = Z.of_nat (length construidos))).
Proof.
  pose proof (invariante_bucle tabla0 registros [] _ (invariante_inicial tabla0))
    as (volcados & Hev & Htab & Hlote & Hcnt).
  simpl app in *.
  pose proof (length_omap sismoDeRegistro registros) as Hlen.
  rewrite Hev, length_app in Hlen.
  pose proof (length_filter_cota cumpleEsquema volcados) as Hfil.
  unfold cargarSismosDesdeCSV. cbn zeta.
  set (st := foldl procesar (cargaInicial tabla0) registros) in *.
  destruct (sismosBatch st) as [|s lote] eqn:Elote.
  - cbn [fst snd]. rewrite app_nil_r in Hev. rewrite Hev.
    split; [reflexivity|]. split; [assumption|]. exact Hcnt.
  - destruct (guardarLote_casos (s :: lote) (tabla st) (totalRegistros st))
      as [[Hok ->]|[Hok ->]]; cbn [fst snd totalRegistros tabla registrosProcesados
                                    registrosErroneos].
    + rewrite Hev, Htab, filter_concat, <- app_assoc, (filter_todos _ _ Hok).
      split; [reflexivity|]. split; [reflexivity|].
      intros Hmax. destruct (Hcnt Hmax) as (Hp & He & Ht & Hall).
      rewrite length_app. simpl length in *.
      split; [assumption|]. split; [assumption|].
      split; [sin_desborde; lia|].
      rewrite forallb_concat. intros Hv. apply andb_prop in Hv as [Hv _].
      rewrite (Hall Hv). sin_desborde. rewrite length_app. simpl length. lia.
    + rewrite Hev, Htab, filter_concat, <- app_assoc.
      split; [reflexivity|]. split; [reflexivity|].
      intros Hmax. destruct (Hcnt Hmax) as (Hp & He & Ht & Hall).
      rewrite length_app.
      split; [assumption|]. split; [assumption|].
      split; [lia|].
      rewrite forallb_concat, Hok, andb_false_r. discriminate.
Qed.

(** X6: the rows a run adds to the table are the events built from the
    records whose columns can be read, less those that break a column
    constraint, in the order of the file.  With a bulk save that stores
    the whole batch or nothing, as the table is modelled here, where the
    batches end, and whether a batch went in by the bulk save or one
    record at a time, makes no difference to the table. *)
Theorem cargarSismosDesdeCSV_tabla
    (registros : list (list string)) (tabla0 : list Sismo.t) :
  tabla (cargar registros tabla0).2
  = tabla0 ++ List.filter cumpleEsquema (omap sismoDeRegistro registros).
Proof. apply (corrida registros tabla0). Qed.

(** X7: the returned count is never negative and never more than the rows
    the run added, which (a failed bulk save storing nothing) are never
    more than the records read; every record is counted as processed and
    at most that many as erroneous. *)
Theorem cargarSismosDesdeCSV_cuentas
    (registros : list (list string)) (tabla0 : list Sismo.t) :
  Z.of_nat (length registros) <= Integer_MAX_VALUE ->
  let '(total, st) := cargar registros tabla0 in
  0 <= total
  /\ total <= Z.of_nat (length (tabla st)) - Z.of_nat (length tabla0)
  /\ Z.of_nat (length (tabla st)) - Z.of_nat (length tabla0)
     <= Z.of_nat (length registros)
  /\ registrosProcesados st = Z.of_nat (length registros)
  /\ 0 <= registrosErroneos st <= registrosProcesados st.
Proof.
  intros Hmax. destruct (corrida registros tabla0) as (Hr & Htab & Hcnt).
  destruct (cargar registros tabla0) as [total st]. cbn [fst snd] in *.
  destruct (Hcnt Hmax) as (Hp & He & Ht & _). subst total.
  rewrite Htab, length_app, Hp.
  pose proof (length_filter_cota cumpleEsquema (omap sismoDeRegistro registros)).
  pose proof (length_omap sismoDeRegistro registros).
  repeat split; lia.
Qed.

(** X8: when the table accepts every event that was built, the returned
    count is the number of rows added: the records whose columns could be
    read. *)
Theorem cargarSismosDesdeCSV_cuenta_exacta
    (registros : list (list string)) (tabla0 : list Sismo.t) :
  Z.of_nat (length registros) <= Integer_MAX_VALUE ->
  forallb cumpleEsquema (omap sismoDeRegistro registros) = true ->
  (cargar registros tabla0).1 = Z.of_nat (length (omap sismoDeRegistro registros))
  /\ tabla (cargar registros tabla0).2 = tabla0 ++ omap sismoDeRegistro registros.
Proof.
  intros Hmax Hok. destruct (corrida registros tabla0) as (Hr & Htab & Hcnt).
  destruct (Hcnt Hmax) as (_ & _ & _ & Hall).
  rewrite Hr, Htab, (Hall Hok), (filter_todos _ _ Hok). split; reflexivity.
Qed.

(** A record that has a value for every column of the header, none of
    them longer than 255 characters. *)
Definition registroLimpio (record : list string) : bool :=
  forallb (fun columna : string * nat =>
             match record !! columna.2 with Some _ => true | None => false end)
          columnas
  && forallb VARCHAR_255 record.

Lemma caracteres_trimIzquierda (s : string) :
  (caracteres (trimIzquierda s) <= caracteres s)%nat.
Proof.
  induction s as [|c s IH]; simpl; [lia|].
  destruct (esBlanco c); simpl; destruct (esContinuacion c); lia.
Qed.

Lemma caracteres_trimDerecha (s : string) :
  (caracteres (trimDerecha s) <= caracteres s)%nat.
Proof.
  induction s as [|c s IH]; simpl; [lia|].
  destruct (trimDerecha s); [destruct (esBlanco c)|];
    simpl in *; destruct (esContinuacion c); lia.
Qed.

Lemma caracteres_trim (s : string) : (caracteres (trim s) <= caracteres s)%nat.
Proof.
  unfold trim. pose proof (caracteres_trimDerecha (trimIzquierda s)).
  pose proof (caracteres_trimIzquierda s). lia.
Qed.

Lemma VARCHAR_255_trim (s : string) : VARCHAR_255 s = true -> VARCHAR_255 (trim s) = true.
Proof.
  unfold VARCHAR_255. intros H. apply Nat.leb_le in H. apply Nat.leb_le.
  pose proof (caracteres_trim s). lia.
Qed.

Lemma registroLimpio_sismo (record : list string) :
  registroLimpio record = true ->
  exists s, sismoDeRegistro record = Some s /\ cumpleEsquema s = true.
Proof.
  unfold registroLimpio. intros H. apply andb_prop in H as [Hcol Hval].
  rewrite forallb_forall in Hcol, Hval.
  assert (Hcompleto : forall c i, (c, i) ∈ columnas -> is_Some (record !! i)).
  { intros c i Hin. apply list_elem_of_In in Hin. specialize (Hcol _ Hin).
    simpl in Hcol. destruct (record !! i); [eauto|discriminate]. }
  destruct (ponerValor_completo record columnas ∅ Hcompleto) as [valores Hv].
  unfold sismoDeRegistro. rewrite leerValores_foldl, Hv.
  eexists. split; [reflexivity|].
  apply ponerValor_Normal in Hv as (_ & _ & Horigen).
  assert (Hcorto : forall campo, VARCHAR_255 (obtenerValorSeguro valores campo) = true).
  { intros campo. unfold obtenerValorSeguro. apply VARCHAR_255_trim.
    destruct (valores !! toLowerCase campo) as [v|] eqn:Ev; [|reflexivity].
    simpl. destruct (Horigen _ _ Ev) as [Hv|Hv].
    - rewrite lookup_empty in Hv. discriminate.
    - apply Hval, list_elem_of_In, Hv. }
  destruct (construirSismo_campos valores ∅)
    as ((Hf & Hu & _) & Hhora & Href & Hhutc & Hest).
  unfold cumpleEsquema. destruct Hf as [f ->]. destruct Hu as [u ->].
  rewrite Hhora, Href, Hhutc, Hest, !Hcorto. reflexivity.
Qed.

Lemma registroLimpio_todos (registros : list (list string)) :
  forallb registroLimpio registros = true ->
  forallb cumpleEsquema (omap sismoDeRegistro registros) = true
  /\ length (omap sismoDeRegistro registros) = length registros.
Proof.
  induction registros as [|record registros IH]; [split; reflexivity|].
  intros H. simpl in H. apply andb_prop in H as [Hr Hrs].
  destruct (registroLimpio_sismo record Hr) as (s & Hs & Hc).
  destruct (IH Hrs) as [IH1 IH2].
  replace (omap sismoDeRegistro (record :: registros))
    with (s :: omap sismoDeRegistro registros) by (cbn; rewrite Hs; reflexivity).
  cbn [forallb length]. rewrite Hc, IH1, IH2. split; reflexivity.
Qed.

(** A file of such records is stored whole, as far as the texts go: the
    table refuses none of the events built. *)
Lemma archivo_sin_rechazos
    (registros : list (list string)) (tabla0 : list Sismo.t) :
  Z.of_nat (length registros) <= Integer_MAX_VALUE ->
  forallb registroLimpio registros = true ->
  (cargar registros tabla0).1 = Z.of_nat (length registros)
  /\ length (tabla (cargar registros tabla0).2)
     = (length tabla0 + length registros)%nat.
Proof.
  intros Hmax Hlimpio. destruct (registroLimpio_todos registros Hlimpio) as [Hok Hlen].
  destruct (corrida registros tabla0) as (Hr & Htab & Hcnt).
  destruct (Hcnt Hmax) as (_ & _ & _ & Hall).
  rewrite Hr, Htab, (Hall Hok), (filter_todos _ _ Hok), length_app, Hlen.
  split; reflexivity.
Qed.

(** X10: a record that lacks a value for some column of the header is
    dropped: it is counted as processed and as erroneous under
    error_general, and neither the pending batch, the table nor the count
    of stored records changes. *)
Theorem procesarRegistro_registro_corto
    (st : Carga) (record : list string) (columna : string) (i : nat) :
  (columna, i) ∈ columnas ->
  record !! i = None ->
  procesar st record
  = {| totalRegistros := totalRegistros st;
       registrosProcesados := int_add (registrosProcesados st) 1;
       registrosErroneos := int_add (registrosErroneos st) 1;
       erroresPorTipo :=
         <["error_general"%string :=
             int_add (default 0 (erroresPorTipo st !! "error_general"%string)) 1]>
           (erroresPorTipo st);
       sismosBatch := sismosBatch st;
       tabla := tabla st |}.
Proof.
  intros Hin Hcorto. unfold procesarRegistro.
  destruct (ponerValor_incompleto record columnas (Normal ∅) columna i Hin Hcorto)
    as [e He].
  rewrite leerValores_foldl, He. reflexivity.
Qed.

(** Every populated event, whatever the table does with it. *)
Lemma sismoDeRegistro_poblado (record : list string) (s : Sismo.t) :
  sismoDeRegistro record = Some s -> poblado s.
Proof.
  unfold sismoDeRegistro. destruct (leerValores columnas record) as [valores|e];
    [|discriminate].
  intros H. injection H as <-. apply construirSismo_campos.
Qed.

(** X11: every row a run adds has both dates and a magnitude, and the
    magnitude is not negative. *)
Theorem cargarSismosDesdeCSV_filas_pobladas
    (registros : list (list string)) (tabla0 : list Sismo.t) :
  exists nuevas : list Sismo.t,
    tabla (cargar registros tabla0).2 = tabla0 ++ nuevas
    /\ Forall poblado nuevas.
Proof.
  destruct (corrida registros tabla0) as (_ & Htab & _).
  eexists. split; [exact Htab|].
  apply Forall_forall. intros s Hs.
  apply list_elem_of_In, filter_In in Hs as [Hs _].
  apply list_elem_of_In, list_elem_of_omap in Hs as (record & _ & Hs).
  eapply sismoDeRegistro_poblado, Hs.
Qed.

(** *** The error tally *)

Definition tiposDeError : gset string :=
  list_to_set ["fecha_invalida"; "latitud_invalida"; "longitud_invalida";
               "profundidad_invalida"; "error_general"]%string.

Lemma contarError_tipos (errores : gmap string Z) (tipoError : string) :
  tipoError ∈ tiposDeError ->
  dom errores ⊆ tiposDeError ->
  dom (contarError errores tipoError) ⊆ tiposDeError.
Proof.
  intros Hk H. unfold contarError. rewrite dom_insert_L.
  apply union_subseteq. split; [apply singleton_subseteq_l|]; assumption.
Qed.

Ltac tipo_conocido :=
  apply elem_of_list_to_set, list_elem_of_In; simpl; tauto.

Lemma construirSismo_dom (valores : gmap string string) (errores : gmap string Z) :
  dom errores ⊆ tiposDeError ->
  dom (construir valores errores).1.2 ⊆ tiposDeError.
Proof.
  intros H. unfold construirSismo, leerMagnitud, leerDouble.
  destruct (LocalDate_parse (obtenerValorSeguro valores "fecha"));
    destruct (Double_parseDouble_general (obtenerValorSeguro valores "latitud"));
    destruct (Double_parseDouble_general (obtenerValorSeguro valores "longitud"));
    destruct (Double_parseDouble_general (obtenerValorSeguro valores "profundidad"));
    simpl; repeat (apply contarError_tipos; [tipo_conocido|]); exact H.
Qed.

Lemma procesarRegistro_dom (st : Carga) (record : list string) :
  dom (erroresPorTipo st) ⊆ tiposDeError ->
  dom (erroresPorTipo (procesar st record)) ⊆ tiposDeError.
Proof.
  intros H. unfold procesarRegistro.
  destruct (leerValores columnas record) as [valores|e]; simpl.
  - pose proof (construirSismo_dom valores (erroresPorTipo st) H) as Hc.
    destruct (construir valores (erroresPorTipo st)) as [[sismo errores] b].
    simpl in Hc.
    destruct (500 <=? Z.of_nat (length (sismosBatch st ++ [sismo]))); simpl.
    + destruct (guardarLote _ _ _). exact Hc.
    + exact Hc.
  - apply contarError_tipos; [tipo_conocido|exact H].
Qed.

(** X12: the tally of a run holds no kind of error other than the four
    field kinds fecha, latitud, longitud and profundidad and
    error_general. *)
Theorem cargarSismosDesdeCSV_tipos_de_error
    (registros : list (list string)) (tabla0 : list Sismo.t) :
  dom (erroresPorTipo (cargar registros tabla0).2) ⊆ tiposDeError.
Proof.
  unfold cargarSismosDesdeCSV. cbn zeta.
  assert (H : dom (erroresPorTipo (foldl procesar (cargaInicial tabla0) registros))
              ⊆ tiposDeError).
  { assert (H0 : dom (erroresPorTipo (cargaInicial tabla0)) ⊆ tiposDeError)
      by (simpl; rewrite dom_empty_L; apply empty_subseteq).
    revert H0. generalize (cargaInicial tabla0).
    induction registros as [|record registros IH]; intros st H0; [exact H0|].
    simpl. apply IH, procesarRegistro_dom, H0. }
  destruct (sismosBatch _); [exact H|].
  destruct (guardarLote _ _ _). exact H.
Qed.

(** The three fields read with [Double.parseDouble]. *)
Inductive campoNumerico : Type := Latitud | Longitud | Profundidad.

Definition nombreDe (c : campoNumerico) : string :=
  match c with
  | Latitud => "latitud"
  | Longitud => "longitud"
  | Profundidad => "profundidad"
  end.

Definition tipoErrorDe (c : campoNumerico) : string :=
  match c with
  | Latitud => "latitud_invalida"
  | Longitud => "longitud_invalida"
  | Profundidad => "profundidad_invalida"
  end.

Definition valorDe (c : campoNumerico) (s : Sismo.t) : Q :=
  match c with
  | Latitud => Sismo.getLatitud s
  | Longitud => Sismo.getLongitud s
  | Profundidad => Sismo.getProfundidad s
  end.

(** X13: a coordinate or depth that cannot be parsed is stored as 0.0; the
    record is flagged and its kind of error counted once. *)
Theorem construirSismo_numero_ilegible
    (c : campoNumerico) (valores : gmap string string) (errores : gmap string Z) :
  Double_parseDouble_general (obtenerValorSeguro valores (nombreDe c)) = None ->
  let '(sismo, errores', errorEnRegistro) := construir valores errores in
  valorDe c sismo = 0%Q
  /\ errorEnRegistro = true
  /\ errores' !! tipoErrorDe c
     = Some (int_add (default 0 (errores !! tipoErrorDe c)) 1).
Proof.
  intros H. unfold construirSismo, leerMagnitud, leerDouble.
  destruct c; simpl in H; rewrite H;
    destruct (LocalDate_parse (obtenerValorSeguro valores "fecha"));
    try destruct (Double_parseDouble_general (obtenerValorSeguro valores "latitud"));
    try destruct (Double_parseDouble_general (obtenerValorSeguro valores "longitud"));
    try destruct (Double_parseDouble_general (obtenerValorSeguro valores "profundidad"));
    simpl; (split; [reflexivity|]); (split; [reflexivity|]);
    unfold contarError;
    repeat (rewrite lookup_insert_eq || (rewrite lookup_insert_ne by discriminate));
    reflexivity.
Qed.

(** X14: a date that cannot be parsed is replaced by today's date, and the
    UTC date that cannot be parsed by the date of the event; the record is
    flagged and fecha_invalida counted once. *)
Theorem construirSismo_fecha_ilegible
    (valores : gmap string string) (errores : gmap string Z) :
  LocalDate_parse (obtenerValorSeguro valores "fecha") = None ->
  let '(sismo, errores', errorEnRegistro) := construir valores errores in
  Sismo.getFecha sismo = Some LocalDate_now
  /\ Sismo.getFechaUTC sismo
     = Some (default LocalDate_now
               (LocalDate_parse (obtenerValorSeguro valores "fecha utc")))
  /\ errorEnRegistro = true
  /\ errores' !! "fecha_invalida"%string
     = Some (int_add (default 0 (errores !! "fecha_invalida"%string)) 1).
Proof.
  intros H. unfold construirSismo, leerMagnitud, leerDouble. rewrite H.
  destruct (Double_parseDouble_general (obtenerValorSeguro valores "latitud"));
    destruct (Double_parseDouble_general (obtenerValorSeguro valores "longitud"));
    destruct (Double_parseDouble_general (obtenerValorSeguro valores "profundidad"));
    destruct (LocalDate_parse (obtenerValorSeguro valores "fecha utc"));
    simpl; (split; [reflexivity|]); (split; [reflexivity|]); (split; [reflexivity|]);
    unfold contarError;
    repeat (rewrite lookup_insert_eq || (rewrite lookup_insert_ne by discriminate));
    reflexivity.
Qed.

End Corrida.

(** A short record, a record with a date that cannot be parsed, a record
    whose time-of-day text is too long for its column, and a plain one. *)
Definition csvMixto : list (list string) :=
  [["2024-01-15"; "12:00:00"]%string;
   ["ayer"; "12:00:01"; "5.1"; "16.5"; "-98.2"; "10"; "ref"; ""; ""; ""]%string;
   fila horaLarga "5.0";
   fila "12:00:02" "6.1"].

Lemma cargarSismosDesdeCSV_cuentas_witness :
  let '(total, st) := cargarCSV encabezado csvMixto [] in
  0 <= total
  /\ total <= Z.of_nat (length (tabla st)) - Z.of_nat (length (@nil Sismo.t))
  /\ Z.of_nat (length (tabla st)) - Z.of_nat (length (@nil Sismo.t))
     <= Z.of_nat (length csvMixto)
  /\ registrosProcesados st = Z.of_nat (length csvMixto)
  /\ 0 <= registrosErroneos st <= registrosProcesados st.
Proof.
  apply (cargarSismosDesdeCSV_cuentas parseFechaISO hoy parseDoubleDecimal
           encabezado csvMixto []).
  vm_compute. discriminate.
Defined.

Lemma cargarSismosDesdeCSV_cuenta_exacta_witness :
  (cargarCSV encabezado csvMagnitudIlegible []).1
  = Z.of_nat (length (omap (sismoDeRegistro parseFechaISO hoy parseDoubleDecimal
                             encabezado) csvMagnitudIlegible))
  /\ tabla (cargarCSV encabezado csvMagnitudIlegible []).2
     = [] ++ omap (sismoDeRegistro parseFechaISO hoy parseDoubleDecimal encabezado)
               csvMagnitudIlegible.
Proof.
  apply (cargarSismosDesdeCSV_cuenta_exacta parseFechaISO hoy parseDoubleDecimal
           encabezado csvMagnitudIlegible []).
  - vm_compute. discriminate.
  - vm_compute. reflexivity.
Defined.

Lemma procesarRegistro_registro_corto_witness :
  procesarRegistro parseFechaISO hoy parseDoubleDecimal encabezado
    (cargaInicial []) ["2024-01-15"; "12:00:00"]%string
  = {| totalRegistros := 0;
       registrosProcesados := int_add 0 1;
       registrosErroneos := int_add 0 1;
       erroresPorTipo := <["error_general"%string := int_add (default 0 None) 1]> ∅;
       sismosBatch := [];
       tabla := [] |}.
Proof.
  apply (procesarRegistro_registro_corto parseFechaISO hoy parseDoubleDecimal
           encabezado (cargaInicial []) ["2024-01-15"; "12:00:00"]%string
           "Magnitud" 2).
  - apply list_elem_of_In. simpl. tauto.
  - reflexivity.
Defined.

Lemma construirSismo_numero_ilegible_witness :
  let '(sismo, errores', errorEnRegistro) :=
    construirSismo parseFechaISO hoy parseDoubleDecimal
      (<["latitud"%string := "norte"%string]> ∅) ∅ in
  valorDe Latitud sismo = 0%Q
  /\ errorEnRegistro = true
  /\ errores' !! tipoErrorDe Latitud
     = Some (int_add (default 0 ((∅ : gmap string Z) !! tipoErrorDe Latitud)) 1).
Proof.
  apply (construirSismo_numero_ilegible parseFechaISO hoy parseDoubleDecimal
           Latitud (<["latitud"%string := "norte"%string]> ∅) ∅).
  vm_compute. reflexivity.
Defined.

Lemma construirSismo_fecha_ilegible_witness :
  let '(sismo, errores', errorEnRegistro) :=
    construirSismo parseFechaISO hoy parseDoubleDecimal
      (<["fecha"%string := "ayer"%string]> ∅) ∅ in
  Sismo.getFecha sismo = Some hoy
  /\ Sismo.getFechaUTC sismo
     = Some (default hoy
               (parseFechaISO
                  (obtenerValorSeguro (<["fecha"%string := "ayer"%string]> ∅)
                     "fecha utc")))
  /\ errorEnRegistro = true
  /\ errores' !! "fecha_invalida"%string
     = Some (int_add (default 0 ((∅ : gmap string Z) !! "fecha_invalida"%string)) 1).
Proof.
  apply (construirSismo_fecha_ilegible parseFechaISO hoy parseDoubleDecimal
           (<["fecha"%string := "ayer"%string]> ∅) ∅).
  vm_compute. reflexivity.
Defined.

(** *** The per-record fallback *)

Lemma length_filter_todos {A : Type} (f : A -> bool) (l : list A) :
  length (List.filter f l) = length l <-> forallb f l = true.
Proof.
  induction l as [|x l IH]; simpl; [tauto|].
  pose proof (length_filter_cota f l). destruct (f x); simpl.
  - rewrite <- IH. lia.
  - split; [lia|discriminate].
Qed.

(** X15: the fallback goes through the whole batch whatever the table
    refuses: the table receives the accepted records in order, the
    returned count is the number of rows the table gained, and it equals
    the size of the batch exactly when the table refuses none. *)
Theorem guardarRegistrosPorRegistro_filas (sismos tabla : list Sismo.t) :
  Z.of_nat (length sismos) <= Integer_MAX_VALUE ->
  let '(guardados, tabla') := guardarRegistrosPorRegistro sismos tabla in
  tabla' = tabla ++ List.filter cumpleEsquema sismos
  /\ guardados = Z.of_nat (length tabla') - Z.of_nat (length tabla)
  /\ (guardados = Z.of_nat (length sismos) <-> forallb cumpleEsquema sismos = true).
Proof.
  intros Hmax. unfold guardarRegistrosPorRegistro.
  rewrite guardarRegistrosPorRegistro_desde by lia.
  split; [reflexivity|]. split; [rewrite length_app; lia|].
  rewrite <- length_filter_todos. lia.
Qed.

Lemma guardarRegistrosPorRegistro_filas_witness :
  let '(guardados, tabla') :=
    guardarRegistrosPorRegistro
      (omap (sismoDeRegistro parseFechaISO hoy parseDoubleDecimal encabezado) csvMixto)
      [] in
  tabla' = [] ++ List.filter cumpleEsquema
                   (omap (sismoDeRegistro parseFechaISO hoy parseDoubleDecimal
                            encabezado) csvMixto)
  /\ guardados = Z.of_nat (length tabla') - Z.of_nat (length (@nil Sismo.t))
  /\ (guardados
      = Z.of_nat (length (omap (sismoDeRegistro parseFechaISO hoy parseDoubleDecimal
                                  encabezado) csvMixto))
      <-> forallb cumpleEsquema
            (omap (sismoDeRegistro parseFechaISO hoy parseDoubleDecimal encabezado)
               csvMixto) = true).
Proof.
  apply (guardarRegistrosPorRegistro_filas
           (omap (sismoDeRegistro parseFechaISO hoy parseDoubleDecimal encabezado)
              csvMixto) []).
  vm_compute. discriminate.
Defined.

(** *** A file without flaws *)

(** A magnitude text that [parseMagnitudDouble] takes to a finite double. *)
Definition magnitudFinita (s : string) : bool :=
  match valorLimpio s with
  | Some v => negb (Qle_bool Double_desborde (Qabs v))
  | None => true
  end.

Section ArchivoLimpio.

Variable LocalDate_parse : string -> option LocalDate.
Variable LocalDate_now : LocalDate.
Variable Double_parseDouble_java : string -> parseado.
Variable columnas : list (string * nat).

Definition finitoORechazado (s : string) : bool :=
  match Double_parseDouble_java s with
  | ValorNoFinito => false
  | _ => true
  end.

(** A record none of whose numbers leaves the finite doubles: the
    latitude, longitude and depth texts are parsed to a finite value or
    rejected, and the magnitude text is cleaned to a value in range. *)
Definition numerosFinitos (record : list string) : bool :=
  match leerValores columnas record with
  | Normal valores =>
      finitoORechazado (obtenerValorSeguro valores "latitud")
      && finitoORechazado (obtenerValorSeguro valores "longitud")
      && finitoORechazado (obtenerValorSeguro valores "profundidad")
      && magnitudFinita (obtenerValorSeguro valores "magnitud")
  | Lanza _ => false
  end.

(** For the magnitude of such a record the method on doubles returns the
    finite value that the model of the ingestion stores. *)
Lemma numerosFinitos_magnitud (record : list string) (valores : gmap string string) :
  numerosFinitos record = true ->
  leerValores columnas record = Normal valores ->
  exists fuel : nat,
    parseMagnitudDouble fuel (Some (obtenerValorSeguro valores "magnitud"))
    = Some (Finito (parseMagnitud (Some (obtenerValorSeguro valores "magnitud")))).
Proof.
  unfold numerosFinitos. intros H Hv. rewrite Hv in H.
  apply andb_prop in H as [_ H]. unfold magnitudFinita in H.
  exists (S (String.length (textoLimpio (obtenerValorSeguro valores "magnitud")))).
  apply SanitizerProps.parseMagnitudDouble_finito; [|lia].
  intros v Ev. rewrite Ev in H.
  apply Qnot_le_lt. intros Hle. apply Qle_bool_iff in Hle. rewrite Hle in H.
  discriminate.
Qed.


End ArchivoLimpio.

(** A stand-in for [Double.parseDouble]: the decimal texts of
    [Double_parseDouble], and the three names of the values that are not
    finite. *)
Definition parseDoubleDePrueba (s : string) : parseado :=
  if String.eqb s "NaN" || String.eqb s "Infinity" || String.eqb s "-Infinity"
  then ValorNoFinito
  else match Double_parseDouble s with
       | Normal v =>
           if Qle_bool Double_desborde (Qabs v) then ValorNoFinito else ValorFinito v
       | Lanza _ => NumberFormat
       end.

(** Complete records with short values, one of them with a date and a
    latitude that cannot be parsed. *)
Definition csvLimpio : list (list string) :=
  [fila "12:00:00" "7.5";
   ["ayer"; "12:00:01"; "5.1"; "norte"; "-98.2"; "10"; "ref"; ""; ""; ""]%string].


End IngestionMas.

(** * Further properties of the event graph *)

Module GrafoMas.
Import GrafoService GrafoProps.
Local Open Scope nat_scope.

(** *** The node store *)

Definition otroCodigo (nodo s : SismoNode.t) : Prop :=
  codigoIgual (SismoNode.getCodigo s) (SismoNode.getCodigo nodo) = false.

Lemma guardarSismoNode_nuevo (nodo : SismoNode.t) (almacen : list SismoNode.t) :
  Forall (otroCodigo nodo) almacen ->
  guardarSismoNode nodo almacen = almacen ++ [nodo].
Proof.
  induction almacen as [|s almacen IH]; intros H; [reflexivity|].
  apply Forall_cons in H as [Hs H]. simpl. rewrite Hs, IH by assumption.
  reflexivity.
Qed.

Lemma guardarSismoNode_ultimo (nodo viejo : SismoNode.t) (almacen : list SismoNode.t) :
  Forall (otroCodigo nodo) almacen ->
  codigoIgual (SismoNode.getCodigo viejo) (SismoNode.getCodigo nodo) = true ->
  guardarSismoNode nodo (almacen ++ [viejo]) = almacen ++ [nodo].
Proof.
  induction almacen as [|s almacen IH]; intros H Hv.
  - simpl. rewrite Hv. reflexivity.
  - apply Forall_cons in H as [Hs H]. simpl. rewrite Hs, IH by assumption.
    reflexivity.
Qed.

Lemma codigoIgual_refl (a : option string) : codigoIgual a a = true.
Proof. destruct a; simpl; [apply String.eqb_refl|reflexivity]. Qed.

Lemma guardarSismoNode_idem (nodo : SismoNode.t) (almacen : list SismoNode.t) :
  guardarSismoNode nodo (guardarSismoNode nodo almacen) = guardarSismoNode nodo almacen.
Proof.
  induction almacen as [|s almacen IH]; simpl.
  - rewrite codigoIgual_refl. reflexivity.
  - destruct (codigoIgual (SismoNode.getCodigo s) (SismoNode.getCodigo nodo)) eqn:E;
      simpl.
    + rewrite codigoIgual_refl. reflexivity.
    + rewrite E, IH. reflexivity.
Qed.

Lemma guardarSismoNode_length (nodo : SismoNode.t) (almacen : list SismoNode.t) :
  length almacen <= length (guardarSismoNode nodo almacen) <= S (length almacen).
Proof.
  induction almacen as [|s almacen IH]; simpl; [lia|].
  destruct (codigoIgual _ _); simpl; lia.
Qed.

Lemma buscarUbicacionCercana_indice (pointDistance : Q -> Q -> Q -> Q -> Q)
    (latitud longitud : Q) (ubicaciones : list UbicacionNode.t) :
  forall (k i : nat) (u : UbicacionNode.t),
    buscarUbicacionCercana pointDistance latitud longitud k ubicaciones = Some (i, u) ->
    k <= i
    /\ ubicaciones !! (i - k) = Some u
    /\ dentroDe pointDistance 5000 latitud longitud
         (UbicacionNode.getLatitud u) (UbicacionNode.getLongitud u) = true
    /\ (forall j v, j < i - k -> ubicaciones !! j = Some v ->
          dentroDe pointDistance 5000 latitud longitud
            (UbicacionNode.getLatitud v) (UbicacionNode.getLongitud v) = false).
Proof.
  induction ubicaciones as [|w ubicaciones IH]; intros k i u H; [discriminate|].
  simpl in H.
  destruct (dentroDe pointDistance 5000 latitud longitud
              (UbicacionNode.getLatitud w) (UbicacionNode.getLongitud w)) eqn:E.
  - injection H as <- <-. rewrite Nat.sub_diag. repeat split; auto.
    intros j v Hj. lia.
  - destruct (IH _ _ _ H) as (Hk & Hl & Hd & Hprev).
    replace (i - k) with (S (i - S k)) by lia.
    repeat split; [lia|exact Hl|exact Hd|].
    intros [|j] v Hj Hv.
    + injection Hv as <-. exact E.
    + apply (Hprev j v); [lia|exact Hv].
Qed.

Section Creacion.

Variable randomUUID : nat -> string.
Variable pointDistance : Q -> Q -> Q -> Q -> Q.

#[local] Abbreviation crear := (crearNodoSismo randomUUID pointDistance).

(** The find-or-create block of [crearNodoSismo]: the location of the
    event, the location repository and the identifiers drawn after it. *)
Definition ubicacionPara (sismo : Sismo.t) (st : Estado)
  : UbicacionNode.t * list UbicacionNode.t * nat :=
  let uuids := S (uuidsGenerados st) in
  match buscarUbicacionCercana pointDistance (Sismo.getLatitud sismo)
          (Sismo.getLongitud sismo) 0 (ubicacionNodeRepository st) with
  | Some (i, existente) =>
      match UbicacionNode.getCodigo existente with
      | Some (String _ _) => (existente, ubicacionNodeRepository st, uuids)
      | _ =>
          let u := UbicacionNode.setCodigo (Some (randomUUID uuids)) existente in
          (u, <[i := u]> (ubicacionNodeRepository st), S uuids)
      end
  | None =>
      let u :=
        {| UbicacionNode.getCodigo := Some (randomUUID (S uuids));
           UbicacionNode.getNombre := Sismo.getReferenciaLocalizacion sismo;
           UbicacionNode.getLatitud := Some (Sismo.getLatitud sismo);
           UbicacionNode.getLongitud := Some (Sismo.getLongitud sismo);
           UbicacionNode.getSismos := ∅ |} in
      (u, ubicacionNodeRepository st ++ [u], S (S uuids))
  end.

(** The node as [crearNodoSismo] first saves it. *)
Definition nodoInicial (sismo : Sismo.t) (st : Estado) : SismoNode.t :=
  {| SismoNode.getCodigo := Some (randomUUID (uuidsGenerados st));
     SismoNode.getFecha := Sismo.getFecha sismo;
     SismoNode.getHora := Sismo.getHora sismo;
     SismoNode.getMagnitud := Sismo.getMagnitud sismo;
     SismoNode.getLatitud := Some (Sismo.getLatitud sismo);
     SismoNode.getLongitud := Some (Sismo.getLongitud sismo);
     SismoNode.getProfundidad := Some (Sismo.getProfundidad sismo);
     SismoNode.getReferenciaLocalizacion := Sismo.getReferenciaLocalizacion sismo;
     SismoNode.getFechaUTC := Sismo.getFechaUTC sismo;
     SismoNode.getHoraUTC := Sismo.getHoraUTC sismo;
     SismoNode.getEstatus := Sismo.getEstatus sismo;
     SismoNode.getUbicacion := Some (ubicacionPara sismo st).1.1;
     SismoNode.getSismosCercanos := ∅;
     SismoNode.getSismosSimilares := ∅ |}.

(** A stored node that the nearby query and the filter after it let
    through for an event at the given place. *)
Definition esCercano (sismo : Sismo.t) (codigo : string) (s : SismoNode.t) : Prop :=
  SismoNode.getCodigo s <> Some codigo
  /\ dentroDe pointDistance (inject_Z 25 * 1000) (Sismo.getLatitud sismo)
       (Sismo.getLongitud sismo) (SismoNode.getLatitud s) (SismoNode.getLongitud s)
     = true.

(** A stored node whose magnitude is within half a unit of the event's. *)
Definition esParecido (sismo : Sismo.t) (codigo : string) (s : SismoNode.t) : Prop :=
  SismoNode.getCodigo s <> Some codigo
  /\ exists m m', Sismo.getMagnitud sismo = Some m
                  /\ SismoNode.getMagnitud s = Some m'
                  /\ (m - (1 # 2) <= m')%Q /\ (m' <= m + (1 # 2))%Q.

(** [crearNodoSismo] as the two blocks above followed by the two
    relationship methods. *)
Lemma crearNodoSismo_bloques (sismo : Sismo.t) (st : Estado) :
  crear sismo st
  = let '(sismoNode, st1) :=
      establecerRelacionesSismosCercanos randomUUID pointDistance
        (nodoInicial sismo st)
        {| sismoNodeRepository :=
             guardarSismoNode (nodoInicial sismo st) (sismoNodeRepository st);
           ubicacionNodeRepository := (ubicacionPara sismo st).1.2;
           uuidsGenerados := (ubicacionPara sismo st).2 |} in
    establecerRelacionesMagnitudSimilar sismoNode st1.
Proof.
  unfold crearNodoSismo, nodoInicial, ubicacionPara.
  destruct (buscarUbicacionCercana pointDistance (Sismo.getLatitud sismo)
              (Sismo.getLongitud sismo) 0 (ubicacionNodeRepository st))
    as [[i existente]|]; [|reflexivity].
  destruct (UbicacionNode.getCodigo existente) as [[|a c]|]; reflexivity.
Qed.

(** [crearNodoSismo] taken apart: the three versions of the node that are
    saved one after the other, and where the targets of its two kinds of
    relationship come from. *)
Lemma crearNodoSismo_anatomia (sismo : Sismo.t) (st st' : Estado) (nodo : SismoNode.t) :
  crear sismo st = Normal (nodo, st') ->
  let codigo := randomUUID (uuidsGenerados st) in
  let conCercanos :=
    SismoNode.setSismosCercanos (SismoNode.getSismosCercanos nodo) (nodoInicial sismo st) in
  nodo = SismoNode.setSismosSimilares (SismoNode.getSismosSimilares nodo) conCercanos
  /\ st' = {| sismoNodeRepository :=
                guardarSismoNode nodo
                  (guardarSismoNode conCercanos
                     (guardarSismoNode (nodoInicial sismo st) (sismoNodeRepository st)));
              ubicacionNodeRepository := (ubicacionPara sismo st).1.2;
              uuidsGenerados := (ubicacionPara sismo st).2 |}
  /\ (forall c, c ∈ SismoNode.getSismosCercanos nodo ->
        exists s, s ∈ sismoNodeRepository st /\ SismoNode.getCodigo s = Some c
                  /\ esCercano sismo codigo s)
  /\ (forall c, c ∈ SismoNode.getSismosSimilares nodo ->
        exists s, s ∈ sismoNodeRepository st /\ SismoNode.getCodigo s = Some c
                  /\ esParecido sismo codigo s).
Proof.
  rewrite crearNodoSismo_bloques.
  set (inicial := nodoInicial sismo st).
  assert (Hcod : SismoNode.getCodigo inicial = Some (randomUUID (uuidsGenerados st)))
    by reflexivity.
  unfold establecerRelacionesSismosCercanos. rewrite Hcod.
  set (candidatos := List.filter _ (buscarSismosCercanos _ _ _ _ _)).
  set (conCercanos := SismoNode.setSismosCercanos _ inicial).
  cbn [sismoNodeRepository ubicacionNodeRepository uuidsGenerados].
  set (almacen1 := guardarSismoNode inicial (sismoNodeRepository st)).
  assert (Hcercanos : forall c, c ∈ SismoNode.getSismosCercanos conCercanos ->
            exists s, s ∈ sismoNodeRepository st /\ SismoNode.getCodigo s = Some c
                      /\ esCercano sismo (randomUUID (uuidsGenerados st)) s).
  { intros c Hc. subst conCercanos.
    cbn [SismoNode.getSismosCercanos SismoNode.setSismosCercanos] in Hc.
    change (SismoNode.getSismosCercanos inicial) with (∅ : gset string) in Hc.
    apply elem_of_union in Hc as [Hc|Hc]; [apply elem_of_empty in Hc; contradiction|].
    apply elem_of_list_to_set, list_elem_of_omap in Hc as (s & Hs & Hsc).
    apply (elem_of_primeros 5 candidatos), list_elem_of_In in Hs.
    subst candidatos. apply filter_In in Hs as [Hs Hfil].
    rewrite Hsc, Hcod in Hfil.
    unfold buscarSismosCercanos in Hs.
    change (SismoNode.getLatitud inicial) with (Some (Sismo.getLatitud sismo)) in Hs.
    change (SismoNode.getLongitud inicial) with (Some (Sismo.getLongitud sismo)) in Hs.
    apply filter_In in Hs as [Hs Hd]. apply list_elem_of_In in Hs.
    assert (Hne : c <> randomUUID (uuidsGenerados st)).
    { intros ->. simpl in Hfil. rewrite String.eqb_refl in Hfil. discriminate. }
    subst almacen1. apply guardarSismoNode_origen in Hs as [->|Hs].
    - rewrite Hcod in Hsc. congruence.
    - exists s. split; [assumption|]. split; [assumption|].
      split; [congruence|exact Hd]. }
  unfold establecerRelacionesMagnitudSimilar.
  change (SismoNode.getMagnitud conCercanos) with (Sismo.getMagnitud sismo).
  destruct (Sismo.getMagnitud sismo) as [magnitud|] eqn:Hmag.
  - cbn [sismoNodeRepository ubicacionNodeRepository uuidsGenerados].
    destruct (filtrarConLimite _ 5 (guardarSismoNode conCercanos almacen1))
      as [similares|e] eqn:E; [|discriminate].
    cbn [ligar]. intros H. injection H as <- <-.
    apply filtrarConLimite_cota in E as [_ Hin].
    cbn [SismoNode.getSismosSimilares SismoNode.getSismosCercanos
         SismoNode.setSismosSimilares].
    change (SismoNode.getSismosCercanos conCercanos)
      with (SismoNode.getSismosCercanos inicial ∪ list_to_set
              (omap SismoNode.getCodigo (primeros 5 candidatos))).
    fold conCercanos.
    split; [destruct conCercanos; reflexivity|].
    split; [reflexivity|]. split; [exact Hcercanos|].
    intros c Hc.
    change (SismoNode.getSismosSimilares conCercanos) with (∅ : gset string) in Hc.
    apply elem_of_union in Hc as [Hc|Hc]; [apply elem_of_empty in Hc; contradiction|].
    apply elem_of_list_to_set, list_elem_of_omap in Hc as (s & Hs & Hsc).
    destruct (Hin s Hs) as [Hrep Hf]. unfold esSimilar in Hf.
    destruct (SismoNode.getMagnitud s) as [m'|] eqn:Hm'; [|discriminate].
    destruct (Qle_bool (magnitud - (1 # 2)) m' && Qle_bool m' (magnitud + (1 # 2)))
      eqn:Er; [|discriminate].
    rewrite Hsc in Hf. injection Hf as Hf.
    change (SismoNode.getCodigo conCercanos)
      with (Some (randomUUID (uuidsGenerados st))) in Hf.
    assert (Hne : c <> randomUUID (uuidsGenerados st)).
    { intros ->. simpl in Hf. rewrite String.eqb_refl in Hf. discriminate. }
    apply guardarSismoNode_origen in Hrep as [->|Hrep];
      [change (SismoNode.getCodigo conCercanos)
         with (Some (randomUUID (uuidsGenerados st))) in Hsc; congruence|].
    subst almacen1. apply guardarSismoNode_origen in Hrep as [->|Hrep];
      [rewrite Hcod in Hsc; congruence|].
    exists s. split; [assumption|]. split; [assumption|].
    split; [congruence|]. exists magnitud, m'.
    apply andb_prop in Er as [E1 E2]. apply Qle_bool_iff in E1, E2.
    repeat split; assumption.
  - intros H. injection H as <- <-.
    change (SismoNode.getSismosCercanos conCercanos)
      with (SismoNode.getSismosCercanos inicial ∪ list_to_set
              (omap SismoNode.getCodigo (primeros 5 candidatos))).
    fold conCercanos.
    split; [destruct conCercanos; reflexivity|].
    split.
    { rewrite guardarSismoNode_idem. reflexivity. }
    split; [exact Hcercanos|].
    intros c Hc.
    change (SismoNode.getSismosSimilares conCercanos) with (∅ : gset string) in Hc.
    apply elem_of_empty in Hc. contradiction.
Qed.

Lemma buscarUbicacionCercana_ninguna (latitud longitud : Q)
    (ubicaciones : list UbicacionNode.t) :
  forall k : nat,
    buscarUbicacionCercana pointDistance latitud longitud k ubicaciones = None ->
    Forall (fun v => dentroDe pointDistance 5000 latitud longitud
                       (UbicacionNode.getLatitud v) (UbicacionNode.getLongitud v)
                     = false) ubicaciones.
Proof.
  induction ubicaciones as [|w ubicaciones IH]; intros k H; [constructor|].
  simpl in H.
  destruct (dentroDe pointDistance 5000 latitud longitud
              (UbicacionNode.getLatitud w) (UbicacionNode.getLongitud w)) eqn:E;
    [discriminate|].
  constructor; [exact E|]. eapply IH, H.
Qed.

(** X16: the location of a new event.  When some stored location lies
    within 5000 m of the event, the node gets that location, with a new
    identifier when it had none or an empty one, and no location is added
    when it had one; when none lies that near, the node gets a new
    location at the event's coordinates, named after the event's reference
    text and added at the end.  Either way the node's location has an
    identifier and is in the repository. *)
Theorem crearNodoSismo_ubicacion (sismo : Sismo.t) (st st' : Estado) (nodo : SismoNode.t) :
  crear sismo st = Normal (nodo, st') ->
  exists u : UbicacionNode.t,
    SismoNode.getUbicacion nodo = Some u
    /\ u ∈ ubicacionNodeRepository st'
    /\ is_Some (UbicacionNode.getCodigo u)
    /\ ((exists existente : UbicacionNode.t,
           existente ∈ ubicacionNodeRepository st
           /\ dentroDe pointDistance 5000 (Sismo.getLatitud sismo) (Sismo.getLongitud sismo)
                (UbicacionNode.getLatitud existente) (UbicacionNode.getLongitud existente)
              = true
           /\ u = UbicacionNode.setCodigo (UbicacionNode.getCodigo u) existente
           /\ (forall c, UbicacionNode.getCodigo existente = Some c -> c <> EmptyString ->
                 u = existente
                 /\ ubicacionNodeRepository st' = ubicacionNodeRepository st))
        \/ (Forall (fun v => dentroDe pointDistance 5000 (Sismo.getLatitud sismo)
                               (Sismo.getLongitud sismo)
                               (UbicacionNode.getLatitud v) (UbicacionNode.getLongitud v)
                             = false) (ubicacionNodeRepository st)
            /\ UbicacionNode.getNombre u = Sismo.getReferenciaLocalizacion sismo
            /\ UbicacionNode.getLatitud u = Some (Sismo.getLatitud sismo)
            /\ UbicacionNode.getLongitud u = Some (Sismo.getLongitud sismo)
            /\ ubicacionNodeRepository st' = ubicacionNodeRepository st ++ [u])).
Proof.
  intros H. destruct (crearNodoSismo_anatomia _ _ _ _ H) as (Hn & Hst & _ & _).
  exists (ubicacionPara sismo st).1.1.
  split; [rewrite Hn; reflexivity|].
  rewrite Hst. cbn [ubicacionNodeRepository]. clear H Hn Hst.
  unfold ubicacionPara.
  destruct (buscarUbicacionCercana pointDistance (Sismo.getLatitud sismo)
              (Sismo.getLongitud sismo) 0 (ubicacionNodeRepository st))
    as [[i existente]|] eqn:Eb.
  - apply buscarUbicacionCercana_indice in Eb as (_ & Hi & Hd & _).
    rewrite Nat.sub_0_r in Hi.
    assert (Hlt : i < length (ubicacionNodeRepository st))
      by (eapply lookup_lt_Some; eassumption).
    assert (Hin : existente ∈ ubicacionNodeRepository st)
      by (eapply list_elem_of_lookup_2; eassumption).
    destruct (UbicacionNode.getCodigo existente) as [[|a c]|] eqn:Ec; cbn [fst snd].
    + split; [eapply list_elem_of_lookup_2, list_lookup_insert_eq; assumption|].
      split; [simpl; eauto|]. left. exists existente.
      split; [assumption|]. split; [assumption|]. split; [reflexivity|].
      intros c Hc Hne. congruence.
    + split; [assumption|].
      split; [rewrite Ec; eauto|]. left. exists existente.
      split; [assumption|]. split; [assumption|].
      split; [destruct existente; simpl in *; rewrite Ec; reflexivity|].
      intros c' _ _. split; reflexivity.
    + split; [eapply list_elem_of_lookup_2, list_lookup_insert_eq; assumption|].
      split; [simpl; eauto|]. left. exists existente.
      split; [assumption|]. split; [assumption|]. split; [reflexivity|].
      intros c Hc. congruence.
  - apply buscarUbicacionCercana_ninguna in Eb. cbn [fst snd].
    split; [apply elem_of_app; right; apply list_elem_of_singleton; reflexivity|].
    split; [simpl; eauto|]. right. repeat split. assumption.
Qed.

(** X17: every nearby relationship of a new node leads to a node that was
    in the store before the call, has an identifier other than the new
    node's, and lies within 25 km of the event. *)
Theorem crearNodoSismo_cercanos (sismo : Sismo.t) (st st' : Estado) (nodo : SismoNode.t) :
  crear sismo st = Normal (nodo, st') ->
  forall c : string,
    c ∈ SismoNode.getSismosCercanos nodo ->
    exists s : SismoNode.t,
      s ∈ sismoNodeRepository st
      /\ SismoNode.getCodigo s = Some c
      /\ SismoNode.getCodigo s <> SismoNode.getCodigo nodo
      /\ dentroDe pointDistance 25000 (Sismo.getLatitud sismo) (Sismo.getLongitud sismo)
           (SismoNode.getLatitud s) (SismoNode.getLongitud s) = true.
Proof.
  intros H c Hc. destruct (crearNodoSismo_anatomia _ _ _ _ H) as (Hn & _ & Hcer & _).
  destruct (Hcer c Hc) as (s & Hs & Hsc & Hne & Hd).
  exists s. split; [assumption|]. split; [assumption|].
  split; [rewrite Hn; exact Hne|exact Hd].
Qed.

(** X18: every similar-magnitude relationship of a new node leads to a
    node that was in the store before the call, has an identifier other
    than the new node's, and a magnitude within half a unit of the
    event's. *)
Theorem crearNodoSismo_similares (sismo : Sismo.t) (st st' : Estado) (nodo : SismoNode.t) :
  crear sismo st = Normal (nodo, st') ->
  forall c : string,
    c ∈ SismoNode.getSismosSimilares nodo ->
    exists (s : SismoNode.t) (m m' : Q),
      s ∈ sismoNodeRepository st
      /\ SismoNode.getCodigo s = Some c
      /\ SismoNode.getCodigo s <> SismoNode.getCodigo nodo
      /\ Sismo.getMagnitud sismo = Some m
      /\ SismoNode.getMagnitud s = Some m'
      /\ (Qabs (m' - m) <= 1 # 2)%Q.
Proof.
  intros H c Hc. destruct (crearNodoSismo_anatomia _ _ _ _ H) as (Hn & _ & _ & Hsim).
  destruct (Hsim c Hc) as (s & Hs & Hsc & Hne & m & m' & Hm & Hm' & H1 & H2).
  exists s, m, m'. repeat split; try assumption.
  - rewrite Hn. exact Hne.
  - apply Qabs_Qle_condition. split; lra.
Qed.

Lemma ubicacionPara_uuids (sismo : Sismo.t) (st : Estado) :
  S (uuidsGenerados st) <= (ubicacionPara sismo st).2 <= 3 + uuidsGenerados st.
Proof.
  unfold ubicacionPara.
  destruct (buscarUbicacionCercana _ _ _ _ _) as [[i existente]|]; [|simpl; lia].
  destruct (UbicacionNode.getCodigo existente) as [[|a c]|]; simpl; lia.
Qed.

(** The state after a call whose identifier is not in use. *)
Lemma crearNodoSismo_estado (sismo : Sismo.t) (st st' : Estado) (nodo : SismoNode.t) :
  Forall (fun s => SismoNode.getCodigo s <> Some (randomUUID (uuidsGenerados st)))
    (sismoNodeRepository st) ->
  crear sismo st = Normal (nodo, st') ->
  st' = {| sismoNodeRepository := sismoNodeRepository st ++ [nodo];
           ubicacionNodeRepository := (ubicacionPara sismo st).1.2;
           uuidsGenerados := (ubicacionPara sismo st).2 |}.
Proof.
  intros Hnuevo H.
  destruct (crearNodoSismo_anatomia _ _ _ _ H) as (Hn & Hst & _ & _).
  rewrite Hst at 1. f_equal.
  assert (Hotros : forall n, SismoNode.getCodigo n = Some (randomUUID (uuidsGenerados st)) ->
            Forall (otroCodigo n) (sismoNodeRepository st)).
  { intros n Hcod. eapply Forall_impl; [exact Hnuevo|].
    intros s Hs. unfold otroCodigo. rewrite Hcod.
    simpl in Hs. destruct (SismoNode.getCodigo s) as [c|]; [|reflexivity].
    simpl. apply String.eqb_neq. intros Heq. apply Hs. f_equal. exact Heq. }
  rewrite (guardarSismoNode_nuevo (nodoInicial sismo st)) by (apply Hotros; reflexivity).
  rewrite guardarSismoNode_ultimo;
    [|apply Hotros; reflexivity|apply codigoIgual_refl].
  rewrite guardarSismoNode_ultimo; [reflexivity|apply Hotros; rewrite Hn; reflexivity|].
  rewrite Hn. apply codigoIgual_refl.
Qed.

(** X19: when the identifier drawn for the new node is not in use, the
    call leaves every stored node as it was and adds the new node at the
    end: the relationships are recorded on the new node only. *)
Theorem crearNodoSismo_solo_agrega (sismo : Sismo.t) (st st' : Estado) (nodo : SismoNode.t) :
  Forall (fun s => SismoNode.getCodigo s <> Some (randomUUID (uuidsGenerados st)))
    (sismoNodeRepository st) ->
  crear sismo st = Normal (nodo, st') ->
  sismoNodeRepository st' = sismoNodeRepository st ++ [nodo]
  /\ forall (i : nat) (s : SismoNode.t),
       sismoNodeRepository st !! i = Some s -> sismoNodeRepository st' !! i = Some s.
Proof.
  intros Hnuevo H. rewrite (crearNodoSismo_estado _ _ _ _ Hnuevo H).
  cbn [sismoNodeRepository]. split; [reflexivity|].
  intros i s Hs. apply lookup_app_l_Some. assumption.
Qed.

(** A node that carries the data of an event. *)
Definition copiaDe (sismo : Sismo.t) (x : SismoNode.t) : Prop :=
  SismoNode.getFecha x = Sismo.getFecha sismo
  /\ SismoNode.getHora x = Sismo.getHora sismo
  /\ SismoNode.getMagnitud x = Sismo.getMagnitud sismo
  /\ SismoNode.getLatitud x = Some (Sismo.getLatitud sismo)
  /\ SismoNode.getLongitud x = Some (Sismo.getLongitud sismo)
  /\ SismoNode.getProfundidad x = Some (Sismo.getProfundidad sismo)
  /\ SismoNode.getReferenciaLocalizacion x = Sismo.getReferenciaLocalizacion sismo
  /\ SismoNode.getFechaUTC x = Sismo.getFechaUTC sismo
  /\ SismoNode.getHoraUTC x = Sismo.getHoraUTC sismo
  /\ SismoNode.getEstatus x = Sismo.getEstatus sismo.

Lemma guardarSismoNode_mismo_codigo (a b : SismoNode.t) (almacen : list SismoNode.t) :
  codigoIgual (SismoNode.getCodigo a) (SismoNode.getCodigo b) = true ->
  length (guardarSismoNode b (guardarSismoNode a almacen))
  = length (guardarSismoNode a almacen).
Proof.
  intros Hab. induction almacen as [|s almacen IH]; simpl.
  - rewrite Hab. reflexivity.
  - destruct (codigoIgual (SismoNode.getCodigo s) (SismoNode.getCodigo a)); simpl.
    + rewrite Hab. reflexivity.
    + destruct (codigoIgual (SismoNode.getCodigo s) (SismoNode.getCodigo b)); simpl;
        [reflexivity|]. rewrite IH. reflexivity.
Qed.

(** What one call does to the node store: it grows by at most one node,
    and every node in it afterwards was there before or carries the data
    of the event and the identifier drawn for it. *)
Lemma crearNodoSismo_almacen (sismo : Sismo.t) (st st' : Estado) (nodo : SismoNode.t) :
  crear sismo st = Normal (nodo, st') ->
  length (sismoNodeRepository st) <= length (sismoNodeRepository st')
    <= S (length (sismoNodeRepository st))
  /\ (forall x, x ∈ sismoNodeRepository st' ->
        x ∈ sismoNodeRepository st
        \/ (copiaDe sismo x
            /\ SismoNode.getCodigo x = Some (randomUUID (uuidsGenerados st)))).
Proof.
  intros H. destruct (crearNodoSismo_anatomia _ _ _ _ H) as (Hn & Hst & _ & _).
  rewrite Hst. cbn [sismoNodeRepository]. split.
  - rewrite !guardarSismoNode_mismo_codigo
      by (try rewrite Hn; apply codigoIgual_refl).
    apply guardarSismoNode_length.
  - intros x Hx.
    assert (Hcopia : copiaDe sismo (nodoInicial sismo st)
                     /\ SismoNode.getCodigo (nodoInicial sismo st)
                        = Some (randomUUID (uuidsGenerados st)))
      by (unfold copiaDe; repeat split; reflexivity).
    apply guardarSismoNode_origen in Hx as [->|Hx];
      [right; rewrite Hn; exact Hcopia|].
    apply guardarSismoNode_origen in Hx as [->|Hx]; [right; exact Hcopia|].
    apply guardarSismoNode_origen in Hx as [->|Hx]; [right; exact Hcopia|].
    left. assumption.
Qed.

Definition conCodigo (s : SismoNode.t) : Prop := SismoNode.getCodigo s <> None.

Lemma crearNodoSismo_conCodigo (sismo : Sismo.t) (st st' : Estado) (nodo : SismoNode.t) :
  crear sismo st = Normal (nodo, st') ->
  Forall conCodigo (sismoNodeRepository st) ->
  Forall conCodigo (sismoNodeRepository st').
Proof.
  intros H Hcod. destruct (crearNodoSismo_almacen _ _ _ _ H) as [_ Hor].
  rewrite Forall_forall in *. intros x Hx.
  destruct (Hor x Hx) as [Hx0|[_ Hc]]; [apply Hcod; assumption|].
  unfold conCodigo. rewrite Hc. discriminate.
Qed.

Lemma cargarUnoPorUno_completa (sismos : list Sismo.t) :
  forall st : Estado,
    Forall conCodigo (sismoNodeRepository st) ->
    exists st',
      cargarUnoPorUno randomUUID pointDistance sismos st = (lineasDe sismos, Normal st')
      /\ Forall conCodigo (sismoNodeRepository st').
Proof.
  induction sismos as [|sismo sismos IH]; intros st Hcod; [simpl; eauto|].
  destruct (crearNodoSismo_retorna randomUUID pointDistance sismo st Hcod)
    as (nodo & st1 & H1).
  destruct (IH st1 (crearNodoSismo_conCodigo _ _ _ _ H1 Hcod)) as (st' & H & Hcod').
  exists st'. simpl. rewrite H1, H. split; [reflexivity|assumption].
Qed.


(** X21: a bulk load that returns keeps the whole store within the
    bounds: when no stored node had more than five relationships of either
    kind or one to itself before, none has afterwards. *)
Theorem cargarSismosAGrafo_conserva_las_cotas
    (sismos : list Sismo.t) (st st' : Estado) (salida : list linea) :
  cargarSismosAGrafo randomUUID pointDistance sismos st = (salida, Normal st') ->
  Forall bienFormado (sismoNodeRepository st) ->
  Forall bienFormado (sismoNodeRepository st').
Proof.
  unfold cargarSismosAGrafo.
  destruct (cargarUnoPorUno randomUUID pointDistance sismos st) as [lineas r] eqn:E.
  destruct r as [st1|e]; [|discriminate]. intros H. injection H as _ <-.
  apply cargarUnoPorUno_normal in E as [_ Hen].
  eapply encadena_bienFormado. eassumption.
Qed.

Lemma encadena_almacen (sismos : list Sismo.t) (st st' : Estado) :
  encadena randomUUID pointDistance sismos st st' ->
  length (sismoNodeRepository st) <= length (sismoNodeRepository st')
    <= length (sismoNodeRepository st) + length sismos
  /\ (forall x, x ∈ sismoNodeRepository st' ->
        x ∈ sismoNodeRepository st \/ exists sismo, sismo ∈ sismos /\ copiaDe sismo x).
Proof.
  induction 1 as [st|sismo resto st st1 st' nodo H1 Hen IH].
  - simpl. split; [lia|]. auto.
  - destruct (crearNodoSismo_almacen _ _ _ _ H1) as [Hl1 Hor1].
    destruct IH as [Hl Hor]. simpl length. split; [lia|].
    intros x Hx. destruct (Hor x Hx) as [Hx1|(s & Hs & Hc)].
    + destruct (Hor1 x Hx1) as [Hx0|[Hc _]]; [left; assumption|].
      right. exists sismo. split; [left|assumption].
    + right. exists s. split; [right|]; assumption.
Qed.


(** The identifiers that the next [n] draws give are pairwise distinct and
    none of them is the identifier of a stored node. *)
Definition sinColision (st : Estado) (n : nat) : Prop :=
  (forall j k, uuidsGenerados st <= j -> j < k -> k < uuidsGenerados st + n ->
     randomUUID j <> randomUUID k)
  /\ (forall s k, s ∈ sismoNodeRepository st ->
        uuidsGenerados st <= k -> k < uuidsGenerados st + n ->
        SismoNode.getCodigo s <> Some (randomUUID k)).

Lemma encadena_sinColision (sismos : list Sismo.t) (st st' : Estado) :
  encadena randomUUID pointDistance sismos st st' ->
  sinColision st (3 * length sismos) ->
  exists nodos : list SismoNode.t,
    sismoNodeRepository st' = sismoNodeRepository st ++ nodos
    /\ Forall2 copiaDe sismos nodos.
Proof.
  induction 1 as [st|sismo resto st st1 st' nodo H1 Hen IH]; intros [Hinj Hlibre].
  - exists []. rewrite app_nil_r. split; [reflexivity|constructor].
  - simpl length in *.
    assert (Hnuevo : Forall (fun s => SismoNode.getCodigo s
                                      <> Some (randomUUID (uuidsGenerados st)))
                       (sismoNodeRepository st)).
    { apply Forall_forall. intros s Hs. apply (Hlibre s); [assumption|lia|lia]. }
    pose proof (crearNodoSismo_estado _ _ _ _ Hnuevo H1) as Hst1.
    pose proof (ubicacionPara_uuids sismo st) as Hu.
    destruct (crearNodoSismo_almacen _ _ _ _ H1) as [_ Hor].
    assert (Hnodo : copiaDe sismo nodo
                    /\ SismoNode.getCodigo nodo = Some (randomUUID (uuidsGenerados st))).
    { destruct (Hor nodo) as [Hin|Hc]; [|exfalso|exact Hc].
      - rewrite Hst1. cbn [sismoNodeRepository]. apply elem_of_app. right.
        apply list_elem_of_singleton. reflexivity.
      - destruct (crearNodoSismo_anatomia _ _ _ _ H1) as (Hn & _).
        rewrite Forall_forall in Hnuevo. apply (Hnuevo nodo Hin).
        rewrite Hn. reflexivity. }
    destruct IH as (nodos & Hrep & Hcop).
    { rewrite Hst1. split; cbn [sismoNodeRepository uuidsGenerados].
      - intros j k Hj Hjk Hk. apply Hinj; lia.
      - intros s k Hs Hk1 Hk2. apply elem_of_app in Hs as [Hs|Hs].
        + apply (Hlibre s); [assumption|lia|lia].
        + apply list_elem_of_singleton in Hs as ->. destruct Hnodo as [_ ->].
          intros Heq. injection Heq as Heq. revert Heq. apply Hinj; lia. }
    exists (nodo :: nodos). split.
    + rewrite Hrep, Hst1. cbn [sismoNodeRepository]. rewrite <- app_assoc. reflexivity.
    + constructor; [apply Hnodo|assumption].
Qed.

(** X23: when the identifiers drawn during a bulk load do not repeat and
    none is in use, a load that returns leaves the stored nodes as they
    were and adds one node per event, in the order of the list, each with
    the data of its event. *)
Theorem cargarSismosAGrafo_un_nodo_por_sismo
    (sismos : list Sismo.t) (st st' : Estado) (salida : list linea) :
  sinColision st (3 * length sismos) ->
  cargarSismosAGrafo randomUUID pointDistance sismos st = (salida, Normal st') ->
  exists nodos : list SismoNode.t,
    sismoNodeRepository st' = sismoNodeRepository st ++ nodos
    /\ Forall2 copiaDe sismos nodos.
Proof.
  intros Hsin. unfold cargarSismosAGrafo.
  destruct (cargarUnoPorUno randomUUID pointDistance sismos st) as [lineas r] eqn:E.
  destruct r as [st1|e]; [|discriminate]. intros H. injection H as _ <-.
  apply cargarUnoPorUno_normal in E as [_ Hen].
  apply encadena_sinColision; assumption.
Qed.

End Creacion.

(** *** The theorems above on a small store *)

(** Seven events at one place, then an eighth one there. *)
Definition estadoDeSiete : Estado := estadoTras sieteSismos estadoVacio.

Definition octavoSismo : Sismo.t := sismoDePrueba 8 (Some (74 # 10)%Q) (165 # 10)%Q.

Lemma uuidDePrueba_distinto (j k : nat) :
  j < k -> k < 100 -> uuidDePrueba j <> uuidDePrueba k.
Proof.
  intros Hjk Hk Heq. unfold uuidDePrueba in Heq. injection Heq as Heq.
  apply (f_equal nat_of_ascii) in Heq.
  rewrite !nat_ascii_embedding in Heq by lia. lia.
Qed.

Ltac no_lanza E :=
  apply (f_equal (fun r => match r with Normal _ => true | Lanza _ => false end)) in E;
  vm_compute in E; discriminate E.

Ltac no_lanza_carga E :=
  apply (f_equal (fun r => match snd r with Normal _ => true | Lanza _ => false end)) in E;
  vm_compute in E; discriminate E.

Lemma crearNodoSismo_ubicacion_witness :
  match crearNodoSismo uuidDePrueba distanciaDePrueba octavoSismo estadoDeSiete with
  | Normal (nodo, st') =>
      exists u : UbicacionNode.t,
        SismoNode.getUbicacion nodo = Some u
        /\ u ∈ ubicacionNodeRepository st'
        /\ is_Some (UbicacionNode.getCodigo u)
  | Lanza _ => False
  end.
Proof.
  destruct (crearNodoSismo uuidDePrueba distanciaDePrueba octavoSismo estadoDeSiete)
    as [[nodo st']|e] eqn:E.
  - destruct (crearNodoSismo_ubicacion _ _ _ _ _ _ E) as (u & H1 & H2 & H3 & _).
    exists u. split; [exact H1|]. split; [exact H2|exact H3].
  - no_lanza E.
Defined.

Lemma crearNodoSismo_cercanos_witness :
  match crearNodoSismo uuidDePrueba distanciaDePrueba octavoSismo estadoDeSiete with
  | Normal (nodo, st') =>
      forall c : string,
        c ∈ SismoNode.getSismosCercanos nodo ->
        exists s : SismoNode.t,
          s ∈ sismoNodeRepository estadoDeSiete
          /\ SismoNode.getCodigo s = Some c
          /\ SismoNode.getCodigo s <> SismoNode.getCodigo nodo
          /\ dentroDe distanciaDePrueba 25000 (Sismo.getLatitud octavoSismo)
               (Sismo.getLongitud octavoSismo)
               (SismoNode.getLatitud s) (SismoNode.getLongitud s) = true
  | Lanza _ => False
  end.
Proof.
  destruct (crearNodoSismo uuidDePrueba distanciaDePrueba octavoSismo estadoDeSiete)
    as [[nodo st']|e] eqn:E.
  - exact (crearNodoSismo_cercanos _ _ _ _ _ _ E).
  - no_lanza E.
Defined.

Lemma crearNodoSismo_similares_witness :
  match crearNodoSismo uuidDePrueba distanciaDePrueba octavoSismo estadoDeSiete with
  | Normal (nodo, st') =>
      forall c : string,
        c ∈ SismoNode.getSismosSimilares nodo ->
        exists (s : SismoNode.t) (m m' : Q),
          s ∈ sismoNodeRepository estadoDeSiete
          /\ SismoNode.getCodigo s = Some c
          /\ SismoNode.getCodigo s <> SismoNode.getCodigo nodo
          /\ Sismo.getMagnitud octavoSismo = Some m
          /\ SismoNode.getMagnitud s = Some m'
          /\ (Qabs (m' - m) <= 1 # 2)%Q
  | Lanza _ => False
  end.
Proof.
  destruct (crearNodoSismo uuidDePrueba distanciaDePrueba octavoSismo estadoDeSiete)
    as [[nodo st']|e] eqn:E.
  - exact (crearNodoSismo_similares _ _ _ _ _ _ E).
  - no_lanza E.
Defined.

Lemma crearNodoSismo_solo_agrega_witness :
  match crearNodoSismo uuidDePrueba distanciaDePrueba octavoSismo estadoDeSiete with
  | Normal (nodo, st') =>
      sismoNodeRepository st' = sismoNodeRepository estadoDeSiete ++ [nodo]
      /\ forall (i : nat) (s : SismoNode.t),
           sismoNodeRepository estadoDeSiete !! i = Some s ->
           sismoNodeRepository st' !! i = Some s
  | Lanza _ => False
  end.
Proof.
  destruct (crearNodoSismo uuidDePrueba distanciaDePrueba octavoSismo estadoDeSiete)
    as [[nodo st']|e] eqn:E.
  - refine (crearNodoSismo_solo_agrega _ _ _ _ _ _ _ E).
    refine (proj1 (Forall_fmap SismoNode.getCodigo
                     (fun c => c <> Some (uuidDePrueba (uuidsGenerados estadoDeSiete)))
                     (sismoNodeRepository estadoDeSiete)) _).
    vm_compute. repeat constructor; discriminate.
  - no_lanza E.
Defined.


Lemma cargarSismosAGrafo_conserva_las_cotas_witness :
  match cargarSismosAGrafo uuidDePrueba distanciaDePrueba [octavoSismo] estadoDeSiete with
  | (_, Normal st') => Forall bienFormado (sismoNodeRepository st')
  | (_, Lanza _) => False
  end.
Proof.
  destruct (cargarSismosAGrafo uuidDePrueba distanciaDePrueba [octavoSismo] estadoDeSiete)
    as [salida [st'|e]] eqn:E.
  - refine (cargarSismosAGrafo_conserva_las_cotas _ _ _ _ _ _ E _).
    unfold estadoDeSiete, estadoTras.
    destruct (cargarUnoPorUno uuidDePrueba distanciaDePrueba sieteSismos estadoVacio)
      as [lineas [st7|e7]] eqn:E7.
    + apply cargarUnoPorUno_normal in E7 as [_ Hen].
      refine (encadena_bienFormado _ _ _ _ _ Hen _). constructor.
    + constructor.
  - no_lanza_carga E.
Defined.


Lemma cargarSismosAGrafo_un_nodo_por_sismo_witness :
  match cargarSismosAGrafo uuidDePrueba distanciaDePrueba sieteSismos estadoVacio with
  | (_, Normal st') =>
      exists nodos : list SismoNode.t,
        sismoNodeRepository st' = sismoNodeRepository estadoVacio ++ nodos
        /\ Forall2 copiaDe sieteSismos nodos
  | (_, Lanza _) => False
  end.
Proof.
  destruct (cargarSismosAGrafo uuidDePrueba distanciaDePrueba sieteSismos estadoVacio)
    as [salida [st'|e]] eqn:E.
  - refine (cargarSismosAGrafo_un_nodo_por_sismo _ _ _ _ _ _ _ E).
    split.
    + intros j k _ Hjk Hk. apply uuidDePrueba_distinto; [exact Hjk|].
      simpl in Hk. lia.
    + intros s k Hs. inversion Hs.
  - no_lanza_carga E.
Defined.

End GrafoMas.

(** * Further properties of the graph endpoints *)

Module GrafoControllerMas.
Import GrafoService GrafoController GrafoControllerCarga GrafoProps GrafoMas.
Local Open Scope nat_scope.

(** *** The event selection *)

(** A [filter(...).limit(n)] whose test never throws is the first [n]
    elements of the filtered list. *)
Lemma filtrarConLimite_take {A : Type} (f : A -> resultado bool) (g : A -> bool) :
  (forall x, f x = Normal (g x)) ->
  forall (l : list A) (n : nat),
    filtrarConLimite f n l = Normal (take n (List.filter g l)).
Proof.
  intros Hfg. induction l as [|x l IH]; intros n.
  - destruct n; reflexivity.
  - destruct n as [|n]; [reflexivity|].
    cbn [filtrarConLimite List.filter]. rewrite Hfg. destruct (g x).
    + rewrite IH. reflexivity.
    + apply IH.
Qed.

(** The test of [obtenerSismosFiltrados]. *)
Definition enRango (minMagnitud maxMagnitud : Q) (s : SismoNode.t) : bool :=
  match SismoNode.getMagnitud s with
  | Some m => Qle_bool minMagnitud m && Qle_bool m maxMagnitud
  | None => false
  end.

(** X24: with a limit that is not negative the selection is the first
    [limit] stored events, in the order of the store, among those whose
    magnitude is present and within the range. *)
Theorem obtenerSismosFiltrados_primeros
    (minMagnitud maxMagnitud : Q) (limit : Z) (st : Estado) :
  (0 <= limit)%Z ->
  obtenerSismosFiltrados minMagnitud maxMagnitud limit st
  = Normal (take (Z.to_nat limit)
              (List.filter (enRango minMagnitud maxMagnitud) (sismoNodeRepository st))).
Proof.
  intros Hl. unfold obtenerSismosFiltrados.
  destruct (Z.ltb_spec limit 0) as [Hneg|_]; [lia|].
  apply filtrarConLimite_take. intros s. unfold enRango.
  destruct (SismoNode.getMagnitud s); reflexivity.
Qed.

Lemma obtenerSismosFiltrados_primeros_witness :
  obtenerSismosFiltrados (72 # 10) (75 # 10) 2 estadoDeSiete
  = Normal (take (Z.to_nat 2)
              (List.filter (enRango (72 # 10) (75 # 10))
                 (sismoNodeRepository estadoDeSiete))).
Proof.
  apply (obtenerSismosFiltrados_primeros (72 # 10) (75 # 10) 2 estadoDeSiete).
  vm_compute. discriminate.
Defined.

Section Exportacion.

Variable textoDeMagnitud : option Q -> string.
Variable textoDeFecha : option LocalDate -> string.

#[local] Abbreviation exportar :=
  (obtenerDatosParaVisualizacion textoDeMagnitud textoDeFecha).

(** X25: the export fails exactly when the limit is negative, with the
    IllegalArgumentException of [Stream.limit], and returns the two lists
    otherwise. *)
Theorem obtenerDatosParaVisualizacion_limite
    (minMagnitud maxMagnitud : Q) (limit : Z) (st : Estado) :
  ((limit < 0)%Z
   <-> exportar minMagnitud maxMagnitud limit st = Lanza IllegalArgumentException)
  /\ ((0 <= limit)%Z
      <-> exists nodos aristas,
            exportar minMagnitud maxMagnitud limit st = Normal (nodos, aristas)).
Proof.
  destruct (Z.ltb_spec limit 0) as [Hneg|Hpos].
  - assert (H : exportar minMagnitud maxMagnitud limit st = Lanza IllegalArgumentException).
    { unfold obtenerDatosParaVisualizacion, obtenerSismosFiltrados.
      destruct (Z.ltb_spec limit 0) as [_|Hpos]; [reflexivity|lia]. }
    split; split; intros G; try assumption; try lia.
    destruct G as (nodos & aristas & G). rewrite H in G. discriminate.
  - destruct (GrafoControllerProps.obtenerDatosParaVisualizacion_retorna textoDeMagnitud textoDeFecha
                minMagnitud maxMagnitud limit st Hpos) as (nodos & aristas & H).
    split; split; intros G; try assumption; try lia; eauto.
    rewrite H in G. discriminate.
Qed.

Lemma length_bind_cota {A B : Type} (f : A -> list B) (k : nat) (l : list A) :
  (forall x, x ∈ l -> length (f x) <= k) ->
  length (l ≫= f) <= k * length l.
Proof.
  induction l as [|x l IH]; intros H; [simpl; lia|].
  cbn. rewrite length_app. simpl length.
  specialize (H x ltac:(left)) as Hx.
  assert (Hl : forall y, y ∈ l -> length (f y) <= k)
    by (intros y Hy; apply H; right; assumption).
  specialize (IH Hl). change (mbind f l) with (l ≫= f). lia.
Qed.

Lemma length_aristasDeSismo (s : SismoNode.t) :
  length (aristasDeSismo s)
  = size (SismoNode.getSismosCercanos s) + size (SismoNode.getSismosSimilares s)
    + match SismoNode.getUbicacion s with Some _ => 1 | None => 0 end.
Proof.
  unfold aristasDeSismo. rewrite !length_app, !length_fmap.
  change (length (elements (SismoNode.getSismosCercanos s)))
    with (size (SismoNode.getSismosCercanos s)).
  change (length (elements (SismoNode.getSismosSimilares s)))
    with (size (SismoNode.getSismosSimilares s)).
  destruct (SismoNode.getUbicacion s); simpl length; lia.
Qed.

(** X26: the size of the export.  There are at most [limit] event nodes
    and one node per stored location; and when no stored node has more
    than five relationships of either kind, as is the case in a store that
    [crearNodoSismo] built, there are at most eleven edges per selected
    event. *)
Theorem obtenerDatosParaVisualizacion_cotas
    (minMagnitud maxMagnitud : Q) (limit : Z) (st : Estado)
    (nodos : list Nodo) (aristas : list Arista) :
  exportar minMagnitud maxMagnitud limit st = Normal (nodos, aristas) ->
  length nodos <= Z.to_nat limit + length (ubicacionNodeRepository st)
  /\ (Forall bienFormado (sismoNodeRepository st) ->
      length aristas <= 11 * Z.to_nat limit).
Proof.
  unfold obtenerDatosParaVisualizacion.
  destruct (obtenerSismosFiltrados minMagnitud maxMagnitud limit st)
    as [sismos|e] eqn:E; [|discriminate].
  cbn [ligar]. intros H. injection H as <- <-.
  apply GrafoControllerProps.obtenerSismosFiltrados_seleccion in E as [Hlen Hsel].
  split.
  - rewrite length_app, !length_fmap. unfold obtenerUbicacionesPorIds.
    pose proof (IngestionMas.length_filter_cota
                  (fun u => existsb (codigoIgual (UbicacionNode.getCodigo u))
                              (omap (fun s => UbicacionNode.getCodigo
                                                <$> SismoNode.getUbicacion s) sismos)
                            && match UbicacionNode.getCodigo u with
                               | Some _ => true
                               | None => false
                               end)
                  (ubicacionNodeRepository st)).
    lia.
  - intros Hbien. rewrite Forall_forall in Hbien.
    etransitivity; [apply (length_bind_cota aristasDeSismo 11)|].
    + intros s Hs. destruct (Hsel s Hs) as [Hrep _].
      destruct (Hbien s Hrep) as (H1 & H2 & _).
      rewrite length_aristasDeSismo. destruct (SismoNode.getUbicacion s); lia.
    + apply Nat.mul_le_mono_l. lia.
Qed.

End Exportacion.

Lemma obtenerDatosParaVisualizacion_cotas_witness :
  match obtenerDatosParaVisualizacion (fun _ => "m"%string) (fun _ => "f"%string)
          0 10 3 estadoDeSiete with
  | Normal (nodos, aristas) =>
      length nodos <= Z.to_nat 3 + length (ubicacionNodeRepository estadoDeSiete)
      /\ (Forall bienFormado (sismoNodeRepository estadoDeSiete) ->
          length aristas <= 11 * Z.to_nat 3)
  | Lanza _ => False
  end.
Proof.
  destruct (obtenerDatosParaVisualizacion (fun _ => "m"%string) (fun _ => "f"%string)
              0 10 3 estadoDeSiete) as [[nodos aristas]|e] eqn:E.
  - exact (obtenerDatosParaVisualizacion_cotas _ _ _ _ _ _ _ _ E).
  - apply (f_equal (fun r => match r with Normal _ => true | Lanza _ => false end)) in E.
    vm_compute in E. discriminate E.
Defined.

(** *** Loading the stored events *)

Section CargaExistentes.

Variable randomUUID : nat -> string.
Variable pointDistance : Q -> Q -> Q -> Q -> Q.

Lemma obtenerPorMagnitud_mayores (magnitud : Q) (tabla : list Sismo.t) :
  Forall (fun s => s ∈ tabla
                   /\ exists m, Sismo.getMagnitud s = Some m /\ (magnitud < m)%Q)
    (SismoConsultas.obtenerPorMagnitud magnitud tabla).
Proof.
  apply Forall_forall. intros s Hs.
  unfold SismoConsultas.obtenerPorMagnitud, SismoConsultas.findByMagnitudGreaterThan in Hs.
  apply list_elem_of_In, filter_In in Hs as [Hs Hm].
  split; [apply list_elem_of_In; assumption|].
  destruct (Sismo.getMagnitud s) as [m|]; [|discriminate].
  exists m. split; [reflexivity|].
  apply Qnot_le_lt. intros Hle. apply Qle_bool_iff in Hle.
  rewrite Hle in Hm. discriminate.
Qed.

(** X27: a load of the stored events that goes through answers 200 with
    the success flag set, and, when the identifiers drawn do not repeat
    and none is in use, it leaves the stored nodes as they were and adds
    one node for each row of the table whose magnitude is above 7, with
    the data of the row, whether or not the row had been loaded before. *)
Theorem cargarDatosExistentesANeo4j_efecto
    (tabla : list Sismo.t) (st st' : Estado) (salida : list traza)
    (respuesta : ResponseEntity) :
  sinColision randomUUID st
    (3 * length (SismoConsultas.obtenerPorMagnitud 7 tabla)) ->
  cargarDatosExistentesANeo4j randomUUID pointDistance tabla st
  = (salida, respuesta, Some st') ->
  getStatusCode respuesta = 200%Z
  /\ getSuccess respuesta = true
  /\ exists nodos : list SismoNode.t,
       sismoNodeRepository st' = sismoNodeRepository st ++ nodos
       /\ Forall2 copiaDe (SismoConsultas.obtenerPorMagnitud 7 tabla) nodos
       /\ Forall (fun n => exists m, SismoNode.getMagnitud n = Some m /\ (7 < m)%Q)
            nodos.
Proof.
  intros Hsin. unfold cargarDatosExistentesANeo4j.
  pose proof (obtenerPorMagnitud_mayores 7 tabla) as Hmay.
  destruct (SismoConsultas.obtenerPorMagnitud 7 tabla) as [|s sel] eqn:Esel.
  - intros H. injection H as _ <- <-. split; [reflexivity|]. split; [reflexivity|].
    exists []. rewrite app_nil_r. repeat split; constructor.
  - destruct (cargarSismosAGrafo randomUUID pointDistance (s :: sel) st)
      as [lineas [st1|e]] eqn:E; [|discriminate].
    intros H. injection H as _ <- <-. split; [reflexivity|]. split; [reflexivity|].
    unfold cargarSismosAGrafo in E.
    destruct (cargarUnoPorUno randomUUID pointDistance (s :: sel) st)
      as [lineas1 [st2|e]] eqn:E1; [|discriminate].
    injection E as _ <-.
    apply cargarUnoPorUno_normal in E1 as [_ Hen].
    destruct (encadena_sinColision _ _ _ _ _ Hen Hsin) as (nodos & Hrep & Hcop).
    exists nodos. split; [assumption|]. split; [assumption|].
    clear Hrep Hen Hsin Esel. revert Hmay.
    induction Hcop as [|x n xs ns Hxn _ IH]; intros Hmay; [constructor|].
    apply Forall_cons in Hmay as [(_ & m & Hm & Hlt) Hmay].
    constructor; [|apply IH; assumption].
    exists m. split; [|assumption].
    destruct Hxn as (_ & _ & Hmag & _). rewrite Hmag. assumption.
Qed.


End CargaExistentes.

(** Three rows, one of them above magnitude 7. *)
Definition tablaDePrueba : list Sismo.t :=
  [sismoDePrueba 1 (Some (75 # 10)%Q) (165 # 10)%Q;
   sismoDePrueba 2 (Some 6%Q) (165 # 10)%Q;
   sismoDePrueba 3 None (165 # 10)%Q].

Lemma cargarDatosExistentesANeo4j_efecto_witness :
  match cargarDatosExistentesANeo4j uuidDePrueba distanciaDePrueba tablaDePrueba
          estadoVacio with
  | (_, respuesta, Some st') =>
      getStatusCode respuesta = 200%Z
      /\ getSuccess respuesta = true
      /\ exists nodos : list SismoNode.t,
           sismoNodeRepository st' = sismoNodeRepository estadoVacio ++ nodos
           /\ Forall2 copiaDe (SismoConsultas.obtenerPorMagnitud 7 tablaDePrueba) nodos
           /\ Forall (fun n => exists m, SismoNode.getMagnitud n = Some m /\ (7 < m)%Q)
                nodos
  | (_, _, None) => False
  end.
Proof.
  destruct (cargarDatosExistentesANeo4j uuidDePrueba distanciaDePrueba tablaDePrueba
              estadoVacio) as [[salida respuesta] [st'|]] eqn:E.
  - refine (cargarDatosExistentesANeo4j_efecto _ _ _ _ _ _ _ _ E).
    split.
    + intros j k _ Hjk Hk. apply uuidDePrueba_distinto; [exact Hjk|].
      vm_compute in Hk. lia.
    + intros s k Hs. inversion Hs.
  - apply (f_equal (fun r => match snd r with Some _ => true | None => false end)) in E.
    vm_compute in E. discriminate E.
Defined.


End GrafoControllerMas.

(** * Further properties of the wave propagation *)

Module PropagationMas.
Import PropagationService PropagationController PropagationLlegadas.

(** X29: the controller returns what the service returned.  Its default
    loop runs only when the service produced no time step, and then
    produces none either. *)
Theorem controlador_devuelve_lo_del_servicio
    (fuel : nat) (findById : Z -> option Sismo.t) (request : PropagationRequest) :
  PropagationController.calculatePropagation fuel findById request
  = Respondida <$> PropagationService.calculatePropagation fuel findById request.
Proof.
  unfold PropagationController.calculatePropagation,
    PropagationService.calculatePropagation.
  destruct (bucle fuel 0 (getDurationSeconds request) (getIntervalSeconds request))
    as [pasos|] eqn:E; [|reflexivity].
  cbn [getTimeSteps getSismo fmap option_fmap option_map].
  destruct pasos; reflexivity.
Qed.

Section Llegadas.

Variable calculateDistance : Q -> Q -> Q -> Q -> Q.

(** X30: the three arrival times at a station.  For a distance that is
    not negative the P wave arrives first, then the S wave, then the
    surface wave, none before the origin time; and each time is the one at
    which the radius of its wave, velocity times elapsed time, equals the
    distance. *)
Theorem calculateArrivalTimes_orden (earthquakeLat earthquakeLon stationLat stationLon : Q) :
  (0 <= calculateDistance earthquakeLat earthquakeLon stationLat stationLon)%Q ->
  exists p s superficie : Q,
    calculateArrivalTimes calculateDistance earthquakeLat earthquakeLon
      stationLat stationLon !! "pWave"%string = Some p
    /\ calculateArrivalTimes calculateDistance earthquakeLat earthquakeLon
         stationLat stationLon !! "sWave"%string = Some s
    /\ calculateArrivalTimes calculateDistance earthquakeLat earthquakeLon
         stationLat stationLon !! "surfaceWave"%string = Some superficie
    /\ (0 <= p)%Q /\ (p <= s)%Q /\ (s <= superficie)%Q
    /\ (P_WAVE_VELOCITY * p
        == calculateDistance earthquakeLat earthquakeLon stationLat stationLon)%Q
    /\ (S_WAVE_VELOCITY * s
        == calculateDistance earthquakeLat earthquakeLon stationLat stationLon)%Q
    /\ (SURFACE_WAVE_VELOCITY * superficie
        == calculateDistance earthquakeLat earthquakeLon stationLat stationLon)%Q.
Proof.
  intros Hd. unfold calculateArrivalTimes.
  set (d := calculateDistance earthquakeLat earthquakeLon stationLat stationLon) in *.
  exists (d / P_WAVE_VELOCITY)%Q, (d / S_WAVE_VELOCITY)%Q, (d / SURFACE_WAVE_VELOCITY)%Q.
  split; [rewrite lookup_insert_ne, lookup_insert_ne, lookup_insert_eq by discriminate;
          reflexivity|].
  split; [rewrite lookup_insert_ne, lookup_insert_eq by discriminate; reflexivity|].
  split; [rewrite lookup_insert_eq; reflexivity|].
  unfold P_WAVE_VELOCITY, S_WAVE_VELOCITY, SURFACE_WAVE_VELOCITY, Qdiv.
  change (/ (6 # 1))%Q with (1 # 6)%Q. change (/ (7 # 2))%Q with (2 # 7)%Q.
  change (/ (5 # 2))%Q with (2 # 5)%Q.
  repeat split; try lra; ring.
Qed.

End Llegadas.

Lemma calculateArrivalTimes_orden_witness :
  exists p s superficie : Q,
    calculateArrivalTimes (fun _ _ _ _ => 210%Q) 16 (-98) 17 (-99) !! "pWave"%string
    = Some p
    /\ calculateArrivalTimes (fun _ _ _ _ => 210%Q) 16 (-98) 17 (-99) !! "sWave"%string
       = Some s
    /\ calculateArrivalTimes (fun _ _ _ _ => 210%Q) 16 (-98) 17 (-99)
         !! "surfaceWave"%string = Some superficie
    /\ (0 <= p)%Q /\ (p <= s)%Q /\ (s <= superficie)%Q
    /\ (P_WAVE_VELOCITY * p == 210)%Q
    /\ (S_WAVE_VELOCITY * s == 210)%Q
    /\ (SURFACE_WAVE_VELOCITY * superficie == 210)%Q.
Proof.
  apply (calculateArrivalTimes_orden (fun _ _ _ _ => 210%Q) 16 (-98) 17 (-99)).
  vm_compute. discriminate.
Defined.

End PropagationMas.
